(** * A shallow embedding of the unzip service

    The development follows the layout of the Python sources:
    - [config/config.py]              : [ArchiveConfig], [MoveConfig], [PathConfig]
    - [src/utils/file_helper.py]      : [FileHelper]
    - [src/core/archive.py]           : [ArchiveHandler]
    - [src/dao/models.py]             : [UnzipHistoryDao], [PiecesDao]
    - [src/core/unzip_service.py]     : [UnzipService]

    Python strings are [string]s, byte strings are [list byte], a
    [pathlib.Path] is the list of its segments below the root, the file
    system is an association list from paths to nodes, and code that
    touches the file system, the history collection or the log runs in a
    small state-and-exception monad.

    What the model leaves out: paths are compared as on POSIX (case
    matters); there are no symbolic links, no permissions and no second
    device; the data base is always reachable; the three codec libraries
    are parameters, of which only the effect on the file system and the
    exception are seen; the [while True] loop takes a bound on the number
    of its rounds. *)

From Stdlib Require Import List String Ascii Bool Arith Lia DecimalString Sorted.
From Stdlib.Strings Require Import Byte.
Import ListNotations.
Open Scope string_scope.
Open Scope list_scope.
Open Scope nat_scope.

Set Implicit Arguments.

(* ================================================================== *)
(** ** Python [str] operations *)
(* ================================================================== *)

Module Str.

(** [c.lower()] on one ASCII character. *)
Definition lower_ascii (c : ascii) : ascii :=
  let n := nat_of_ascii c in
  if (65 <=? n) && (n <=? 90) then ascii_of_nat (n + 32) else c.

(** [s.lower()] on a string of ASCII characters: the letters [A] to
    [Z] are lowered and every other character is kept.  Python lowers
    the cased letters outside ASCII as well; the model is for names
    without such letters. *)
Fixpoint lower (s : string) : string :=
  match s with
  | EmptyString => EmptyString
  | String c s' => String (lower_ascii c) (lower s')
  end.

(** [s.startswith(pre)]. *)
Definition startswith (s pre : string) : bool := String.prefix pre s.

(** [s[i:]]. *)
Definition drop (i : nat) (s : string) : string :=
  String.substring i (String.length s - i) s.

(** [s[:i]]. *)
Definition take (i : nat) (s : string) : string :=
  String.substring 0 i s.

(** [s.endswith(suf)]. *)
Definition endswith (s suf : string) : bool :=
  if String.length suf <=? String.length s
  then String.eqb (drop (String.length s - String.length suf) s) suf
  else false.

(** [s.find(sub)], with [None] for -1. *)
Fixpoint find (sub s : string) : option nat :=
  if String.prefix sub s then Some 0
  else match s with
       | EmptyString => None
       | String _ s' => option_map S (find sub s')
       end.

(** [s.rfind(sub)], with [None] for -1. *)
Fixpoint rfind (sub s : string) : option nat :=
  match s with
  | EmptyString => if String.prefix sub s then Some 0 else None
  | String _ s' =>
      match rfind sub s' with
      | Some i => Some (S i)
      | None => if String.prefix sub s then Some 0 else None
      end
  end.

(** [sub in s]. *)
Definition contains (sub s : string) : bool :=
  match find sub s with Some _ => true | None => false end.

(** [s.split(c)[0]] for a one-character separator [c]. *)
Fixpoint split_head (c : ascii) (s : string) : string :=
  match s with
  | EmptyString => EmptyString
  | String d s' => if Ascii.eqb d c then EmptyString else String d (split_head c s')
  end.

(** [s.replace(a, b)] for one-character [a] and [b]. *)
Fixpoint replace (a b : ascii) (s : string) : string :=
  match s with
  | EmptyString => EmptyString
  | String d s' => String (if Ascii.eqb d a then b else d) (replace a b s')
  end.

(** [str(n)] for a natural number. *)
Definition of_nat (n : nat) : string := NilZero.string_of_uint (Nat.to_uint n).

Fixpoint zeros (k : nat) : string :=
  match k with O => EmptyString | S k' => String "0" (zeros k') end.

(** [s.zfill(w)] for an unsigned decimal string. *)
Definition zfill (w : nat) (s : string) : string :=
  (zeros (w - String.length s) ++ s)%string.

End Str.

(* ================================================================== *)
(** ** [pathlib.Path] *)
(* ================================================================== *)

(** A path is the list of its segments below the file-system root. *)
Definition Path := list string.

Module PathOps.

(** [p / s] for one segment [s]; an empty segment and [.] leave [p]
    as it is.  The model is for a segment that holds no slash and is
    not [..]: pathlib splits at a slash, and it keeps [..] as a
    segment, which the file system then takes for the parent. *)
Definition div (p : Path) (s : string) : Path :=
  if String.eqb s "" || String.eqb s "." then p else p ++ [s].

(** [p.name]. *)
Definition name (p : Path) : string := last p "".

(** [p.parent]. *)
Definition parent (p : Path) : Path := removelast p.

(** [p.suffix]: the last dot and what follows it, unless the dot is the
    first or the last character of the name. *)
Definition suffix (p : Path) : string :=
  let n := name p in
  match Str.rfind "." n with
  | Some i => if (0 <? i) && (i <? String.length n - 1) then Str.drop i n else ""
  | None => ""
  end.

(** [p.stem]: the name without its [suffix]. *)
Definition stem (p : Path) : string :=
  let n := name p in
  match Str.rfind "." n with
  | Some i => if (0 <? i) && (i <? String.length n - 1) then Str.take i n else n
  | None => n
  end.

Fixpoint eqb (p q : Path) : bool :=
  match p, q with
  | [], [] => true
  | a :: p', b :: q' => String.eqb a b && eqb p' q'
  | _, _ => false
  end.

(** [q] lies at or below [p]. *)
Fixpoint is_prefix (p q : Path) : bool :=
  match p, q with
  | [], _ => true
  | a :: p', b :: q' => String.eqb a b && is_prefix p' q'
  | _ :: _, [] => false
  end.

(** [q] lies strictly below [p]. *)
Definition below (p q : Path) : bool := is_prefix p q && negb (eqb p q).

(** [q] is a direct child of [p]. *)
Definition child_of (p q : Path) : bool :=
  is_prefix p q && (List.length q =? S (List.length p)).

(** [q.relative_to(p)] when [q] lies at or below [p]. *)
Definition relative_to (p q : Path) : Path := skipn (List.length p) q.

(** The order of [Path.__lt__]: segment lists compared lexicographically. *)
Fixpoint compare (p q : Path) : comparison :=
  match p, q with
  | [], [] => Eq
  | [], _ :: _ => Lt
  | _ :: _, [] => Gt
  | a :: p', b :: q' =>
      match String.compare a b with
      | Eq => compare p' q'
      | c => c
      end
  end.

Definition leb (p q : Path) : bool :=
  match compare p q with Gt => false | _ => true end.

(** [str(p)]. *)
Definition to_str (p : Path) : string := ("/" ++ String.concat "/" p)%string.

(** [sorted(ps)]: a stable insertion sort for [leb]. *)
Fixpoint insert (p : Path) (ps : list Path) : list Path :=
  match ps with
  | [] => [p]
  | q :: ps' => if leb p q then p :: ps else q :: insert p ps'
  end.

Definition sorted (ps : list Path) : list Path :=
  fold_right insert [] ps.

End PathOps.

Notation "p // s" := (PathOps.div p s) (at level 40, left associativity).

(* ================================================================== *)
(** ** config/config.py *)
(* ================================================================== *)

Module ArchiveConfig.
Definition SEVEN_ZIP_HEADER : string := "377abcaf271c".
Definition ZIP_HEADER : string := "504b03".
Definition RAR_HEADER : string := "526172".
Definition HEADER_BYTES : nat := 20.
End ArchiveConfig.

Record MoveConfig := { skip_parent_levels : nat }.

Record PathConfig := {
  source_dir : Path;
  unzip_temp_dir : Path;
  target_temp_dir : Path;
  target_dir : Path;
  move_config : MoveConfig
}.

(* ================================================================== *)
(** ** The file system *)
(* ================================================================== *)

Inductive node :=
| File (data : list byte)
| Dir.

(** The file system maps a path to the node found there; the first entry
    for a path is the one that counts.  The order of the entries is the
    order in which the operating system lists them. *)
Definition FS := list (Path * node).

(** Python exceptions that the service meets. *)
Inductive exn :=
| OSError        (* FileNotFoundError, NotADirectoryError, FileExistsError, ... *)
| ValueError     (* str.index / str.rindex on a missing substring *)
| ShutilError    (* shutil.Error *)
| CodecError.    (* whatever py7zr, pyzipper or rarfile raise *)

Inductive res (A : Type) :=
| Ok (a : A)
| Err (e : exn).
Arguments Err {A} e.

Module Fs.

Fixpoint stat (fs : FS) (p : Path) : option node :=
  match fs with
  | [] => None
  | (q, n) :: fs' => if PathOps.eqb q p then Some n else stat fs' p
  end.

(** [p.exists()]; the root always exists. *)
Definition exists_ (fs : FS) (p : Path) : bool :=
  match p with
  | [] => true
  | _ => match stat fs p with Some _ => true | None => false end
  end.

(** [p.is_file()]. *)
Definition is_file (fs : FS) (p : Path) : bool :=
  match stat fs p with Some (File _) => true | _ => false end.

(** [p.is_dir()]. *)
Definition is_dir (fs : FS) (p : Path) : bool :=
  match p with
  | [] => true
  | _ => match stat fs p with Some Dir => true | _ => false end
  end.

(** The bytes of the file at [p], as [open(p, 'rb').read()] gives them. *)
Definition read (fs : FS) (p : Path) : res (list byte) :=
  match stat fs p with
  | Some (File d) => Ok d
  | _ => Err OSError
  end.

(** Every entry at or below [p] is dropped. *)
Definition remove_tree (fs : FS) (p : Path) : FS :=
  filter (fun e => negb (PathOps.is_prefix p (fst e))) fs.

(** The entry at [p] itself is dropped. *)
Definition remove_entry (fs : FS) (p : Path) : FS :=
  filter (fun e => negb (PathOps.eqb p (fst e))) fs.

(** [p.unlink()]. *)
Definition unlink (fs : FS) (p : Path) : res FS :=
  if is_file fs p then Ok (remove_entry fs p) else Err OSError.

(** [shutil.rmtree(p)]. *)
Definition rmtree (fs : FS) (p : Path) : res FS :=
  match p with
  | [] => Err OSError
  | _ => if is_dir fs p then Ok (remove_tree fs p) else Err OSError
  end.

(** [p.iterdir()], as a list. *)
Definition iterdir (fs : FS) (p : Path) : res (list Path) :=
  if is_dir fs p
  then Ok (map fst (filter (fun e => PathOps.child_of p (fst e)) fs))
  else Err OSError.

(** [p.rglob('*')], as a list. *)
Definition rglob (fs : FS) (p : Path) : list Path :=
  map fst (filter (fun e => PathOps.below p (fst e)) fs).

(** [p.mkdir(parents=True, exist_ok=True)]: the directories on the way
    to [p] are made one after the other, [pre] being the part of the way
    already walked. *)
Fixpoint mkdir_from (fs : FS) (pre : Path) (rest : list string) : res FS :=
  match rest with
  | [] => Ok fs
  | s :: rest' =>
      let q := pre ++ [s] in
      match stat fs q with
      | Some Dir => mkdir_from fs q rest'
      | Some (File _) => Err OSError
      | None => mkdir_from (fs ++ [(q, Dir)]) q rest'
      end
  end.

Definition mkdir_p (fs : FS) (p : Path) : res FS := mkdir_from fs [] p.

(** [open(p, 'wb')] followed by writing [d]: the parent must be a
    directory and [p] must not be one. *)
Definition write (fs : FS) (p : Path) (d : list byte) : res FS :=
  match p with
  | [] => Err OSError
  | _ =>
      if negb (is_dir fs (PathOps.parent p)) then Err OSError
      else if is_dir fs p then Err OSError
      else if is_file fs p
           then Ok (map (fun e => if PathOps.eqb p (fst e) then (p, File d) else e) fs)
           else Ok (fs ++ [(p, File d)])
  end.

(** [shutil.copy2(src, dst)]: a directory [dst] receives the file under
    its own name. *)
Definition copy2 (fs : FS) (src dst : Path) : res FS :=
  match read fs src with
  | Err e => Err e
  | Ok d =>
      let real_dst := if is_dir fs dst then dst // PathOps.name src else dst in
      if PathOps.eqb src real_dst then Err ShutilError   (* SameFileError *)
      else write fs real_dst d
  end.

(** The entries at or below [src] are re-rooted at [dst]. *)
Definition rename_tree (fs : FS) (src dst : Path) : FS :=
  map (fun e => if PathOps.is_prefix src (fst e)
                then (dst ++ PathOps.relative_to src (fst e), snd e)
                else e) fs.

(** [shutil.move(src, dst)]: a directory [dst] receives [src] under its
    own name; [os.rename] is tried first, and where it fails a directory
    is moved by [copytree], which makes the missing parents of the
    destination, and a file by [copy2]. *)
Definition move (fs : FS) (src dst : Path) : res FS :=
  match src with
  | [] => Err OSError
  | _ =>
    if is_dir fs dst && PathOps.eqb src dst then Ok fs
    else
      let real_dst := if is_dir fs dst then dst // PathOps.name src else dst in
      if is_dir fs dst && exists_ fs real_dst then Err ShutilError
      else if negb (exists_ fs src) then Err OSError
      else if is_dir fs src && PathOps.is_prefix src real_dst then Err ShutilError
      else if is_dir fs src && exists_ fs real_dst then Err OSError
      else if is_dir fs (PathOps.parent real_dst)
           then Ok (rename_tree (remove_entry fs real_dst) src real_dst)
           else if is_dir fs src
                then match mkdir_p fs (PathOps.parent real_dst) with
                     | Ok fs' => Ok (rename_tree fs' src real_dst)
                     | Err e => Err e
                     end
                else Err OSError
  end.

(** Nothing is at [p]. *)
Definition absent (fs : FS) (p : Path) : Prop := forall n, ~ In (p, n) fs.

End Fs.

(* ================================================================== *)
(** ** [binascii] *)
(* ================================================================== *)

Module Hex.

Definition digit (n : nat) : ascii :=
  match n with
  | 0 => "0" | 1 => "1" | 2 => "2" | 3 => "3" | 4 => "4" | 5 => "5" | 6 => "6"
  | 7 => "7" | 8 => "8" | 9 => "9" | 10 => "a" | 11 => "b" | 12 => "c"
  | 13 => "d" | 14 => "e" | _ => "f"
  end%char.

(** [binascii.b2a_hex(bs).decode('utf-8')]. *)
Fixpoint b2a_hex (bs : list byte) : string :=
  match bs with
  | [] => EmptyString
  | b :: bs' =>
      let n := Byte.to_nat b in
      String (digit (n / 16)) (String (digit (n mod 16)) (b2a_hex bs'))
  end.

End Hex.

(* ================================================================== *)
(** ** The world the service runs in, and its monad *)
(* ================================================================== *)

(** A document of the [UnzipHistory] collection ([date] is left out). *)
Record HistoryRecord := {
  h_id : string;
  h_src_path : string;
  h_dst_path : string
}.

(** The lines of the log that the theorems below speak about; each one
    stands for the [logger] call quoted next to it. *)
Inductive log_msg :=
| LogUnsupportedType                    (* "Unsupported archive type: ..." *)
| LogUsingArchiveFile (p : Path)        (* "Using archive file: ..." *)
| LogDirectFailed                       (* "Direct extraction failed: ..., trying with merged file" *)
| LogMergingParts                       (* "Merging archive parts..." *)
| LogRemovingMerged (p : Path)          (* "Removing merged file: ..." *)
| LogSkippingMultipart (p : Path)       (* "Skipping multi-part archive file: ..." *)
| LogCopied (p dst : Path)              (* "Successfully copied ... to ..." *)
| LogFailedCopy (p : Path)              (* "Failed to copy ... to ...: ..." *)
| LogProcessingArchive (p : Path)       (* "Processing archive: ... (type: ...)" *)
| LogFailedExtract (p : Path)           (* "Failed to extract archive ...: ..." *)
| LogNoFilesToMove (p : Path)           (* "No files to move from ..." *)
| LogRemovingTarget (p : Path)          (* "Removing existing target directory: ..." *)
| LogMoved (src dst : Path)             (* "Successfully moved: ... to ..." *)
| LogSkippingProcessed (p : Path)       (* "Skipping already processed item: ..." *)
| LogFailedId (id : string).            (* "Failed to process ID ...: ..." *)

Record world := {
  fs : FS;
  history : list HistoryRecord;
  log : list log_msg
}.

(** How a call ends: it returns, it raises, or the model ran out of fuel
    in the [while True] loop of [_process_unzip_temp_archives]. *)
Inductive outcome (A : Type) :=
| Ret (a : A)
| Raise (e : exn)
| Timeout.
Arguments Raise {A} e.
Arguments Timeout {A}.

Definition M (A : Type) := world -> outcome A * world.

Definition ret {A} (a : A) : M A := fun w => (Ret a, w).

Definition bind {A B} (m : M A) (k : A -> M B) : M B :=
  fun w =>
    match m w with
    | (Ret a, w') => k a w'
    | (Raise e, w') => (Raise e, w')
    | (Timeout, w') => (Timeout, w')
    end.

Definition raise {A} (e : exn) : M A := fun w => (Raise e, w).

(** [try: m  except Exception as e: h e]. *)
Definition try_except {A} (m : M A) (h : exn -> M A) : M A :=
  fun w =>
    match m w with
    | (Raise e, w') => h e w'
    | r => r
    end.

(** [try: m  finally: c]. *)
Definition try_finally {A} (m : M A) (c : M unit) : M A :=
  fun w =>
    match m w with
    | (r, w') =>
        match c w' with
        | (Ret _, w'') => (r, w'')
        | (Raise e, w'') => (match r with Timeout => Timeout | _ => Raise e end, w'')
        | (Timeout, w'') => (Timeout, w'')
        end
    end.

Declare Scope monad_scope.
Delimit Scope monad_scope with monad.
Notation "x <- m ;; k" := (bind m (fun x => k))
  (at level 61, m at next level, right associativity) : monad_scope.
Notation "m ;; k" := (bind m (fun _ => k))
  (at level 61, right associativity) : monad_scope.
Open Scope monad_scope.

Definition get_fs : M FS := fun w => (Ret (fs w), w).

Definition get_history : M (list HistoryRecord) := fun w => (Ret (history w), w).

Definition put_fs (f : FS) : M unit :=
  fun w => (Ret tt, {| fs := f; history := history w; log := log w |}).

Definition logger (m : log_msg) : M unit :=
  fun w => (Ret tt, {| fs := fs w; history := history w; log := log w ++ [m] |}).

(** A file-system call that changes the file system or raises. *)
Definition fs_do (f : FS -> res FS) : M unit :=
  fun w =>
    match f (fs w) with
    | Ok f' => put_fs f' w
    | Err e => (Raise e, w)
    end.

(** A file-system call that only looks. *)
Definition fs_ask {A} (f : FS -> res A) : M A :=
  fun w =>
    match f (fs w) with
    | Ok a => (Ret a, w)
    | Err e => (Raise e, w)
    end.

Definition when (b : bool) (m : M unit) : M unit := if b then m else ret tt.

(** [for x in l: body x]. *)
Fixpoint for_each {A} (l : list A) (body : A -> M unit) : M unit :=
  match l with
  | [] => ret tt
  | x :: l' => body x ;; for_each l' body
  end.

(** [for x in l: s = body x s], for a loop that updates a local [s]. *)
Fixpoint for_fold {A S} (l : list A) (s : S) (body : A -> S -> M S) : M S :=
  match l with
  | [] => ret s
  | x :: l' => s' <- body x s ;; for_fold l' s' body
  end.

(* ================================================================== *)
(** ** src/utils/file_helper.py *)
(* ================================================================== *)

Module FileHelper.

(** [FileHelper.make_directory]. *)
Definition make_directory (path : Path) : M unit :=
  f <- get_fs ;;
  when (Fs.exists_ f path)
       (if Fs.is_file f path
        then fs_do (fun f => Fs.unlink f path)
        else fs_do (fun f => Fs.rmtree f path)) ;;
  fs_do (fun f => Fs.mkdir_p f path).

(** [FileHelper.contains_files]. *)
Definition contains_files (f : FS) (directory : Path) : bool :=
  if negb (Fs.exists_ f directory) || negb (Fs.is_dir f directory) then false
  else existsb (Fs.is_file f) (Fs.rglob f directory).

(** [FileHelper.get_file_list]. *)
Definition get_file_list (f : FS) (directory : Path) : list Path :=
  filter (Fs.is_file f) (Fs.rglob f directory).

(** [FileHelper.get_file_header]: the hex string of the first
    [bytes_to_read] bytes, or [None] when the file cannot be read. *)
Definition get_file_header (f : FS) (file_path : Path) : option string :=
  match Fs.read f file_path with
  | Ok d => Some (Hex.b2a_hex (firstn ArchiveConfig.HEADER_BYTES d))
  | Err _ => None
  end.

(** What [out_file.write(chunk)] does, chunk after chunk, for the whole
    of one input file. *)
Definition append_to (output_path : Path) (d : list byte) : M unit :=
  old <- fs_ask (fun f => Fs.read f output_path) ;;
  fs_do (fun f => Fs.write f output_path (old ++ d)).

(** [FileHelper.merge_files]. *)
Definition merge_files (file_list : list Path) (output_path : Path) : M unit :=
  try_except
    (fs_do (fun f => Fs.write f output_path []) ;;
     for_each (PathOps.sorted file_list)
       (fun file_path =>
          d <- fs_ask (fun f => Fs.read f file_path) ;;
          append_to output_path d))
    (fun e => raise e).

End FileHelper.

(* ================================================================== *)
(** ** src/core/archive.py *)
(* ================================================================== *)

Inductive ArchiveType := SEVEN_ZIP | ZIP | RAR | UNKNOWN.

Definition ArchiveType_eqb (a b : ArchiveType) : bool :=
  match a, b with
  | SEVEN_ZIP, SEVEN_ZIP | ZIP, ZIP | RAR, RAR | UNKNOWN, UNKNOWN => true
  | _, _ => false
  end.

Record ArchiveInfo := {
  path : Path;
  type : ArchiveType;
  parts : list Path;
  password : string
}.

(** [ArchiveHandler.detect_archive_type]. *)
Definition detect_archive_type (f : FS) (file_path : Path) : ArchiveType :=
  match FileHelper.get_file_header f file_path with
  | None => UNKNOWN
  | Some header =>
      if String.eqb header "" then UNKNOWN
      else if Str.startswith header ArchiveConfig.SEVEN_ZIP_HEADER then SEVEN_ZIP
      else if Str.startswith header ArchiveConfig.ZIP_HEADER then ZIP
      else if Str.startswith header ArchiveConfig.RAR_HEADER then RAR
      else UNKNOWN
  end.

(** What a codec library does when asked to unpack [archive_path] into
    [output_dir] with [password]: the file system afterwards, and the
    exception if it raised. *)
Definition codec := Path -> Path -> string -> FS -> FS * option exn.

Definition run_codec (c : codec) (archive_path output_dir : Path) (pw : string) : M unit :=
  fun w =>
    match c archive_path output_dir pw (fs w) with
    | (f', None) => put_fs f' w
    | (f', Some e) => (Raise e, {| fs := f'; history := history w; log := log w |})
    end.

(* ================================================================== *)
(** ** src/dao/models.py *)
(* ================================================================== *)

Inductive DatabaseType := LOIBUS | SEMAO | VAMVIDEO | XLIXLI.

Definition DatabaseType_eqb (a b : DatabaseType) : bool :=
  match a, b with
  | LOIBUS, LOIBUS | SEMAO, SEMAO | VAMVIDEO, VAMVIDEO | XLIXLI, XLIXLI => true
  | _, _ => false
  end.

(** A document of the [Pieces] collection; a field that the document
    lacks is [None]. *)
Record PiecesRecord := {
  p_id : string;
  title : option string;
  loi_title : option string;
  unzip_key : option string;
  open_key : option string
}.

(** [UnzipHistoryDao.save_history]: [insert_one] adds one document. *)
Definition save_history (_id : string) (src_path dst_path : Path) : M unit :=
  fun w =>
    (Ret tt,
     {| fs := fs w;
        history := history w ++ [{| h_id := _id;
                                    h_src_path := PathOps.to_str src_path;
                                    h_dst_path := PathOps.to_str dst_path |}];
        log := log w |}).

(** [UnzipHistoryDao.query_history_by_id]. *)
Definition query_history_by_id (h : list HistoryRecord) (_id : string)
  : option HistoryRecord :=
  find (fun r => String.eqb (h_id r) _id) h.

(** [UnzipHistoryDao.query_history_by_src_path]. *)
Definition query_history_by_src_path (h : list HistoryRecord) (src_path : Path)
  : option HistoryRecord :=
  find (fun r => String.eqb (h_src_path r) (PathOps.to_str src_path)) h.

(** [PiecesDao.query_pieces_by_id]. *)
Definition query_pieces_by_id (pieces : list PiecesRecord) (_id : string)
  : option PiecesRecord :=
  find (fun r => String.eqb (p_id r) _id) pieces.

(** [PiecesDao.query_pieces_unzip_key]. *)
Definition query_pieces_unzip_key (pieces : list PiecesRecord) (_id : string) : string :=
  match query_pieces_by_id pieces _id with
  | None => ""
  | Some r =>
      match unzip_key r with
      | Some k => k
      | None => match open_key r with Some k => k | None => "" end
      end
  end.

(* ================================================================== *)
(** ** Python [dict], in insertion order *)
(* ================================================================== *)

Module Dict.

Fixpoint get {V} (d : list (string * V)) (k : string) : option V :=
  match d with
  | [] => None
  | (k', v) :: d' => if String.eqb k' k then Some v else get d' k
  end.

(** [d[k] = v]: a key that is there keeps its place. *)
Fixpoint set {V} (d : list (string * V)) (k : string) (v : V) : list (string * V) :=
  match d with
  | [] => [(k, v)]
  | (k', v') :: d' => if String.eqb k' k then (k, v) :: d' else (k', v') :: set d' k v
  end.

End Dict.

(* ================================================================== *)
(** ** src/core/archive.py: extraction; src/core/unzip_service.py *)
(* ================================================================== *)

Record UnzipService := {
  db_type : DatabaseType;
  default_password : string;
  path_config : PathConfig;
  pieces_dao : list PiecesRecord     (* the documents behind [self.pieces_dao] *)
}.

(** [range(1, 999)]. *)
Definition part_numbers : list nat := seq 1 998.

(** [UnzipService._is_multipart_archive]. *)
Definition _is_multipart_archive (file_path : Path) : bool :=
  let file_name := Str.lower (PathOps.name file_path) in
  existsb (fun i => Str.endswith file_name (".7z." ++ Str.zfill 3 (Str.of_nat i))%string)
          part_numbers
  || existsb (fun i => Str.endswith file_name (".zip." ++ Str.zfill 3 (Str.of_nat i))%string)
             part_numbers
  || (Str.startswith file_name "part" && Str.endswith file_name ".rar")
  || Str.contains ".part" file_name.

(** [UnzipService._get_path_id]. *)
Definition _get_path_id (f : FS) (p : Path) : string :=
  if Fs.is_dir f p then PathOps.name p
  else Str.split_head "_" (PathOps.stem p).

(** [UnzipService._generate_folder_name]. *)
Definition _generate_folder_name (self : UnzipService) (_id : string) : string :=
  match query_pieces_by_id (pieces_dao self) _id with
  | None => _id
  | Some pieces =>
      let title_ :=
        match title pieces with
        | Some t => t
        | None => match loi_title pieces with Some t => t | None => "" end
        end in
      let folder_name := ("[" ++ _id ++ "] " ++ title_)%string in
      let folder_name := Str.replace "/" "_" folder_name in
      if Str.endswith folder_name "."
      then Str.take (String.length folder_name - 1) folder_name
      else folder_name
  end.

(** The [resolutions] dictionary of [_is_all_processed]. *)
Definition resolutions : list (string * string) :=
  [("1k", "1080"); ("1K", "1080"); ("1080", "1080");
   ("2k", "2k"); ("2K", "2k"); ("4k", "4k"); ("4K", "4k")].

(** [s.add(x)] on a set of strings kept as a list without repetition. *)
Definition set_add (x : string) (s : list string) : list string :=
  if existsb (String.eqb x) s then s else s ++ [x].

Definition set_subset (s t : list string) : bool :=
  forallb (fun x => existsb (String.eqb x) t) s.

Definition set_eqb (s t : list string) : bool :=
  set_subset s t && set_subset t s.

(** [UnzipService._is_all_processed]. *)
Definition _is_all_processed (self : UnzipService) (f : FS) (_id : string) : res bool :=
  if negb (DatabaseType_eqb (db_type self) VAMVIDEO) then Ok true
  else
    let folder_name := _generate_folder_name self _id in
    let folder_path := target_dir (path_config self) // folder_name in
    if negb (Fs.exists_ f folder_path) then Ok false
    else
      let required_resolutions :=
        fold_left (fun acc kv => if Str.contains (fst kv) folder_name
                                 then set_add (snd kv) acc else acc)
                  resolutions [] in
      if List.length required_resolutions <=? 1 then Ok true
      else
        match Fs.iterdir f folder_path with
        | Err e => Err e
        | Ok items =>
            let found_resolutions :=
              fold_left (fun acc item =>
                           fold_left (fun acc res =>
                                        if Str.contains res (PathOps.name item)
                                        then set_add res acc else acc)
                                     required_resolutions acc)
                        items [] in
            Ok (set_eqb found_resolutions required_resolutions)
        end.

(** [UnzipService._collect_archive_files]. *)
Definition _collect_archive_files (self : UnzipService)
  : M (list (string * list Path) * list (string * Path)) :=
  items <- fs_ask (fun f => Fs.iterdir f (source_dir (path_config self))) ;;
  for_fold items ([], [])
    (fun item acc =>
       let '(id_files, id_sources) := acc in
       f <- get_fs ;;
       h <- get_history ;;
       let _id := _get_path_id f item in
       skip <- (match query_history_by_src_path h item, query_history_by_id h _id with
                | None, None => ret false
                | _, _ => fs_ask (fun f => _is_all_processed self f _id)
                end) ;;
       if skip : bool then
         logger (LogSkippingProcessed item) ;;
         ret (id_files, id_sources)
       else
         ret (Dict.set id_files _id (if Fs.is_file f item then [item] else Fs.rglob f item),
              Dict.set id_sources _id item)).

(** [x or y] on strings. *)
Definition str_or (x y : string) : string := if String.eqb x "" then y else x.

(** [UnzipService._prepare_archive_info]. *)
Definition _prepare_archive_info (self : UnzipService) (f : FS) (_id : string)
           (files : list Path) : list (string * ArchiveInfo) :=
  fold_left
    (fun archives file_path =>
       let base_name := Str.split_head "." (PathOps.stem file_path) in
       match Dict.get archives base_name with
       | None =>
           let archive_type := detect_archive_type f file_path in
           if negb (ArchiveType_eqb archive_type UNKNOWN)
           then Dict.set archives base_name
                  {| path := file_path;
                     type := archive_type;
                     parts := [file_path];
                     password := str_or (query_pieces_unzip_key (pieces_dao self) _id)
                                        (default_password self) |}
           else archives
       | Some a =>
           Dict.set archives base_name
             {| path := path a; type := type a;
                parts := parts a ++ [file_path];
                password := password a |}
       end)
    (PathOps.sorted files) [].

Section Service.

(** The three codec libraries behind [extract_7z] (py7zr), [extract_zip]
    (pyzipper) and [extract_rar] (rarfile). *)
Variables extract_7z extract_zip extract_rar : codec.

(** The [extract_funcs] dictionary of [extract_archive]. *)
Definition extract_funcs (t : ArchiveType) : option codec :=
  match t with
  | SEVEN_ZIP => Some extract_7z
  | ZIP => Some extract_zip
  | RAR => Some extract_rar
  | UNKNOWN => None
  end.

(** [output_dir / f"merged{archive_info.path.suffix}"]. *)
Definition merged_path_of (archive_info : ArchiveInfo) (output_dir : Path) : Path :=
  output_dir // ("merged" ++ PathOps.suffix (path archive_info))%string.

(** The head of [extract_archive]: the output directory is made when
    it is not there. *)
Definition ensure_output_dir (output_dir : Path) : M unit :=
  f <- get_fs ;;
  when (negb (Fs.exists_ f output_dir)) (FileHelper.make_directory output_dir).

(** The first try of [extract_archive]: [true] when the direct
    extraction succeeded (the code returns there), [false] when it
    failed and the parts are to be merged; with at most one part the
    failure is raised again. *)
Definition direct_extraction (extract : codec) (archive_info : ArchiveInfo)
           (output_dir : Path) : M bool :=
  let archive_path :=
    if 1 <? List.length (parts archive_info)
    then nth 0 (parts archive_info) []
    else path archive_info in
  logger (LogUsingArchiveFile archive_path) ;;
  try_except
    (run_codec extract archive_path output_dir (password archive_info) ;;
     ret true)
    (fun e =>
       if List.length (parts archive_info) <=? 1 then raise e
       else logger LogDirectFailed ;; ret false).

(** The [finally] block of [extract_archive]. *)
Definition remove_merged (merged_path : Path) : M unit :=
  f <- get_fs ;;
  when (Fs.exists_ f merged_path)
       (logger (LogRemovingMerged merged_path) ;;
        fs_do (fun f => Fs.unlink f merged_path)).

(** The second try of [extract_archive]: the parts are merged and the
    merged file is unpacked. *)
Definition merged_extraction (extract : codec) (archive_info : ArchiveInfo)
           (output_dir : Path) : M unit :=
  logger LogMergingParts ;;
  let merged_path := merged_path_of archive_info output_dir in
  try_finally
    (FileHelper.merge_files (parts archive_info) merged_path ;;
     run_codec extract merged_path output_dir (password archive_info))
    (remove_merged merged_path).

(** [ArchiveHandler.extract_archive]. *)
Definition extract_archive (archive_info : ArchiveInfo) (output_dir : Path) : M unit :=
  ensure_output_dir output_dir ;;
  match extract_funcs (type archive_info) with
  | None => logger LogUnsupportedType
  | Some extract =>
      try_except
        (direct <- direct_extraction extract archive_info output_dir ;;
         if direct : bool then ret tt
         else merged_extraction extract archive_info output_dir)
        (fun e => logger (LogFailedExtract (path archive_info)) ;; raise e)
  end.

Variable self : UnzipService.

(** [UnzipService._extract_to_target_temp]. *)
Definition _extract_to_target_temp (archive : ArchiveInfo) (temp_path : Path) : M unit :=
  if negb (ArchiveType_eqb (type archive) UNKNOWN)
  then extract_archive archive temp_path
  else
    for_each (parts archive)
      (fun part =>
         try_except
           (if _is_multipart_archive part
            then logger (LogSkippingMultipart part)
            else fs_do (fun f => Fs.copy2 f part temp_path) ;;
                 logger (LogCopied part temp_path))
           (fun _ => logger (LogFailedCopy part))).

(** [if p.exists(): p.unlink() if p.is_file() else shutil.rmtree(p)]. *)
Definition remove_existing (p : Path) : M unit :=
  f <- get_fs ;;
  when (Fs.exists_ f p)
       (if Fs.is_file f p
        then fs_do (fun f => Fs.unlink f p)
        else fs_do (fun f => Fs.rmtree f p)).

(** [UnzipService._move_archives_to_zip_temp]. *)
Definition _move_archives_to_zip_temp (temp_path : Path) (_id : string) : M unit :=
  f0 <- get_fs ;;
  for_each (FileHelper.get_file_list f0 temp_path)
    (fun file_path =>
       f <- get_fs ;;
       when (negb (ArchiveType_eqb (detect_archive_type f file_path) UNKNOWN)
             || _is_multipart_archive file_path)
            (let rel_path := PathOps.relative_to temp_path file_path in
             let dst_path :=
               (unzip_temp_dir (path_config self) // _generate_folder_name self _id)
                 ++ PathOps.parent rel_path in
             remove_existing dst_path ;;
             fs_do (fun f => Fs.mkdir_p f dst_path) ;;
             let target_file := dst_path // PathOps.name file_path in
             remove_existing target_file ;;
             fs_do (fun f => Fs.move f file_path target_file))).

(** [file_name[:file_name.rindex(sub)]]. *)
Definition up_to_rindex (sub file_name : string) : M string :=
  match Str.rfind sub file_name with
  | Some i => ret (Str.take i file_name)
  | None => raise ValueError
  end.

(** [file_name[:file_name.index(sub)]]. *)
Definition up_to_index (sub file_name : string) : M string :=
  match Str.find sub file_name with
  | Some i => ret (Str.take i file_name)
  | None => raise ValueError
  end.

(** The test of the list comprehension of [_collect_multipart_archive]. *)
Definition is_part_of (base_name : string) (f : Path) : bool :=
  let n := Str.lower (PathOps.name f) in
  (Str.startswith n (base_name ++ ".7z.")%string
   || Str.startswith n (base_name ++ ".zip.")%string
   || Str.startswith n (base_name ++ ".part")%string
   || (Str.startswith n base_name && Str.contains ".part" n))
  && _is_multipart_archive f.

(** [UnzipService._collect_multipart_archive]. *)
Definition _collect_multipart_archive (file_path : Path) : M (list Path) :=
  let file_name := Str.lower (PathOps.name file_path) in
  base_name <-
    (if Str.contains ".7z." file_name then up_to_rindex ".7z." file_name
     else if Str.contains ".zip." file_name then up_to_rindex ".zip." file_name
     else if Str.contains ".part" file_name && Str.endswith file_name ".rar"
          then up_to_index ".part" file_name
          else up_to_rindex ".part" file_name) ;;
  let parent_dir := PathOps.parent file_path in
  entries <- fs_ask (fun f => Fs.iterdir f parent_dir) ;;
  ret (PathOps.sorted (filter (is_part_of base_name) entries)).

(** The fragments of the unit that [_process_unzip_temp_archives] builds
    for [file_path]. *)
Definition collect_fragments (file_path : Path) : M (list Path) :=
  if _is_multipart_archive file_path
  then _collect_multipart_archive file_path
  else ret [file_path].

(** One pass of the [for] loop of [_process_unzip_temp_archives] over
    [file_path]; the result is the new value of [has_archives]. *)
Definition process_temp_file (_id : string) (file_path : Path) (has_archives : bool)
  : M bool :=
  f <- get_fs ;;
  let archive_type := detect_archive_type f file_path in
  if negb (ArchiveType_eqb archive_type UNKNOWN) then
    logger (LogProcessingArchive file_path) ;;
    parts_ <- collect_fragments file_path ;;
    let archive :=
      {| path := file_path; type := archive_type; parts := parts_;
         password := str_or (query_pieces_unzip_key (pieces_dao self) _id)
                            (default_password self) |} in
    let temp_path := target_temp_dir (path_config self) // _generate_folder_name self _id in
    fs_do (fun f => Fs.mkdir_p f temp_path) ;;
    try_except
      (extract_archive archive temp_path ;;
       for_each (parts archive) (fun part => fs_do (fun f => Fs.unlink f part)) ;;
       _move_archives_to_zip_temp temp_path _id)
      (fun _ => logger (LogFailedExtract file_path)) ;;
    ret true
  else ret has_archives.

(** [UnzipService._process_unzip_temp_archives]; [fuel] bounds the
    number of rounds of [while True]. *)
Fixpoint _process_unzip_temp_archives (fuel : nat) (_id : string) : M unit :=
  match fuel with
  | O => fun w => (Timeout, w)
  | S fuel' =>
      f <- get_fs ;;
      let temp1_path := unzip_temp_dir (path_config self) // _generate_folder_name self _id in
      if negb (Fs.exists_ f temp1_path) || negb (FileHelper.contains_files f temp1_path)
      then ret tt
      else
        has_archives <- for_fold (FileHelper.get_file_list f temp1_path) false
                          (process_temp_file _id) ;;
        if negb has_archives then ret tt
        else _process_unzip_temp_archives fuel' _id
  end.

(** Where [_move_to_target] puts [item], an entry of [temp3_path]. *)
Definition target_item_of (temp3_path dst_path item : Path) : Path :=
  let skip_levels := skip_parent_levels (move_config (path_config self)) in
  if 0 <? skip_levels then
    let rel_path := PathOps.relative_to temp3_path item in
    if skip_levels <? List.length rel_path
    then dst_path ++ skipn skip_levels rel_path
    else dst_path // PathOps.name item
  else dst_path ++ PathOps.relative_to temp3_path item.

(** The [dst_path] of [_move_to_target]. *)
Definition dst_path_of (_id : string) : Path :=
  if 0 <? skip_parent_levels (move_config (path_config self))
  then target_dir (path_config self)
  else target_dir (path_config self) // _generate_folder_name self _id.

(** The body of the [for] loop of [_move_to_target]. *)
Definition move_item (temp3_path dst_path item : Path) : M unit :=
  let target_item := target_item_of temp3_path dst_path item in
  f <- get_fs ;;
  when (Fs.exists_ f target_item)
       (fs_do (fun f => Fs.rmtree f target_item)) ;;
  fs_do (fun f => Fs.mkdir_p f (PathOps.parent target_item)) ;;
  try_except
    (fs_do (fun f => Fs.move f item target_item) ;;
     logger (LogMoved item target_item))
    (fun e => raise e).

(** What [_move_to_target] does to the target before the loop. *)
Definition clear_target (dst_path : Path) : M unit :=
  f <- get_fs ;;
  when (Fs.exists_ f dst_path)
       (logger (LogRemovingTarget dst_path) ;;
        fs_do (fun f => Fs.rmtree f dst_path)) ;;
  fs_do (fun f => Fs.mkdir_p f dst_path).

(** [UnzipService._move_to_target]. *)
Definition _move_to_target (temp3_path : Path) (_id : string) (source_path : Path)
  : M unit :=
  f <- get_fs ;;
  if negb (FileHelper.contains_files f temp3_path)
  then logger (LogNoFilesToMove temp3_path)
  else
    let dst_path := dst_path_of _id in
    clear_target dst_path ;;
    items <- fs_ask (fun f => Fs.iterdir f temp3_path) ;;
    for_each items (move_item temp3_path dst_path) ;;
    save_history _id source_path dst_path.

(** [UnzipService._process_single_id]. *)
Definition _process_single_id (fuel : nat) (_id : string) (files : list Path)
           (source_path : Path) : M unit :=
  try_except
    (f <- get_fs ;;
     let archives := _prepare_archive_info self f _id files in
     for_each archives
       (fun kv =>
          let archive := snd kv in
          let temp_path := target_temp_dir (path_config self) // _generate_folder_name self _id in
          FileHelper.make_directory temp_path ;;
          _extract_to_target_temp archive temp_path ;;
          f <- get_fs ;;
          when (FileHelper.contains_files f temp_path)
               (_move_archives_to_zip_temp temp_path _id)) ;;
     _process_unzip_temp_archives fuel _id ;;
     let temp3_path := target_temp_dir (path_config self) // _generate_folder_name self _id in
     _move_to_target temp3_path _id source_path)
    (fun e => raise e).

(** The first loop of [process_archives]: both staging roots are wiped
    and made anew. *)
Definition prepare_temp_dirs : M unit :=
  for_each [unzip_temp_dir (path_config self); target_temp_dir (path_config self)]
    (fun temp_dir =>
       try_except (fs_do (fun f => Fs.rmtree f temp_dir)) (fun _ => ret tt) ;;
       fs_do (fun f => Fs.mkdir_p f temp_dir)).

(** [UnzipService.process_archives]. *)
Definition process_archives (fuel : nat) : M unit :=
  prepare_temp_dirs ;;
  collected <- _collect_archive_files self ;;
  let '(id_files, id_sources) := collected in
  for_each id_files
    (fun kv =>
       let '(_id, files) := kv in
       try_except
         (match Dict.get id_sources _id with
          | Some src => _process_single_id fuel _id files src
          | None => raise OSError    (* KeyError; the two dictionaries share their keys *)
          end)
         (fun _ => logger (LogFailedId _id))).

End Service.

(* ================================================================== *)
(** ** The header sniffer in the words of the specification *)
(* ================================================================== *)

Module Sniffer.

Definition magic_7z : list byte := [x37; x7a; xbc; xaf; x27; x1c].
Definition magic_zip : list byte := [x50; x4b; x03].
Definition magic_rar : list byte := [x52; x61; x72].

(** The ordered list of known magic sequences. *)
Definition magics : list (list byte * ArchiveType) :=
  [(magic_7z, SEVEN_ZIP); (magic_zip, ZIP); (magic_rar, RAR)].

(** [c] begins with the bytes [m]. *)
Fixpoint starts_with (m c : list byte) : bool :=
  match m, c with
  | [], _ => true
  | a :: m', b :: c' => Byte.eqb a b && starts_with m' c'
  | _ :: _, [] => false
  end.

(** The first magic of [ms] that [c] begins with decides; none gives
    [UNKNOWN]. *)
Fixpoint first_match (ms : list (list byte * ArchiveType)) (c : list byte)
  : ArchiveType :=
  match ms with
  | [] => UNKNOWN
  | (m, t) :: ms' => if starts_with m c then t else first_match ms' c
  end.

(** [classify]: a fixed prefix is read and matched; a file that cannot
    be read is [UNKNOWN]. *)
Definition classify (f : FS) (p : Path) : ArchiveType :=
  match Fs.read f p with
  | Err _ => UNKNOWN
  | Ok d => first_match magics (firstn ArchiveConfig.HEADER_BYTES d)
  end.

(** The value of a hex digit. *)
Definition nibble (c : ascii) : nat :=
  let n := nat_of_ascii c in
  if n <? 58 then n - 48 else n - 87.

End Sniffer.

(* ================================================================== *)
(** ** What a call added to the log *)
(* ================================================================== *)

(** The lines that the run from [w] to [w'] wrote. *)
Definition new_log (w w' : world) : list log_msg :=
  skipn (List.length (log w)) (log w').

(** [w] with the file system [f] and [extra] lines more in the log. *)
Definition with_log (w : world) (f : FS) (extra : list log_msg) : world :=
  {| fs := f; history := history w; log := log w ++ extra |}.

(** The archive that the first try of [extract_archive] hands to the
    codec. *)
Definition first_archive_path (a : ArchiveInfo) : Path :=
  if 1 <? List.length (parts a) then nth 0 (parts a) [] else path a.

(** A call that leaves the history collection as it found it. *)
Definition keeps_history {A} (m : M A) : Prop :=
  forall w, history (snd (m w)) = history w.

(** A call that adds to the history collection the document [doc], when
    it returns, or nothing. *)
Definition adds_at_most {A} (doc : HistoryRecord) (m : M A) : Prop :=
  forall w,
    history (snd (m w)) = history w \/
    (exists a, fst (m w) = Ret a) /\ history (snd (m w)) = history w ++ [doc].

(** A call that touches nothing but the file system. *)
Definition fs_only {A} (m : M A) : Prop :=
  forall w, history (snd (m w)) = history w /\ log (snd (m w)) = log w.

(** A call that only adds lines to the log. *)
Definition log_grows {A} (m : M A) : Prop :=
  forall w, exists extra, log (snd (m w)) = log w ++ extra.

(** A call that comes back, with a value or an exception. *)
Definition returns {A} (m : M A) : Prop :=
  forall w, fst (m w) <> Timeout.

(* ================================================================== *)
(** ** Sample worlds *)
(* ================================================================== *)

Module Sample.

(** A codec that unpacks nothing: every archive is corrupt. *)
Definition corrupt : codec := fun _ _ _ f => (f, Some CodecError).

(** A codec that cannot follow part files: it unpacks an archive whose
    name begins with [merged] to the one file [payload.txt] and fails on
    every other. *)
Definition merged_only : codec :=
  fun archive_path output_dir _ f =>
    if Str.startswith (PathOps.name archive_path) "merged"
    then match Fs.write f (output_dir // "payload.txt") [x68; x69] with
         | Ok f' => (f', None)
         | Err e => (f, Some e)
         end
    else (f, Some CodecError).

Definition empty_world (f : FS) : world :=
  {| fs := f; history := []; log := [] |}.

(** A 7-zip archive in two parts, in [/in], to be unpacked to [/out]. *)
Definition two_parts : ArchiveInfo :=
  {| path := ["in"; "a.7z.001"];
     type := SEVEN_ZIP;
     parts := [["in"; "a.7z.001"]; ["in"; "a.7z.002"]];
     password := "" |}.

Definition two_parts_fs : FS :=
  [ (["in"], Dir);
    (["in"; "a.7z.001"], File (Sniffer.magic_7z ++ [x01]));
    (["in"; "a.7z.002"], File [x02]);
    (["out"], Dir) ].

(** A Zip archive in one file. *)
Definition one_part : ArchiveInfo :=
  {| path := ["in"; "b.zip"];
     type := ZIP;
     parts := [["in"; "b.zip"]];
     password := "secret" |}.

Definition one_part_fs : FS :=
  [ (["in"], Dir);
    (["in"; "b.zip"], File (Sniffer.magic_zip ++ [x04]));
    (["out"], Dir) ].

(** The service: the four roots are [/src], [/temp1] (inbound staging),
    [/temp3] (outbound staging) and [/target]; no item has a [Pieces]
    document, so the folder of an item is named by its id. *)
Definition service (db : DatabaseType) (skip : nat) : UnzipService :=
  {| db_type := db;
     default_password := "y";
     path_config :=
       {| source_dir := ["src"];
          unzip_temp_dir := ["temp1"];
          target_temp_dir := ["temp3"];
          target_dir := ["target"];
          move_config := {| skip_parent_levels := skip |} |};
     pieces_dao := [] |}.

(** A codec that unpacks every archive to the one file [file.txt]. *)
Definition unpack : codec :=
  fun _ output_dir _ f =>
    match Fs.write f (output_dir // "file.txt") [x68; x69] with
    | Ok f' => (f', None)
    | Err e => (f, Some e)
    end.

(** Outbound staging of the item [X] holds [outer/inner/file.txt]; the
    target root holds what an earlier item left there. *)
Definition staged_fs : FS :=
  [ (["temp3"], Dir);
    (["temp3"; "X"], Dir);
    (["temp3"; "X"; "outer"], Dir);
    (["temp3"; "X"; "outer"; "inner"], Dir);
    (["temp3"; "X"; "outer"; "inner"; "file.txt"], File [x68; x69]);
    (["target"], Dir);
    (["target"; "earlier"], Dir);
    (["target"; "earlier"; "old.txt"], File [x6f]) ].

(** The source item [X] is a folder with one plain text file. *)
Definition plain_fs : FS :=
  [ (["src"], Dir);
    (["src"; "X"], Dir);
    (["src"; "X"; "notes.txt"], File [x68; x69]);
    (["temp1"], Dir);
    (["temp3"], Dir);
    (["target"], Dir) ].

(** Inbound staging of the item [X] holds one Zip file. *)
Definition inbound_fs : FS :=
  [ (["temp1"], Dir);
    (["temp1"; "X"], Dir);
    (["temp1"; "X"; "inner.zip"], File (Sniffer.magic_zip ++ [x04]));
    (["temp3"], Dir);
    (["temp3"; "X"], Dir);
    (["target"], Dir) ].

(** The four lines that one round over the corrupt [inner.zip] logs. *)
Definition failed_round (l : list log_msg) : list log_msg :=
  (((l ++ [LogProcessingArchive ["temp1"; "X"; "inner.zip"]])
      ++ [LogUsingArchiveFile ["temp1"; "X"; "inner.zip"]])
     ++ [LogFailedExtract ["temp1"; "X"; "inner.zip"]])
    ++ [LogFailedExtract ["temp1"; "X"; "inner.zip"]].

(** The loop of [_process_unzip_temp_archives] with a codec that
    unpacks nothing. *)
Definition corrupt_rounds : nat -> string -> M unit :=
  _process_unzip_temp_archives corrupt corrupt corrupt (service LOIBUS 0).

(** The world of [inbound_fs] with the history [h] and the log [l]. *)
Definition inbound_world (h : list HistoryRecord) (l : list log_msg) : world :=
  {| fs := inbound_fs; history := h; log := l |}.

(** Inbound staging of the item [X] holds two Rar volumes named
    [part1.rar] and [part2.rar]. *)
Definition part_rar_fs : FS :=
  [ (["temp1"], Dir);
    (["temp1"; "X"], Dir);
    (["temp1"; "X"; "part1.rar"], File (Sniffer.magic_rar ++ [x21]));
    (["temp1"; "X"; "part2.rar"], File (Sniffer.magic_rar ++ [x21]));
    (["temp3"], Dir);
    (["target"], Dir) ].

(** The source root holds the one archive [A.zip]. *)
Definition source_fs : FS :=
  [ (["src"], Dir);
    (["src"; "A.zip"], File (Sniffer.magic_zip ++ [x04]));
    (["target"], Dir) ].

(** The source root holds the one archive [pack1k4k.zip], whose name
    asks for the resolutions 1080 and 4k. *)
Definition video_fs : FS :=
  [ (["src"], Dir);
    (["src"; "pack1k4k.zip"], File (Sniffer.magic_zip ++ [x04]));
    (["target"], Dir) ].

End Sample.

(* ================================================================== *)
(** ** Predicates of the statements *)
(* ================================================================== *)

(** The history collection has a document for the source entry [item],
    by its path or by its id. *)
Definition recorded (h : list HistoryRecord) (f : FS) (item : Path) : Prop :=
  query_history_by_src_path h item <> None \/
  query_history_by_id h (_get_path_id f item) <> None.




(** [p <= q] for paths. *)
Definition path_le (p q : Path) : Prop := PathOps.leb p q = true.

(** The lower-cased name of [file_path] has one of the three marks by
    which [_collect_multipart_archive] finds the base name. *)
Definition has_part_mark (file_path : Path) : bool :=
  let file_name := Str.lower (PathOps.name file_path) in
  Str.contains ".7z." file_name || Str.contains ".zip." file_name
  || Str.contains ".part" file_name.

(** A file name that [Path.__truediv__] keeps as a segment. *)
Definition proper_name (s : string) : Prop := s <> "" /\ s <> ".".

(** Every entry of the directory [temp3] in [f0], with all that [f0] has at
    or below it, is in [f] at the same place below [dst]. *)
Definition arrived (temp3 dst : Path) (f0 f : FS) : Prop :=
  forall item m rest n,
    PathOps.child_of temp3 item = true ->
    In (item, m) f0 ->
    In (item ++ rest, n) f0 ->
    In ((dst ++ [PathOps.name item]) ++ rest, n) f.

(** What the loop of [_move_to_target] has done when the entries [done]
    of [temp3] are behind it; [f1] is the file system at the start of the
    loop.  What was at or below an entry behind us is at its place below
    [dst]; what was below [temp3] and is not behind us is still there;
    nothing is left at or below an entry behind us. *)
Definition arrival_inv (temp3 dst : Path) (f1 : FS) (done : list Path) (f : FS) : Prop :=
  (forall item rest n,
      In item done -> In (item ++ rest, n) f1 ->
      In ((dst ++ [PathOps.name item]) ++ rest, n) f) /\
  (forall p n,
      PathOps.is_prefix temp3 p = true -> In (p, n) f1 ->
      (exists item, In item done /\ PathOps.is_prefix item p = true) \/ In (p, n) f) /\
  (forall item q n,
      In item done -> PathOps.is_prefix item q = true -> ~ In (q, n) f) /\
  (forall item, In item done -> PathOps.child_of temp3 item = true).

(* ================================================================== *)
(** ** More of src/core/unzip_service.py and src/utils/file_helper.py *)
(* ================================================================== *)

(** [shutil.rmtree(item)] for a directory, [item.unlink()] for anything
    else: the two branches of both loops of [cleanup]. *)
Definition remove_item (item : Path) : M unit :=
  f <- get_fs ;;
  if Fs.is_dir f item
  then fs_do (fun f => Fs.rmtree f item)
  else fs_do (fun f => Fs.unlink f item).

(** The test of the first loop of [cleanup]:
    [query_history_by_id(_id) and _is_all_processed(_id)]. *)
Definition is_processed (self : UnzipService) (item : Path) : M bool :=
  f <- get_fs ;;
  h <- get_history ;;
  let _id := _get_path_id f item in
  match query_history_by_id h _id with
  | None => ret false
  | Some _ => fs_ask (fun f => _is_all_processed self f _id)
  end.

(** The test of the second loop of [cleanup]:
    ['[' not in item.name and ']' not in item.name]. *)
Definition is_invalid_target (item : Path) : bool :=
  negb (Str.contains "[" (PathOps.name item))
  && negb (Str.contains "]" (PathOps.name item)).

(** The first loop of [cleanup], over the entries of the source root. *)
Definition cleanup_source (self : UnzipService) : M unit :=
  items <- fs_ask (fun f => Fs.iterdir f (source_dir (path_config self))) ;;
  for_each items
    (fun item =>
       processed <- is_processed self item ;;
       when processed (remove_item item)).

(** The second loop of [cleanup], over the entries of the target root. *)
Definition cleanup_target (self : UnzipService) : M unit :=
  items <- fs_ask (fun f => Fs.iterdir f (target_dir (path_config self))) ;;
  for_each items
    (fun item => when (is_invalid_target item) (remove_item item)).

(** [UnzipService.cleanup] (its log lines are left out). *)
Definition cleanup (self : UnzipService) : M unit :=
  cleanup_source self ;;
  cleanup_target self.

(** The body of the loop of [_move_archives_to_zip_temp], for one file of
    the outbound staging directory. *)
Definition move_archive_to_zip_temp (self : UnzipService) (temp_path : Path)
           (_id : string) (file_path : Path) : M unit :=
  f <- get_fs ;;
  when (negb (ArchiveType_eqb (detect_archive_type f file_path) UNKNOWN)
        || _is_multipart_archive file_path)
       (let rel_path := PathOps.relative_to temp_path file_path in
        let dst_path :=
          (unzip_temp_dir (path_config self) // _generate_folder_name self _id)
            ++ PathOps.parent rel_path in
        remove_existing dst_path ;;
        fs_do (fun f => Fs.mkdir_p f dst_path) ;;
        let target_file := dst_path // PathOps.name file_path in
        remove_existing target_file ;;
        fs_do (fun f => Fs.move f file_path target_file)).

(** Where [_move_archives_to_zip_temp] puts the file [file_path] of
    [temp_path]: the directory and the file. *)
Definition zip_temp_dir_of (self : UnzipService) (temp_path : Path) (_id : string)
           (file_path : Path) : Path :=
  (unzip_temp_dir (path_config self) // _generate_folder_name self _id)
    ++ PathOps.parent (PathOps.relative_to temp_path file_path).

(** The key under which [_prepare_archive_info] files [file_path]:
    [file_path.stem.split('.')[0]]. *)
Definition base_name_of (file_path : Path) : string :=
  Str.split_head "." (PathOps.stem file_path).

(** The bytes of the file at [p], nothing when there is no file. *)
Definition content_of (f : FS) (p : Path) : list byte :=
  match Fs.read f p with
  | Ok d => d
  | Err _ => []
  end.

(** If anything is strictly below [d], then [d] is a directory. *)
Definition rooted_at (f : FS) (d : Path) : Prop :=
  forall p n, In (p, n) f -> PathOps.below d p = true -> Fs.is_dir f d = true.

(** Nothing is strictly below [d]. *)
Definition empty_below (f : FS) (d : Path) : Prop :=
  forall p n, In (p, n) f -> PathOps.below d p = false.

(** The body of the [for] loop of [_prepare_archive_info]. *)
Definition file_into_units (self : UnzipService) (f : FS) (_id : string)
           (archives : list (string * ArchiveInfo)) (file_path : Path)
  : list (string * ArchiveInfo) :=
  let base_name := Str.split_head "." (PathOps.stem file_path) in
  match Dict.get archives base_name with
  | None =>
      let archive_type := detect_archive_type f file_path in
      if negb (ArchiveType_eqb archive_type UNKNOWN)
      then Dict.set archives base_name
             {| path := file_path;
                type := archive_type;
                parts := [file_path];
                password := str_or (query_pieces_unzip_key (pieces_dao self) _id)
                                   (default_password self) |}
      else archives
  | Some a =>
      Dict.set archives base_name
        {| path := path a; type := type a;
           parts := parts a ++ [file_path];
           password := password a |}
  end.

(** The body of the [for] loop of [_collect_archive_files]. *)
Definition collect_item (self : UnzipService) (item : Path)
           (acc : list (string * list Path) * list (string * Path))
  : M (list (string * list Path) * list (string * Path)) :=
  let '(id_files, id_sources) := acc in
  f <- get_fs ;;
  h <- get_history ;;
  let _id := _get_path_id f item in
  skip <- (match query_history_by_src_path h item, query_history_by_id h _id with
           | None, None => ret false
           | _, _ => fs_ask (fun f => _is_all_processed self f _id)
           end) ;;
  if skip : bool then
    logger (LogSkippingProcessed item) ;;
    ret (id_files, id_sources)
  else
    ret (Dict.set id_files _id (if Fs.is_file f item then [item] else Fs.rglob f item),
         Dict.set id_sources _id item).

(** The files that [_collect_archive_files] lists for the source entry
    [item]. *)
Definition files_of (f : FS) (item : Path) : list Path :=
  if Fs.is_file f item then [item] else Fs.rglob f item.

(** ** Where a substring occurs *)

(** [sub] occurs in [s] at the index [i]: [s[i:i+len(sub)] == sub]. *)
Definition occurs_at (sub s : string) (i : nat) : Prop :=
  i + String.length sub <= String.length s /\
  String.substring i (String.length sub) s = sub.

Definition occurs (sub s : string) : Prop := exists i, occurs_at sub s i.

(** [i] is the index of the first occurrence, what [s.index(sub)] gives. *)
Definition first_at (sub s : string) (i : nat) : Prop :=
  occurs_at sub s i /\ forall j, occurs_at sub s j -> i <= j.

(** [i] is the index of the last occurrence, what [s.rindex(sub)] gives. *)
Definition last_at (sub s : string) (i : nat) : Prop :=
  occurs_at sub s i /\ forall j, occurs_at sub s j -> j <= i.

(** [base] is the base name of the lower-cased part name [n]: what
    comes before the last [.7z.]; without one, before the last [.zip.];
    without either, before the first [.part] of a name that ends in
    [.rar], and before the last [.part] of any other name. *)
Definition is_base_name (n base : string) : Prop :=
  exists i,
    base = Str.take i n /\
    (last_at ".7z." n i
     \/ (~ occurs ".7z." n /\ last_at ".zip." n i)
     \/ (~ occurs ".7z." n /\ ~ occurs ".zip." n /\
         Str.endswith n ".rar" = true /\ first_at ".part" n i)
     \/ (~ occurs ".7z." n /\ ~ occurs ".zip." n /\
         Str.endswith n ".rar" = false /\ last_at ".part" n i)).

(** Every character of [s] is an ASCII character; on such a string
    [Str.lower] is Python's [str.lower]. *)
Fixpoint ascii_only (s : string) : bool :=
  match s with
  | EmptyString => true
  | String c s' => (nat_of_ascii c <? 128) && ascii_only s'
  end.

(* ================================================================== *)
(** ** More sample worlds *)
(* ================================================================== *)

Module Sample2.

(** The target root after two items: one folder named with brackets, one
    named by a bare id, and a stray file. *)
Definition target_fs : FS :=
  [ (["src"], Dir);
    (["target"], Dir);
    (["target"; "[A] title"], Dir);
    (["target"; "[A] title"; "file.txt"], File [x68; x69]);
    (["target"; "B"], Dir);
    (["target"; "B"; "file.txt"], File [x68; x69]);
    (["target"; "stray.txt"], File [x6f]) ].

(** Outbound staging of [X] holds two archives in one directory; inbound
    staging of [X] holds an archive moved there before. *)
Definition two_archives_fs : FS :=
  [ (["temp1"], Dir);
    (["temp1"; "X"], Dir);
    (["temp1"; "X"; "earlier.zip"], File (Sniffer.magic_zip ++ [x04]));
    (["temp3"], Dir);
    (["temp3"; "X"], Dir);
    (["temp3"; "X"; "a.zip"], File (Sniffer.magic_zip ++ [x04]));
    (["temp3"; "X"; "b.zip"], File (Sniffer.magic_zip ++ [x05])) ].

(** A service whose [Pieces] collection knows the item [A]. *)
Definition service_with_pieces : UnzipService :=
  {| db_type := LOIBUS;
     default_password := "y";
     path_config := path_config (Sample.service LOIBUS 0);
     pieces_dao := [ {| p_id := "A"; title := Some "a/b title."; loi_title := None;
                        unzip_key := Some "x"; open_key := None |} ] |}.

(** A source folder with an archive, a part file and a plain file that
    share the base name [a]. *)
Definition group_fs : FS :=
  [ (["src"], Dir);
    (["src"; "X"], Dir);
    (["src"; "X"; "a.zip"], File (Sniffer.magic_zip ++ [x04]));
    (["src"; "X"; "a.zip.001"], File [x01]);
    (["src"; "X"; "a.txt"], File [x68; x69]) ].

(** Inbound staging of [X] holds one text file. *)
Definition unpacked_fs : FS :=
  [ (["temp1"], Dir);
    (["temp1"; "X"], Dir);
    (["temp1"; "X"; "notes.txt"], File [x68; x69]);
    (["temp3"], Dir) ].

(** The source folder [X] holds a text file next to an archive. *)
Definition mixed_fs : FS :=
  [ (["src"], Dir);
    (["src"; "X"], Dir);
    (["src"; "X"; "notes.txt"], File [x68; x69]);
    (["src"; "X"; "a.zip"], File (Sniffer.magic_zip ++ [x04]));
    (["target"], Dir) ].

(** A service whose [Pieces] collection knows the item [X]. *)
Definition service_for_X : UnzipService :=
  {| db_type := LOIBUS;
     default_password := "y";
     path_config := path_config (Sample.service LOIBUS 0);
     pieces_dao := [ {| p_id := "X"; title := Some "title"; loi_title := None;
                        unzip_key := None; open_key := None |} ] |}.

(** The parts of an archive whose name holds [.7z.] twice, next to a
    part of another archive. *)
Definition nested_name_fs : FS :=
  [ (["in"], Dir);
    (["in"; "a.7z.b.7z.002"], File [x02]);
    (["in"; "a.7z.b.7z.001"], File (Sniffer.magic_7z ++ [x01]));
    (["in"; "a.7z.001"], File (Sniffer.magic_7z ++ [x03])) ].

End Sample2.

(* ================================================================== *)
(** * Properties *)
(* ================================================================== *)

(** ** The header sniffer *)

Module SnifferFacts.
Import Sniffer.

Lemma unhex_digits (b : byte) :
  Byte.of_nat (16 * nibble (Hex.digit (Byte.to_nat b / 16))
               + nibble (Hex.digit (Byte.to_nat b mod 16))) = Some b.
Proof. destruct b; reflexivity. Qed.

Lemma digits_inj (a b : byte) :
  Hex.digit (Byte.to_nat a / 16) = Hex.digit (Byte.to_nat b / 16) ->
  Hex.digit (Byte.to_nat a mod 16) = Hex.digit (Byte.to_nat b mod 16) ->
  a = b.
Proof.
  intros H1 H2.
  pose proof (unhex_digits a) as Ha.
  pose proof (unhex_digits b) as Hb.
  rewrite H1, H2 in Ha. congruence.
Qed.

Lemma byte_eqb_refl (a : byte) : Byte.eqb a a = true.
Proof. apply Byte.byte_dec_lb. reflexivity. Qed.

Lemma byte_eqb_false (a b : byte) : a <> b -> Byte.eqb a b = false.
Proof.
  intros H. destruct (Byte.eqb a b) eqn:E; [|reflexivity].
  apply Byte.byte_dec_bl in E. contradiction.
Qed.

(** On hex strings [startswith] is [starts_with] on the bytes. *)
Lemma prefix_b2a_hex (m c : list byte) :
  String.prefix (Hex.b2a_hex m) (Hex.b2a_hex c) = starts_with m c.
Proof.
  revert c. induction m as [|a m IH]; intros [|b c]; try reflexivity.
  cbn [Hex.b2a_hex String.prefix starts_with].
  destruct (ascii_dec (Hex.digit (Byte.to_nat a / 16))
                      (Hex.digit (Byte.to_nat b / 16))) as [E1|N1].
  - destruct (ascii_dec (Hex.digit (Byte.to_nat a mod 16))
                        (Hex.digit (Byte.to_nat b mod 16))) as [E2|N2].
    + rewrite (digits_inj a b E1 E2), byte_eqb_refl. apply IH.
    + rewrite byte_eqb_false; [reflexivity|]. intros ->. now apply N2.
  - rewrite byte_eqb_false; [reflexivity|]. intros ->. now apply N1.
Qed.

Lemma starts_with_firstn (n : nat) (m c : list byte) :
  List.length m <= n -> starts_with m (firstn n c) = starts_with m c.
Proof.
  revert n c. induction m as [|a m IH]; intros n c Hn; [reflexivity|].
  destruct n as [|n]; [simpl in Hn; lia|].
  destruct c as [|b c]; [reflexivity|].
  simpl. rewrite IH by (simpl in Hn; lia). reflexivity.
Qed.

Lemma starts_with_app (m rest : list byte) : starts_with m (m ++ rest) = true.
Proof.
  induction m as [|a m IH]; [reflexivity|].
  simpl. now rewrite byte_eqb_refl.
Qed.

(** A sequence cut short of [m] does not begin with [m]. *)
Lemma starts_with_truncated (m d tail : list byte) :
  m = d ++ tail -> tail <> [] -> starts_with m d = false.
Proof.
  intros -> Ht. induction d as [|a d IH]; simpl.
  - destruct tail; [contradiction|reflexivity].
  - now rewrite byte_eqb_refl.
Qed.

Lemma b2a_hex_empty (d : list byte) :
  String.eqb (Hex.b2a_hex d) "" = true -> d = [].
Proof. destruct d; [reflexivity|discriminate]. Qed.

(** The code of [detect_archive_type], on bytes. *)
Lemma detect_read_ok (f : FS) (p : Path) (d : list byte) :
  Fs.read f p = Ok d ->
  detect_archive_type f p = first_match magics (firstn ArchiveConfig.HEADER_BYTES d).
Proof.
  intros Hr. unfold detect_archive_type, FileHelper.get_file_header. rewrite Hr.
  destruct (String.eqb _ "") eqn:E.
  - apply b2a_hex_empty in E. rewrite E. reflexivity.
  - unfold Str.startswith.
    change ArchiveConfig.SEVEN_ZIP_HEADER with (Hex.b2a_hex magic_7z).
    change ArchiveConfig.ZIP_HEADER with (Hex.b2a_hex magic_zip).
    change ArchiveConfig.RAR_HEADER with (Hex.b2a_hex magic_rar).
    rewrite !prefix_b2a_hex. reflexivity.
Qed.

Lemma detect_read_err (f : FS) (p : Path) (e : exn) :
  Fs.read f p = Err e -> detect_archive_type f p = UNKNOWN.
Proof.
  intros Hr. unfold detect_archive_type, FileHelper.get_file_header.
  now rewrite Hr.
Qed.

Lemma first_match_firstn (c : list byte) :
  first_match magics (firstn ArchiveConfig.HEADER_BYTES c) = first_match magics c.
Proof.
  unfold magics, first_match.
  rewrite !starts_with_firstn; [reflexivity|..];
    unfold ArchiveConfig.HEADER_BYTES; simpl; lia.
Qed.

Lemma first_match_none (c : list byte) :
  (forall m t, In (m, t) magics -> starts_with m c = false) ->
  first_match magics c = UNKNOWN.
Proof.
  intros H. unfold magics in *. cbn [first_match].
  rewrite (H magic_7z SEVEN_ZIP), (H magic_zip ZIP), (H magic_rar RAR);
    simpl; auto.
Qed.

End SnifferFacts.

(** C8. For every file, [detect_archive_type] is [Sniffer.classify]: it
    looks at the first [HEADER_BYTES] bytes only, the first magic of the
    ordered list that these bytes begin with decides, a file beginning
    with the 7-zip, Zip or Rar magic gets that format, a file that begins
    with no magic, an empty file and a file cut short of a magic are
    [UNKNOWN], and a file that cannot be read is [UNKNOWN] as well (the
    function is total: nothing is raised). *)
Theorem detect_archive_type_correct :
  (forall f p, detect_archive_type f p = Sniffer.classify f p) /\
  (forall f f' p p' d d',
      Fs.read f p = Ok d -> Fs.read f' p' = Ok d' ->
      firstn ArchiveConfig.HEADER_BYTES d = firstn ArchiveConfig.HEADER_BYTES d' ->
      detect_archive_type f p = detect_archive_type f' p') /\
  (forall f p rest,
      (Fs.read f p = Ok (Sniffer.magic_7z ++ rest) -> detect_archive_type f p = SEVEN_ZIP) /\
      (Fs.read f p = Ok (Sniffer.magic_zip ++ rest) -> detect_archive_type f p = ZIP) /\
      (Fs.read f p = Ok (Sniffer.magic_rar ++ rest) -> detect_archive_type f p = RAR)) /\
  (forall f p d,
      Fs.read f p = Ok d ->
      (forall m t, In (m, t) Sniffer.magics -> Sniffer.starts_with m d = false) ->
      detect_archive_type f p = UNKNOWN) /\
  (forall f p, Fs.read f p = Ok [] -> detect_archive_type f p = UNKNOWN) /\
  (forall f p d m t tail,
      Fs.read f p = Ok d -> In (m, t) Sniffer.magics -> m = d ++ tail -> tail <> [] ->
      detect_archive_type f p = UNKNOWN) /\
  (forall f p e, Fs.read f p = Err e -> detect_archive_type f p = UNKNOWN).
Proof.
  split; [|split; [|split; [|split; [|split; [|split]]]]].
  - intros f p. unfold Sniffer.classify.
    destruct (Fs.read f p) as [d|e] eqn:Hr.
    + now apply SnifferFacts.detect_read_ok.
    + now apply SnifferFacts.detect_read_err with e.
  - intros f f' p p' d d' H H' E.
    rewrite (SnifferFacts.detect_read_ok _ _ H), (SnifferFacts.detect_read_ok _ _ H').
    now rewrite E.
  - intros f p rest.
    split; [|split]; intros H;
      rewrite (SnifferFacts.detect_read_ok _ _ H), SnifferFacts.first_match_firstn;
      reflexivity.
  - intros f p d H Hn.
    rewrite (SnifferFacts.detect_read_ok _ _ H), SnifferFacts.first_match_firstn.
    now apply SnifferFacts.first_match_none.
  - intros f p H. now rewrite (SnifferFacts.detect_read_ok _ _ H).
  - intros f p d m t tail H Hin Hm Ht.
    rewrite (SnifferFacts.detect_read_ok _ _ H), SnifferFacts.first_match_firstn.
    clear H. unfold Sniffer.magics in Hin. simpl in Hin.
    destruct Hin as [Hin|[Hin|[Hin|[]]]]; injection Hin as Em Et;
      rewrite <- Em in Hm; clear Em Et;
      unfold Sniffer.magic_7z, Sniffer.magic_zip, Sniffer.magic_rar in Hm;
      repeat (destruct d as [|? d];
              [ simpl in Hm; try (subst tail; reflexivity);
                try (exfalso; apply Ht; congruence)
              | simpl in Hm; try discriminate;
                injection Hm as <- Hm ]).
  - intros f p e H. now apply SnifferFacts.detect_read_err with e.
Qed.

(** A witness: a file that begins with the Zip magic. *)
Lemma detect_archive_type_correct_witness :
  detect_archive_type Sample.one_part_fs ["in"; "b.zip"] = ZIP.
Proof.
  destruct detect_archive_type_correct as (_ & _ & H & _).
  destruct (H Sample.one_part_fs ["in"; "b.zip"] [x04]) as (_ & Hzip & _).
  apply Hzip. reflexivity.
Defined.

(** ** The monad: what a call leaves alone *)

Section MonadFacts.

Lemma new_log_app (w w' : world) (extra : list log_msg) :
  log w' = log w ++ extra -> new_log w w' = extra.
Proof.
  intros H. unfold new_log. rewrite H.
  rewrite skipn_app, skipn_all, Nat.sub_diag. reflexivity.
Qed.

Lemma new_log_same (w w' : world) : log w' = log w -> new_log w w' = [].
Proof. intros H. apply new_log_app. now rewrite app_nil_r. Qed.

Context {A B : Type}.

Lemma fs_only_ret (a : A) : fs_only (ret a).
Proof. intros w. split; reflexivity. Qed.

Lemma fs_only_raise (e : exn) : fs_only (@raise A e).
Proof. intros w. split; reflexivity. Qed.

Lemma fs_only_bind (m : M A) (k : A -> M B) :
  fs_only m -> (forall a, fs_only (k a)) -> fs_only (bind m k).
Proof.
  intros Hm Hk w. unfold bind.
  destruct (m w) as [[a| e |] w1] eqn:E; specialize (Hm w); rewrite E in Hm;
    simpl in Hm; try exact Hm.
  destruct (Hk a w1) as [H1 H2]. destruct Hm as [H3 H4]. split; congruence.
Qed.

Lemma fs_only_try_except (m : M A) (h : exn -> M A) :
  fs_only m -> (forall e, fs_only (h e)) -> fs_only (try_except m h).
Proof.
  intros Hm Hh w. unfold try_except.
  destruct (m w) as [[a| e |] w1] eqn:E; specialize (Hm w); rewrite E in Hm;
    simpl in Hm; try exact Hm.
  destruct (Hh e w1) as [H1 H2]. destruct Hm as [H3 H4]. split; congruence.
Qed.

Lemma fs_only_try_finally (m : M A) (c : M unit) :
  fs_only m -> fs_only c -> fs_only (try_finally m c).
Proof.
  intros Hm Hc w. unfold try_finally.
  destruct (m w) as [r w1] eqn:E. specialize (Hm w). rewrite E in Hm. simpl in Hm.
  specialize (Hc w1).
  destruct (c w1) as [[u| e |] w2]; simpl in *; destruct Hm, Hc; split; congruence.
Qed.

Lemma fs_only_fs_ask (f : FS -> res A) : fs_only (fs_ask f).
Proof. intros w. unfold fs_ask. destruct (f (fs w)); split; reflexivity. Qed.

End MonadFacts.

Lemma fs_only_get_fs : fs_only get_fs.
Proof. intros w. split; reflexivity. Qed.

Lemma fs_only_fs_do (f : FS -> res FS) : fs_only (fs_do f).
Proof. intros w. unfold fs_do. destruct (f (fs w)); split; reflexivity. Qed.

Lemma fs_only_when (b : bool) (m : M unit) : fs_only m -> fs_only (when b m).
Proof. intros H. destruct b; [exact H|apply fs_only_ret]. Qed.

Lemma fs_only_for_each {A} (l : list A) (body : A -> M unit) :
  (forall x, fs_only (body x)) -> fs_only (for_each l body).
Proof.
  intros H. induction l as [|x l IH]; simpl.
  - apply fs_only_ret.
  - apply fs_only_bind; auto.
Qed.

Lemma fs_only_run_codec (c : codec) (p out : Path) (pw : string) :
  fs_only (run_codec c p out pw).
Proof.
  intros w. unfold run_codec.
  destruct (c p out pw (fs w)) as [f' [e|]]; split; reflexivity.
Qed.

Create HintDb fs_only.
#[local] Hint Resolve fs_only_ret fs_only_raise fs_only_get_fs fs_only_fs_do
  fs_only_fs_ask fs_only_when fs_only_for_each fs_only_run_codec : fs_only.
#[local] Hint Extern 2 (fs_only (bind _ _)) => apply fs_only_bind; [|intros] : fs_only.
#[local] Hint Extern 2 (fs_only (try_except _ _)) =>
  apply fs_only_try_except; [|intros] : fs_only.
#[local] Hint Extern 2 (fs_only (try_finally _ _)) => apply fs_only_try_finally : fs_only.
#[local] Hint Extern 3 (fs_only (if ?b then _ else _)) => destruct b : fs_only.

Lemma fs_only_make_directory (p : Path) : fs_only (FileHelper.make_directory p).
Proof. unfold FileHelper.make_directory. auto 10 with fs_only. Qed.

Lemma fs_only_merge_files (l : list Path) (out : Path) :
  fs_only (FileHelper.merge_files l out).
Proof. unfold FileHelper.merge_files, FileHelper.append_to. auto 10 with fs_only. Qed.

#[local] Hint Resolve fs_only_make_directory fs_only_merge_files : fs_only.

(** ** The monad: what comes back *)

Section ReturnFacts.

Context {A B : Type}.

Lemma returns_ret (a : A) : returns (ret a).
Proof. intros w. discriminate. Qed.

Lemma returns_raise (e : exn) : returns (@raise A e).
Proof. intros w. discriminate. Qed.

Lemma returns_bind (m : M A) (k : A -> M B) :
  returns m -> (forall a, returns (k a)) -> returns (bind m k).
Proof.
  intros Hm Hk w. unfold bind. specialize (Hm w).
  destruct (m w) as [[a| e |] w1]; simpl in *; try discriminate; try congruence.
  all: apply Hk.
Qed.

Lemma returns_try_except (m : M A) (h : exn -> M A) :
  returns m -> (forall e, returns (h e)) -> returns (try_except m h).
Proof.
  intros Hm Hh w. unfold try_except. specialize (Hm w).
  destruct (m w) as [[a| e |] w1]; simpl in *; try discriminate; try congruence.
  all: apply Hh.
Qed.

Lemma returns_try_finally (m : M A) (c : M unit) :
  returns m -> returns c -> returns (try_finally m c).
Proof.
  intros Hm Hc w. unfold try_finally. specialize (Hm w).
  destruct (m w) as [r w1]. specialize (Hc w1).
  destruct (c w1) as [[u| e |] w2]; simpl in *; try congruence.
  destruct r; simpl in *; congruence.
Qed.

Lemma returns_fs_ask (f : FS -> res A) : returns (fs_ask f).
Proof. intros w. unfold fs_ask. destruct (f (fs w)); discriminate. Qed.

End ReturnFacts.

Lemma returns_get_fs : returns get_fs.
Proof. intros w. discriminate. Qed.

Lemma returns_get_history : returns get_history.
Proof. intros w. discriminate. Qed.

Lemma returns_logger (m : log_msg) : returns (logger m).
Proof. intros w. discriminate. Qed.

Lemma returns_fs_do (f : FS -> res FS) : returns (fs_do f).
Proof. intros w. unfold fs_do. destruct (f (fs w)); discriminate. Qed.

Lemma returns_when (b : bool) (m : M unit) : returns m -> returns (when b m).
Proof. intros H. destruct b; [exact H|apply returns_ret]. Qed.

Lemma returns_for_each {A} (l : list A) (body : A -> M unit) :
  (forall x, returns (body x)) -> returns (for_each l body).
Proof.
  intros H. induction l as [|x l IH]; simpl.
  - apply returns_ret.
  - apply returns_bind; auto.
Qed.

Lemma returns_for_fold {A S} (l : list A) (s : S) (body : A -> S -> M S) :
  (forall x s, returns (body x s)) -> returns (for_fold l s body).
Proof.
  intros H. revert s. induction l as [|x l IH]; intros s; simpl.
  - apply returns_ret.
  - apply returns_bind; auto.
Qed.

Lemma returns_run_codec (c : codec) (p out : Path) (pw : string) :
  returns (run_codec c p out pw).
Proof.
  intros w. unfold run_codec.
  destruct (c p out pw (fs w)) as [f' [e|]]; discriminate.
Qed.

Lemma returns_save_history (i : string) (s d : Path) : returns (save_history i s d).
Proof. intros w. discriminate. Qed.

Create HintDb returns.
#[local] Hint Resolve returns_ret returns_raise returns_get_fs returns_get_history
  returns_logger returns_fs_do returns_fs_ask returns_when returns_for_each
  returns_for_fold returns_run_codec returns_save_history : returns.
#[local] Hint Extern 2 (returns (bind _ _)) => apply returns_bind; [|intros] : returns.
#[local] Hint Extern 2 (returns (try_except _ _)) =>
  apply returns_try_except; [|intros] : returns.
#[local] Hint Extern 2 (returns (try_finally _ _)) => apply returns_try_finally : returns.
#[local] Hint Extern 3 (returns (if ?b then _ else _)) => destruct b : returns.
#[local] Hint Extern 3 (returns (match ?x with _ => _ end)) => destruct x : returns.

Lemma returns_make_directory (p : Path) : returns (FileHelper.make_directory p).
Proof. unfold FileHelper.make_directory. auto 10 with returns. Qed.

Lemma returns_merge_files (l : list Path) (out : Path) :
  returns (FileHelper.merge_files l out).
Proof. unfold FileHelper.merge_files, FileHelper.append_to. auto 10 with returns. Qed.

#[local] Hint Resolve returns_make_directory returns_merge_files : returns.

(** ** [extract_archive] *)

Section ExtractFacts.

Variables extract_7z extract_zip extract_rar : codec.

Lemma fs_only_ensure_output_dir (out : Path) : fs_only (ensure_output_dir out).
Proof. unfold ensure_output_dir. auto 10 with fs_only. Qed.

(** After the [finally] block no file is left at the merged path. *)
Lemma remove_merged_no_file (p : Path) (w : world) :
  Fs.is_file (fs (snd (remove_merged p w))) p = false.
Proof.
  unfold remove_merged, bind, get_fs, when, logger, fs_do, Fs.unlink. simpl.
  destruct (Fs.exists_ (fs w) p) eqn:Ex; simpl.
  - destruct (Fs.is_file (fs w) p) eqn:Ef; simpl; [|exact Ef].
    unfold Fs.is_file, Fs.remove_entry.
    assert (H : Fs.stat (filter (fun e => negb (PathOps.eqb p (fst e))) (fs w)) p = None).
    { clear. induction (fs w) as [|[q n] l IH]; [reflexivity|].
      simpl. destruct (PathOps.eqb p q) eqn:E; simpl; [exact IH|].
      destruct (PathOps.eqb q p) eqn:E'; [|exact IH].
      exfalso. clear IH. revert q E E'.
      induction p as [|a p IHp]; intros [|b q]; simpl; try discriminate.
      rewrite String.eqb_sym.
      destruct (String.eqb b a); simpl; [apply IHp|discriminate]. }
    now rewrite H.
  - unfold Fs.is_file. unfold Fs.exists_ in Ex.
    destruct p; [destruct (fs w) as [|[[|] ?] ?]; reflexivity || (simpl; discriminate)|].
    destruct (Fs.stat (fs w) (s :: p)); [discriminate|reflexivity].
Qed.

Lemma try_finally_snd {A} (m : M A) (c : M unit) (w : world) :
  snd (try_finally m c w) = snd (c (snd (m w))).
Proof.
  unfold try_finally. destruct (m w) as [r w1]. simpl.
  destruct (c w1) as [[u|e|] w2]; reflexivity.
Qed.

Lemma merged_extraction_no_file (c : codec) (a : ArchiveInfo) (out : Path) (w : world) :
  Fs.is_file (fs (snd (merged_extraction c a out w))) (merged_path_of a out) = false.
Proof.
  unfold merged_extraction, bind at 1, logger at 1. cbv beta iota.
  rewrite try_finally_snd. apply remove_merged_no_file.
Qed.

Lemma returns_extract_archive (a : ArchiveInfo) (out : Path) :
  returns (extract_archive extract_7z extract_zip extract_rar a out).
Proof.
  unfold extract_archive, extract_funcs, ensure_output_dir, direct_extraction,
    merged_extraction, remove_merged.
  auto 12 with returns.
Qed.

(** The three ways in which the first try ends. *)
Lemma direct_extraction_cases (c : codec) (a : ArchiveInfo) (out : Path) (w : world) :
  let p := first_archive_path a in
  direct_extraction c a out w =
    match c p out (password a) (fs w) with
    | (f', None) => (Ret true, with_log w f' [LogUsingArchiveFile p])
    | (f', Some e) =>
        if List.length (parts a) <=? 1
        then (Raise e, with_log w f' [LogUsingArchiveFile p])
        else (Ret false, with_log w f' [LogUsingArchiveFile p; LogDirectFailed])
    end.
Proof.
  unfold direct_extraction, first_archive_path, with_log, bind, logger, try_except,
    run_codec, put_fs, ret, raise.
  simpl.
  destruct (c _ out (password a) (fs w)) as [f' [e|]]; simpl; [|reflexivity].
  destruct (List.length (parts a) <=? 1); simpl; [reflexivity|].
  rewrite <- app_assoc. reflexivity.
Qed.

(** [extract_archive], case by case. *)
Lemma extract_archive_cases (a : ArchiveInfo) (out : Path) (w : world) :
  let p := first_archive_path a in
  extract_archive extract_7z extract_zip extract_rar a out w =
    match ensure_output_dir out w with
    | (Ret _, w1) =>
        match extract_funcs extract_7z extract_zip extract_rar (type a) with
        | None => (Ret tt, with_log w1 (fs w1) [LogUnsupportedType])
        | Some c =>
            match c p out (password a) (fs w1) with
            | (f', None) => (Ret tt, with_log w1 f' [LogUsingArchiveFile p])
            | (f', Some e) =>
                if List.length (parts a) <=? 1
                then (Raise e, with_log w1 f' [LogUsingArchiveFile p;
                                               LogFailedExtract (path a)])
                else
                  match merged_extraction c a out
                          (with_log w1 f' [LogUsingArchiveFile p; LogDirectFailed]) with
                  | (Raise e3, w3) =>
                      (Raise e3, with_log w3 (fs w3) [LogFailedExtract (path a)])
                  | r => r
                  end
            end
        end
    | (Raise e, w1) => (Raise e, w1)
    | (Timeout, w1) => (Timeout, w1)
    end.
Proof.
  intros p. unfold extract_archive. unfold bind at 1.
  destruct (ensure_output_dir out w) as [[[]|e1|] w1]; try reflexivity.
  destruct (extract_funcs extract_7z extract_zip extract_rar (type a)) as [c|];
    [|reflexivity].
  unfold try_except, bind at 1. rewrite direct_extraction_cases. fold p.
  destruct (c p out (password a) (fs w1)) as [f' [e|]]; [|reflexivity].
  destruct (List.length (parts a) <=? 1).
  - unfold bind, logger, raise, with_log. simpl. rewrite <- app_assoc. reflexivity.
  - destruct (merged_extraction c a out _) as [[[]|e3|] w3]; reflexivity.
Qed.

(** What [extract_archive] logs tells whether the parts were merged. *)
Lemma extract_archive_merging (a : ArchiveInfo) (out : Path) (w : world) :
  In LogMergingParts (new_log w (snd (extract_archive extract_7z extract_zip extract_rar a out w))) ->
  exists c w1,
    1 < List.length (parts a) /\
    fs (snd (extract_archive extract_7z extract_zip extract_rar a out w)) = fs (snd (merged_extraction c a out w1)).
Proof.
  rewrite extract_archive_cases.
  destruct (ensure_output_dir out w) as [r1 w1] eqn:E1.
  destruct (fs_only_ensure_output_dir out w) as [_ Hl1]. rewrite E1 in Hl1. simpl in Hl1.
  destruct r1 as [[]|e1|]; simpl;
    try (rewrite (new_log_same w w1 Hl1); intros []).
  destruct (extract_funcs extract_7z extract_zip extract_rar (type a)) as [c|] eqn:Ec.
  2:{ simpl. rewrite (new_log_app w _ [LogUnsupportedType]) by (simpl; now rewrite Hl1).
      intros [H|[]]; discriminate. }
  destruct (c (first_archive_path a) out (password a) (fs w1)) as [f' [e|]] eqn:Hc.
  2:{ simpl.
      rewrite (new_log_app w _ [LogUsingArchiveFile (first_archive_path a)])
        by (simpl; now rewrite Hl1).
      intros [H|[]]; discriminate. }
  destruct (List.length (parts a) <=? 1) eqn:Hlen.
  { simpl.
    rewrite (new_log_app w _ [LogUsingArchiveFile (first_archive_path a);
                              LogFailedExtract (path a)])
      by (simpl; now rewrite Hl1).
    intros [H|[H|[]]]; discriminate. }
  intros _. apply Nat.leb_gt in Hlen.
  exists c, (with_log w1 f' [LogUsingArchiveFile (first_archive_path a); LogDirectFailed]).
  split; [exact Hlen|].
  destruct (merged_extraction c a out _) as [[[]|e3|] w3]; reflexivity.
Qed.

(** C4. When [extract_archive] went into the merge fallback (it logged
    "Merging archive parts..."), it comes back, with or without an
    exception, and no file is left at the path of the merged file. *)
Theorem merged_file_removed (a : ArchiveInfo) (out : Path) (w : world) :
  In LogMergingParts (new_log w (snd (extract_archive extract_7z extract_zip extract_rar a out w))) ->
  fst (extract_archive extract_7z extract_zip extract_rar a out w) <> Timeout /\
  Fs.is_file (fs (snd (extract_archive extract_7z extract_zip extract_rar a out w))) (merged_path_of a out) = false.
Proof.
  intros H. split; [apply returns_extract_archive|].
  destruct (extract_archive_merging a out w H) as (c & w1 & _ & ->).
  apply merged_extraction_no_file.
Qed.

(** C7. With at most one fragment a failure of the direct attempt is
    raised again at once: the exception is the codec's, the file system
    is as the codec left it and the log has no "Merging archive
    parts..."; and whenever that line is logged the unit has more than
    one fragment. *)
Theorem single_fragment_failure_propagates :
  (forall (a : ArchiveInfo) (out : Path) (w w1 : world) (c : codec) (f' : FS) (e : exn),
      List.length (parts a) <= 1 ->
      extract_funcs extract_7z extract_zip extract_rar (type a) = Some c ->
      ensure_output_dir out w = (Ret tt, w1) ->
      c (path a) out (password a) (fs w1) = (f', Some e) ->
      extract_archive extract_7z extract_zip extract_rar a out w =
        (Raise e, with_log w1 f' [LogUsingArchiveFile (path a);
                                  LogFailedExtract (path a)])) /\
  (forall (a : ArchiveInfo) (out : Path) (w : world),
      In LogMergingParts (new_log w (snd (extract_archive extract_7z extract_zip extract_rar a out w))) ->
      1 < List.length (parts a)).
Proof.
  split.
  - intros a out w w1 c f' e Hlen Hc Hens Hfail.
    assert (Hp : first_archive_path a = path a).
    { unfold first_archive_path.
      destruct (1 <? List.length (parts a)) eqn:E; [|reflexivity].
      apply Nat.ltb_lt in E. lia. }
    rewrite extract_archive_cases, Hens, Hc, Hp, Hfail.
    apply Nat.leb_le in Hlen. now rewrite Hlen.
  - intros a out w H.
    destruct (extract_archive_merging a out w H) as (c & w1 & Hlen & _).
    exact Hlen.
Qed.

End ExtractFacts.

(** A witness: two parts, and a codec that fails on the first part and
    unpacks the merged file. *)
Lemma merged_file_removed_witness :
  let w := Sample.empty_world Sample.two_parts_fs in
  let r := extract_archive Sample.merged_only Sample.merged_only Sample.merged_only
             Sample.two_parts ["out"] w in
  In LogMergingParts (new_log w (snd r)) /\
  fst r <> Timeout /\
  Fs.is_file (fs (snd r)) ["out"; "merged.001"] = false.
Proof.
  intros w r.
  assert (H : In LogMergingParts (new_log w (snd r))) by (vm_compute; tauto).
  split; [exact H|].
  exact (merged_file_removed Sample.merged_only Sample.merged_only Sample.merged_only
           Sample.two_parts ["out"] w H).
Defined.

(** The same unit with a codec that fails on the merged file too: the
    exception comes out and the merged file is gone all the same. *)
Example failed_merge_leaves_no_file :
  let r := extract_archive Sample.corrupt Sample.corrupt Sample.corrupt
             Sample.two_parts ["out"] (Sample.empty_world Sample.two_parts_fs) in
  fst r = Raise CodecError /\
  Fs.exists_ (fs (snd r)) ["out"; "merged.001"] = false /\
  In (LogRemovingMerged ["out"; "merged.001"]) (log (snd r)).
Proof. vm_compute. tauto. Qed.

(** A witness: one Zip file that the codec cannot unpack, and the
    two-part unit for the second half. *)
Lemma single_fragment_failure_propagates_witness :
  extract_archive Sample.corrupt Sample.corrupt Sample.corrupt
    Sample.one_part ["out"] (Sample.empty_world Sample.one_part_fs)
  = (Raise CodecError,
     with_log (Sample.empty_world Sample.one_part_fs) Sample.one_part_fs
       [LogUsingArchiveFile ["in"; "b.zip"]; LogFailedExtract ["in"; "b.zip"]]) /\
  1 < List.length (parts Sample.two_parts).
Proof.
  destruct (single_fragment_failure_propagates Sample.corrupt Sample.corrupt Sample.corrupt)
    as [H1 H2].
  split.
  - apply (H1 Sample.one_part ["out"] (Sample.empty_world Sample.one_part_fs)
              (Sample.empty_world Sample.one_part_fs) Sample.corrupt
              Sample.one_part_fs CodecError).
    + simpl. lia.
    + reflexivity.
    + reflexivity.
    + reflexivity.
  - apply (H2 Sample.two_parts ["out"] (Sample.empty_world Sample.two_parts_fs)).
    vm_compute. tauto.
Defined.

(** ** Collecting: [_prepare_archive_info] *)

Section PrepareFacts.

Variable self : UnzipService.
Variable f : FS.
Variable _id : string.

Lemma dict_get_in {V} (d : list (string * V)) (k : string) (v : V) :
  Dict.get d k = Some v -> exists k', In (k', v) d.
Proof.
  induction d as [|[k' v'] d IH]; simpl; [discriminate|].
  destruct (String.eqb k' k).
  - intros [= ->]. eauto.
  - intros H. destruct (IH H) as [k'' Hin]. eauto.
Qed.

Lemma dict_set_in {V} (d : list (string * V)) (k : string) (v : V) (e : string * V) :
  In e (Dict.set d k v) -> e = (k, v) \/ In e d.
Proof.
  induction d as [|[k' v'] d IH]; simpl.
  - intros [<-|[]]. now left.
  - destruct (String.eqb k' k); simpl.
    + intros [<-|H]; [now left|right; now right].
    + intros [<-|H]; [right; now left|].
      destruct (IH H); [now left|right; now right].
Qed.

(** No unit that [_prepare_archive_info] makes has the type [UNKNOWN]. *)
Lemma prepare_archive_info_known (files : list Path) (b : string) (a : ArchiveInfo) :
  In (b, a) (_prepare_archive_info self f _id files) -> type a <> UNKNOWN.
Proof.
  unfold _prepare_archive_info.
  assert (H : forall (l : list Path) (acc : list (string * ArchiveInfo)),
             (forall b a, In (b, a) acc -> type a <> UNKNOWN) ->
             forall b a,
               In (b, a)
                  (fold_left
                     (fun archives file_path =>
                        let base_name := Str.split_head "." (PathOps.stem file_path) in
                        match Dict.get archives base_name with
                        | None =>
                            let archive_type := detect_archive_type f file_path in
                            if negb (ArchiveType_eqb archive_type UNKNOWN)
                            then Dict.set archives base_name
                                   {| path := file_path; type := archive_type;
                                      parts := [file_path];
                                      password :=
                                        str_or (query_pieces_unzip_key (pieces_dao self) _id)
                                               (default_password self) |}
                            else archives
                        | Some a0 =>
                            Dict.set archives base_name
                              {| path := path a0; type := type a0;
                                 parts := parts a0 ++ [file_path];
                                 password := password a0 |}
                        end) l acc) ->
               type a <> UNKNOWN).
  { induction l as [|p l IH]; intros acc Hacc b0 a0; simpl; [apply Hacc|].
    apply IH. clear b0 a0. intros b0 a0.
    destruct (Dict.get acc _) as [a1|] eqn:Eg.
    - intros Hin. apply dict_set_in in Hin. destruct Hin as [[= _ ->]|Hin].
      + simpl. destruct (dict_get_in _ _ Eg) as [k' Hk']. eapply Hacc; eauto.
      + eapply Hacc; eauto.
    - destruct (detect_archive_type f p) eqn:Ed; simpl;
        try (intros Hin; apply dict_set_in in Hin;
             destruct Hin as [[= _ ->]|Hin]; [simpl; discriminate|eapply Hacc; eauto]).
      apply Hacc. }
  apply H. intros ? ? [].
Qed.

End PrepareFacts.

(** C1. The item [X] is a folder with the one plain file [notes.txt]:
    [_prepare_archive_info] makes no unit for it, so nothing is copied to
    the outbound staging directory, nothing reaches the target and no
    history is written; [_extract_to_target_temp], handed a unit of type
    [UNKNOWN] with the same file and a stray part file, copies the file
    and skips the part. *)
Theorem unknown_group_makes_no_unit :
  let self := Sample.service LOIBUS 0 in
  let notes := ["src"; "X"; "notes.txt"] in
  let w := Sample.empty_world Sample.plain_fs in
  detect_archive_type Sample.plain_fs notes = UNKNOWN /\
  _prepare_archive_info self Sample.plain_fs "X" [notes] = [] /\
  _process_single_id Sample.unpack Sample.unpack Sample.unpack self 1 "X" [notes] ["src"; "X"] w
  = (Ret tt, with_log w Sample.plain_fs [LogNoFilesToMove ["temp3"; "X"]]) /\
  (let unit_ := {| path := notes; type := UNKNOWN;
                   parts := [notes; ["src"; "X"; "stray.part2"]]; password := "" |} in
   let r := _extract_to_target_temp Sample.unpack Sample.unpack Sample.unpack
              unit_ ["temp3"] w in
   fst r = Ret tt /\
   Fs.read (fs (snd r)) ["temp3"; "notes.txt"] = Ok [x68; x69] /\
   log (snd r) = [LogCopied notes ["temp3"]; LogSkippingMultipart ["src"; "X"; "stray.part2"]]).
Proof. vm_compute. repeat split. Qed.

(** ** Relocation: where [_move_to_target] puts an entry *)

Lemma child_relative (p q : Path) :
  PathOps.child_of p q = true -> List.length (PathOps.relative_to p q) = 1.
Proof.
  unfold PathOps.child_of, PathOps.relative_to.
  intros H. apply andb_prop in H. destruct H as [_ H].
  apply Nat.eqb_eq in H. rewrite length_skipn. lia.
Qed.


(** C2. With [skip_parent_levels = 1] the staged file
    [outer/inner/file.txt] of the item [X] ends at
    [target/outer/inner/file.txt]: no segment is dropped, and nothing is
    at [target/inner/file.txt].  With [skip_parent_levels = 0] it ends at
    [target/X/outer/inner/file.txt]. *)
Theorem skip_levels_drops_no_segment :
  let w := Sample.empty_world Sample.staged_fs in
  let moved skip :=
    _move_to_target (Sample.service LOIBUS skip) ["temp3"; "X"] "X" ["src"; "X"] w in
  fst (moved 1) = Ret tt /\
  Fs.read (fs (snd (moved 1))) ["target"; "outer"; "inner"; "file.txt"] = Ok [x68; x69] /\
  Fs.exists_ (fs (snd (moved 1))) ["target"; "inner"; "file.txt"] = false /\
  Fs.exists_ (fs (snd (moved 1))) ["target"; "inner"] = false /\
  fst (moved 0) = Ret tt /\
  Fs.read (fs (snd (moved 0))) ["target"; "X"; "outer"; "inner"; "file.txt"] = Ok [x68; x69].
Proof. vm_compute. repeat split. Qed.

(** ** The loop of [_process_unzip_temp_archives] *)

Section LoopFacts.

Variables extract_7z extract_zip extract_rar : codec.
Variable self : UnzipService.

Lemma for_fold_no_archives (_id : string) (l : list Path) (w : world) :
  (forall p, In p l -> detect_archive_type (fs w) p = UNKNOWN) ->
  for_fold l false (process_temp_file extract_7z extract_zip extract_rar self _id) w
  = (Ret false, w).
Proof.
  induction l as [|p l IH]; intros H; [reflexivity|].
  simpl. unfold bind at 1. unfold process_temp_file at 1.
  unfold bind at 1, get_fs. rewrite (H p) by now left. simpl.
  apply IH. intros q Hq. apply H. now right.
Qed.

(** X15. A round of [_process_unzip_temp_archives] that finds no
    recognised archive in the inbound staging directory is the last one:
    the loop returns and leaves the file system, the history collection
    and the lines of the log that the model keeps as they were. *)
Lemma loop_stops_without_archives (fuel : nat) (_id : string) (w : world) :
  (forall p,
      In p (FileHelper.get_file_list (fs w)
              (unzip_temp_dir (path_config self) // _generate_folder_name self _id)) ->
      detect_archive_type (fs w) p = UNKNOWN) ->
  _process_unzip_temp_archives extract_7z extract_zip extract_rar self (S fuel) _id w
  = (Ret tt, w).
Proof.
  intros H. cbn [_process_unzip_temp_archives].
  unfold bind at 1, get_fs. cbn [fs].
  destruct (negb _ || negb _)%bool; [reflexivity|].
  unfold bind at 1. rewrite for_fold_no_archives by exact H.
  reflexivity.
Qed.

End LoopFacts.

Module CorruptNested.

(** One pass of the [for] loop over the inbound staging directory: the
    archive is found, its extraction fails, it stays where it is. *)
Lemma pass (h : list HistoryRecord) (l : list log_msg) :
  for_fold (FileHelper.get_file_list Sample.inbound_fs ["temp1"; "X"]) false
    (process_temp_file Sample.corrupt Sample.corrupt Sample.corrupt
       (Sample.service LOIBUS 0) "X")
    (Sample.inbound_world h l)
  = (Ret true, Sample.inbound_world h (Sample.failed_round l)).
Proof. vm_compute. reflexivity. Qed.

(** A round leaves the file system as it was and goes on to the next. *)
Lemma round (fuel : nat) (h : list HistoryRecord) (l : list log_msg) :
  Sample.corrupt_rounds (S fuel) "X" (Sample.inbound_world h l) = Sample.corrupt_rounds fuel "X" (Sample.inbound_world h (Sample.failed_round l)).
Proof.
  unfold Sample.corrupt_rounds. cbn [_process_unzip_temp_archives].
  unfold bind at 1, get_fs. cbn [fs Sample.inbound_world].
  change (_generate_folder_name (Sample.service LOIBUS 0) "X") with "X".
  change (unzip_temp_dir (path_config (Sample.service LOIBUS 0)) // "X")
    with ["temp1"; "X"].
  replace (negb (Fs.exists_ Sample.inbound_fs ["temp1"; "X"])
           || negb (FileHelper.contains_files Sample.inbound_fs ["temp1"; "X"]))%bool
    with false by (vm_compute; reflexivity).
  unfold bind at 1. rewrite pass. reflexivity.
Qed.

Lemma never_returns (fuel : nat) (h : list HistoryRecord) (l : list log_msg) :
  fst (Sample.corrupt_rounds fuel "X" (Sample.inbound_world h l)) = Timeout.
Proof.
  revert l. induction fuel as [|fuel IH]; intros l; [reflexivity|].
  rewrite round. apply IH.
Qed.

End CorruptNested.

(** C3. The inbound staging directory of the item [X] holds one Zip file
    that the codec cannot unpack: whatever the number of rounds allowed,
    the loop of [_process_unzip_temp_archives] has not come back.  The
    failed file stays in the directory and every round finds it again. *)
Theorem failed_extraction_loops_forever :
  forall fuel : nat,
    fst (_process_unzip_temp_archives Sample.corrupt Sample.corrupt Sample.corrupt
           (Sample.service LOIBUS 0) fuel "X" (Sample.empty_world Sample.inbound_fs))
    = Timeout.
Proof. intros fuel. apply (CorruptNested.never_returns fuel [] []). Qed.

(** With a codec that unpacks the file, the same loop comes back after
    two rounds and the directory holds no archive any more. *)
Example nested_archive_is_unpacked :
  let r := _process_unzip_temp_archives Sample.unpack Sample.unpack Sample.unpack
             (Sample.service LOIBUS 0) 2 "X" (Sample.empty_world Sample.inbound_fs) in
  fst r = Ret tt /\
  FileHelper.get_file_list (fs (snd r)) ["temp1"; "X"] = [] /\
  Fs.is_file (fs (snd r)) ["temp3"; "X"; "file.txt"] = true.
Proof. vm_compute. repeat split. Qed.

(** ** Fragment collection *)

(** C9. [part1.rar] is a part file for [_is_multipart_archive] (it begins
    with [part] and ends with [.rar]), yet [_collect_multipart_archive]
    finds none of [.7z.], [.zip.] and [.part] in the name and raises
    [ValueError] from [rindex]; the exception leaves
    [_process_unzip_temp_archives] and ends the work on the item. *)
Theorem part_rar_collection_raises :
  _is_multipart_archive ["temp1"; "X"; "part1.rar"] = true /\
  (forall w : world,
      collect_fragments ["temp1"; "X"; "part1.rar"] w = (Raise ValueError, w)) /\
  fst (_process_unzip_temp_archives Sample.unpack Sample.unpack Sample.unpack
         (Sample.service LOIBUS 0) 3 "X" (Sample.empty_world Sample.part_rar_fs))
  = Raise ValueError.
Proof.
  split; [vm_compute; reflexivity|]. split.
  - intros w. unfold collect_fragments.
    replace (_is_multipart_archive ["temp1"; "X"; "part1.rar"]) with true
      by (vm_compute; reflexivity).
    reflexivity.
  - vm_compute. reflexivity.
Qed.

(** ** Collection and re-runs *)

Lemma is_all_processed_other_db (self : UnzipService) (f : FS) (_id : string) :
  db_type self <> VAMVIDEO -> _is_all_processed self f _id = Ok true.
Proof.
  intros H. unfold _is_all_processed.
  destruct (db_type self); try reflexivity. contradiction.
Qed.

Section RerunFacts.

Variables extract_7z extract_zip extract_rar : codec.
Variable self : UnzipService.

Lemma fs_only_prepare_temp_dirs : fs_only (prepare_temp_dirs self).
Proof. unfold prepare_temp_dirs. auto 10 with fs_only. Qed.

(** The loop of [_collect_archive_files] over entries that are all
    recorded and all processed collects nothing. *)
Lemma collect_loop_skips (items : list Path) (w : world) :
  (forall item, In item items ->
                recorded (history w) (fs w) item /\
                _is_all_processed self (fs w) (_get_path_id (fs w) item) = Ok true) ->
  for_fold items ([], [])
    (fun item acc =>
       let '(id_files, id_sources) := acc in
       f <- get_fs ;;
       h <- get_history ;;
       let _id := _get_path_id f item in
       skip <- (match query_history_by_src_path h item, query_history_by_id h _id with
                | None, None => ret false
                | _, _ => fs_ask (fun f => _is_all_processed self f _id)
                end) ;;
       if skip : bool then
         logger (LogSkippingProcessed item) ;;
         ret (id_files, id_sources)
       else
         ret (Dict.set id_files _id (if Fs.is_file f item then [item] else Fs.rglob f item),
              Dict.set id_sources _id item)) w
  = (Ret ([], []), with_log w (fs w) (map LogSkippingProcessed items)).
Proof.
  revert w. induction items as [|item items IH]; intros w H.
  - simpl. unfold ret, with_log. rewrite app_nil_r. destruct w; reflexivity.
  - destruct (H item (or_introl eq_refl)) as [Hrec Hall].
    cbn [for_fold]. unfold bind at 1. unfold bind at 1, get_fs.
    unfold bind at 1, get_history.
    assert (Hskip :
              (match query_history_by_src_path (history w) item,
                     query_history_by_id (history w) (_get_path_id (fs w) item) with
               | None, None => ret false
               | _, _ => fs_ask (fun f => _is_all_processed self f (_get_path_id (fs w) item))
               end) w = (Ret true, w)).
    { unfold recorded in Hrec.
      destruct (query_history_by_src_path (history w) item);
        destruct (query_history_by_id (history w) (_get_path_id (fs w) item));
        try (unfold fs_ask; rewrite Hall; reflexivity).
      destruct Hrec as [Hr|Hr]; contradiction. }
    unfold bind at 1. rewrite Hskip.
    unfold bind at 1, logger, ret. cbn [fst snd].
    rewrite IH.
    + unfold with_log. cbn [fs history log map]. rewrite <- app_assoc. reflexivity.
    + cbn [fs history]. intros item' Hin. apply H. now right.
Qed.

(** C6, amended. A run over a source root whose entries are all
    recorded in the history collection and all pass [_is_all_processed]
    (as every entry does when the database is not [VAMVIDEO]) skips
    every entry during collection and writes nothing to the history
    collection. *)
Theorem rerun_writes_nothing (fuel : nat) (w : world) (items : list Path) :
  let w0 := snd (prepare_temp_dirs self w) in
  fst (prepare_temp_dirs self w) = Ret tt ->
  Fs.iterdir (fs w0) (source_dir (path_config self)) = Ok items ->
  (forall item, In item items -> recorded (history w) (fs w0) item) ->
  (db_type self <> VAMVIDEO \/
   forall item, In item items ->
                _is_all_processed self (fs w0) (_get_path_id (fs w0) item) = Ok true) ->
  _collect_archive_files self w0
  = (Ret ([], []), with_log w0 (fs w0) (map LogSkippingProcessed items)) /\
  fst (process_archives extract_7z extract_zip extract_rar self fuel w) = Ret tt /\
  history (snd (process_archives extract_7z extract_zip extract_rar self fuel w))
  = history w.
Proof.
  intros w0 Hprep Hit Hrec Hall.
  destruct (fs_only_prepare_temp_dirs w) as [Hh _]. fold w0 in Hh.
  assert (Hcollect : _collect_archive_files self w0
                     = (Ret ([], []), with_log w0 (fs w0) (map LogSkippingProcessed items))).
  { unfold _collect_archive_files. unfold bind at 1, fs_ask. rewrite Hit.
    apply collect_loop_skips. intros item Hin. split.
    - rewrite Hh. now apply Hrec.
    - destruct Hall as [Hdb|Hall]; [now apply is_all_processed_other_db|now apply Hall]. }
  split; [exact Hcollect|].
  unfold process_archives. unfold bind at 1. unfold bind at 2.
  destruct (prepare_temp_dirs self w) as [r w0'] eqn:E.
  simpl in Hprep. subst r. simpl in w0. subst w0.
  unfold bind. rewrite Hcollect. simpl. split; [reflexivity|exact Hh].
Qed.

End RerunFacts.

(** The counterexample to C6 as it is stated: the database is [VAMVIDEO]
    and the one source entry [pack1k4k.zip] asks by its name for two
    resolutions.  The first run completes and records the entry; the
    target folder holds neither resolution, so the second run over the
    unchanged source root collects the entry again and writes a second
    document. *)
Lemma rerun_of_video_item_writes_again :
  let self := Sample.service VAMVIDEO 0 in
  let run := process_archives Sample.unpack Sample.unpack Sample.unpack self 5 in
  let w1 := snd (run (Sample.empty_world Sample.video_fs)) in
  let w0 := snd (prepare_temp_dirs self w1) in
  fst (run (Sample.empty_world Sample.video_fs)) = Ret tt /\
  Fs.iterdir (fs w0) ["src"] = Ok [["src"; "pack1k4k.zip"]] /\
  Fs.read (fs w1) ["src"; "pack1k4k.zip"] = Fs.read Sample.video_fs ["src"; "pack1k4k.zip"] /\
  (forall item, In item [["src"; "pack1k4k.zip"]] -> recorded (history w1) (fs w0) item) /\
  fst (_collect_archive_files self w0)
  = Ret ([("pack1k4k", [["src"; "pack1k4k.zip"]])], [("pack1k4k", ["src"; "pack1k4k.zip"])]) /\
  fst (run w1) = Ret tt /\
  List.length (history w1) = 1 /\
  List.length (history (snd (run w1))) = 2.
Proof.
  cbv zeta.
  split; [vm_compute; reflexivity|].
  split; [vm_compute; reflexivity|].
  split; [vm_compute; reflexivity|].
  split.
  { intros item [<-|[]]. right. vm_compute. discriminate. }
  repeat split; vm_compute; reflexivity.
Qed.

(** A witness: the same source root with a database other than
    [VAMVIDEO], after a first run. *)
Lemma rerun_writes_nothing_witness :
  let self := Sample.service LOIBUS 0 in
  let run := process_archives Sample.unpack Sample.unpack Sample.unpack self 5 in
  let w1 := snd (run (Sample.empty_world Sample.video_fs)) in
  List.length (history w1) = 1 /\
  fst (run w1) = Ret tt /\
  history (snd (run w1)) = history w1.
Proof.
  cbv zeta. split; [vm_compute; reflexivity|].
  refine (proj2 (@rerun_writes_nothing Sample.unpack Sample.unpack Sample.unpack
                   (Sample.service LOIBUS 0) 5
                   (snd (process_archives Sample.unpack Sample.unpack Sample.unpack
                           (Sample.service LOIBUS 0) 5
                           (Sample.empty_world Sample.video_fs)))
                   [["src"; "pack1k4k.zip"]] _ _ _ _)).
  - vm_compute. reflexivity.
  - vm_compute. reflexivity.
  - intros item [<-|[]]. right. vm_compute. discriminate.
  - left. discriminate.
Defined.

(** ** Paths and the file system *)

Module PathFacts.

Lemma eqb_eq (p q : Path) : PathOps.eqb p q = true <-> p = q.
Proof.
  revert q. induction p as [|a p IH]; intros [|b q]; simpl; split;
    try discriminate; try reflexivity.
  - intros H. apply andb_prop in H. destruct H as [H1 H2].
    apply String.eqb_eq in H1. apply IH in H2. congruence.
  - intros [= -> ->]. rewrite String.eqb_refl. simpl. now apply IH.
Qed.

Lemma eqb_refl (p : Path) : PathOps.eqb p p = true.
Proof. now apply eqb_eq. Qed.

Lemma eqb_neq (p q : Path) : PathOps.eqb p q = false <-> p <> q.
Proof.
  split.
  - intros H E. apply eqb_eq in E. congruence.
  - intros H. destruct (PathOps.eqb p q) eqn:E; [|reflexivity].
    apply eqb_eq in E. contradiction.
Qed.

Lemma is_prefix_iff (p q : Path) :
  PathOps.is_prefix p q = true <-> exists r, q = p ++ r.
Proof.
  revert q. induction p as [|a p IH]; intros q; simpl.
  - split; [intros _; now exists q|reflexivity].
  - destruct q as [|b q].
    + split; [discriminate|intros [r Hr]; discriminate].
    + split.
      * intros H. apply andb_prop in H. destruct H as [H1 H2].
        apply String.eqb_eq in H1. apply IH in H2. destruct H2 as [r ->].
        exists r. now subst.
      * intros [r [= -> ->]]. rewrite String.eqb_refl. simpl.
        apply IH. now exists r.
Qed.

Lemma is_prefix_app (p r : Path) : PathOps.is_prefix p (p ++ r) = true.
Proof. apply is_prefix_iff. now exists r. Qed.

Lemma is_prefix_refl (p : Path) : PathOps.is_prefix p p = true.
Proof. apply is_prefix_iff. exists []. now rewrite app_nil_r. Qed.

Lemma is_prefix_trans (p q r : Path) :
  PathOps.is_prefix p q = true -> PathOps.is_prefix q r = true ->
  PathOps.is_prefix p r = true.
Proof.
  intros H1 H2. apply is_prefix_iff in H1, H2.
  destruct H1 as [a ->]. destruct H2 as [b ->].
  apply is_prefix_iff. exists (a ++ b). now rewrite app_assoc.
Qed.

Lemma is_prefix_length (p q : Path) :
  PathOps.is_prefix p q = true -> List.length p <= List.length q.
Proof.
  intros H. apply is_prefix_iff in H. destruct H as [r ->].
  rewrite length_app. lia.
Qed.

(** Two paths that lead to the same place lie on one line. *)
Lemma is_prefix_comparable (a b r : Path) :
  PathOps.is_prefix a (b ++ r) = true ->
  PathOps.is_prefix a b = true \/ PathOps.is_prefix b a = true.
Proof.
  revert b. induction a as [|x a IH]; intros b; [now left|].
  destruct b as [|y b]; [now right|].
  simpl. intros H. apply andb_prop in H. destruct H as [H1 H2].
  rewrite H1. simpl. rewrite String.eqb_sym, H1. simpl. now apply IH.
Qed.

Lemma relative_to_app (p r : Path) : PathOps.relative_to p (p ++ r) = r.
Proof.
  unfold PathOps.relative_to. rewrite skipn_app, skipn_all, Nat.sub_diag.
  reflexivity.
Qed.

Lemma child_of_iff (p q : Path) :
  PathOps.child_of p q = true <-> exists x, q = p ++ [x].
Proof.
  unfold PathOps.child_of. split.
  - intros H. apply andb_prop in H. destruct H as [H1 H2].
    apply is_prefix_iff in H1. destruct H1 as [r ->].
    apply Nat.eqb_eq in H2. rewrite length_app in H2.
    destruct r as [|x [|y r]]; simpl in H2; try lia. now exists x.
  - intros [x ->]. rewrite is_prefix_app. simpl.
    apply Nat.eqb_eq. rewrite length_app. simpl. lia.
Qed.

Lemma name_snoc (p : Path) (x : string) : PathOps.name (p ++ [x]) = x.
Proof. unfold PathOps.name. apply last_last. Qed.

Lemma parent_snoc (p : Path) (x : string) : PathOps.parent (p ++ [x]) = p.
Proof. unfold PathOps.parent. apply removelast_last. Qed.

Lemma parent_is_prefix (p : Path) : PathOps.is_prefix (PathOps.parent p) p = true.
Proof.
  induction p as [|x p _] using rev_ind; [reflexivity|].
  rewrite parent_snoc. apply is_prefix_app.
Qed.

Lemma div_cases (p : Path) (s : string) : p // s = p \/ p // s = p ++ [s].
Proof.
  unfold PathOps.div. destruct (String.eqb s "" || String.eqb s ".")%bool; auto.
Qed.

Lemma div_is_prefix (p : Path) (s : string) : PathOps.is_prefix p (p // s) = true.
Proof.
  destruct (div_cases p s) as [-> | ->]; [apply is_prefix_refl|apply is_prefix_app].
Qed.

(** The parent of [p // s] lies at or above [p]. *)
Lemma parent_div_is_prefix (p : Path) (s : string) :
  PathOps.is_prefix (PathOps.parent (p // s)) p = true.
Proof.
  destruct (div_cases p s) as [-> | ->].
  - apply parent_is_prefix.
  - rewrite parent_snoc. apply is_prefix_refl.
Qed.



Lemma is_prefix_antisym (p q : Path) :
  PathOps.is_prefix p q = true -> PathOps.is_prefix q p = true -> p = q.
Proof.
  intros H1 H2. pose proof (is_prefix_length _ _ H2) as L.
  apply is_prefix_iff in H1. destruct H1 as [r ->].
  rewrite length_app in L. destruct r; [now rewrite app_nil_r|simpl in L; lia].
Qed.

Lemma below_iff (p q : Path) :
  PathOps.below p q = true <-> PathOps.is_prefix p q = true /\ p <> q.
Proof.
  unfold PathOps.below. rewrite andb_true_iff, negb_true_iff, eqb_neq. tauto.
Qed.

(** Nothing at or above [p] lies strictly below [p]. *)
Lemma above_not_below (p q : Path) :
  PathOps.is_prefix q p = true -> PathOps.below p q = false.
Proof.
  intros H. destruct (PathOps.below p q) eqn:E; [|reflexivity].
  apply below_iff in E. destruct E as [E1 E2].
  exfalso. apply E2. now apply is_prefix_antisym.
Qed.

End PathFacts.

Module FsFacts.

Lemma stat_in (f : FS) (p : Path) (n : node) : Fs.stat f p = Some n -> In (p, n) f.
Proof.
  induction f as [|[q m] f IH]; simpl; [discriminate|].
  destruct (PathOps.eqb q p) eqn:E.
  - intros [= ->]. apply PathFacts.eqb_eq in E. subst. now left.
  - intros H. right. now apply IH.
Qed.

Lemma stat_none (f : FS) (p : Path) :
  Fs.stat f p = None <-> forall n, ~ In (p, n) f.
Proof.
  induction f as [|[q m] f IH]; simpl.
  - split; [intros _ n []|reflexivity].
  - destruct (PathOps.eqb q p) eqn:E.
    + apply PathFacts.eqb_eq in E. subst. split; [discriminate|].
      intros H. exfalso. apply (H m). now left.
    + apply PathFacts.eqb_neq in E. rewrite IH. split.
      * intros H n [[= -> ->]|Hin]; [now apply E|now apply (H n)].
      * intros H n Hin. apply (H n). now right.
Qed.

Lemma absent_not_dir (f : FS) (p : Path) :
  p <> [] -> Fs.absent f p -> Fs.is_dir f p = false.
Proof.
  intros Hp Ha. unfold Fs.is_dir. destruct p; [contradiction|].
  apply (proj2 (stat_none f (s :: p))) in Ha. now rewrite Ha.
Qed.

Lemma not_exists_absent (f : FS) (p : Path) :
  p <> [] -> Fs.exists_ f p = false -> Fs.absent f p.
Proof.
  intros Hp. unfold Fs.exists_. destruct p; [contradiction|].
  destruct (Fs.stat f (s :: p)) eqn:E; [discriminate|].
  intros _. exact (proj1 (stat_none f (s :: p)) E).
Qed.

Lemma in_remove_tree (f : FS) (p : Path) (e : Path * node) :
  In e (Fs.remove_tree f p) <-> In e f /\ PathOps.is_prefix p (fst e) = false.
Proof. unfold Fs.remove_tree. rewrite filter_In, negb_true_iff. tauto. Qed.

Lemma in_remove_entry (f : FS) (p : Path) (e : Path * node) :
  In e (Fs.remove_entry f p) <-> In e f /\ p <> fst e.
Proof.
  unfold Fs.remove_entry. rewrite filter_In, negb_true_iff, PathFacts.eqb_neq. tauto.
Qed.

Lemma remove_tree_absent (f : FS) (p : Path) : Fs.absent (Fs.remove_tree f p) p.
Proof.
  intros n H. apply in_remove_tree in H. destruct H as [_ H].
  simpl in H. now rewrite PathFacts.is_prefix_refl in H.
Qed.

Lemma in_rename_tree (f : FS) (src dst : Path) (e : Path * node) :
  In e (Fs.rename_tree f src dst) <->
  exists e0, In e0 f /\
             e = (if PathOps.is_prefix src (fst e0)
                  then (dst ++ PathOps.relative_to src (fst e0), snd e0)
                  else e0).
Proof.
  unfold Fs.rename_tree. rewrite in_map_iff.
  split; intros [e0 [H1 H2]]; exists e0; split; auto.
Qed.

Lemma mkdir_from_incl (rest : list string) :
  forall (f : FS) (pre : Path) (f' : FS),
    Fs.mkdir_from f pre rest = Ok f' -> forall e, In e f -> In e f'.
Proof.
  induction rest as [|s rest IH]; intros f pre f'; simpl.
  - intros [= ->]. auto.
  - destruct (Fs.stat f (pre ++ [s])) as [[d|]|]; try discriminate.
    + apply IH.
    + intros H e He. apply (IH _ _ _ H). apply in_or_app. now left.
Qed.

(** What [mkdir] adds are directories on the way to the path asked for. *)
Lemma mkdir_from_new (rest : list string) :
  forall (f : FS) (pre : Path) (f' : FS),
    Fs.mkdir_from f pre rest = Ok f' ->
    forall e, In e f' ->
              In e f \/ (snd e = Dir /\ PathOps.is_prefix (fst e) (pre ++ rest) = true).
Proof.
  induction rest as [|s rest IH]; intros f pre f'; simpl.
  - intros [= ->]. auto.
  - destruct (Fs.stat f (pre ++ [s])) as [[d|]|]; try discriminate.
    + intros H e He. destruct (IH _ _ _ H e He) as [Hin|[Hd Hp]]; [now left|].
      right. split; [exact Hd|]. now rewrite <- app_assoc in Hp.
    + intros H e He. destruct (IH _ _ _ H e He) as [Hin|[Hd Hp]].
      * apply in_app_or in Hin. destruct Hin as [Hin|[<-|[]]]; [now left|].
        right. split; [reflexivity|]. simpl.
        change (pre ++ s :: rest) with (pre ++ [s] ++ rest).
        rewrite app_assoc. apply PathFacts.is_prefix_app.
      * right. split; [exact Hd|]. now rewrite <- app_assoc in Hp.
Qed.

Lemma mkdir_p_new (f : FS) (p : Path) (f' : FS) :
  Fs.mkdir_p f p = Ok f' ->
  forall e, In e f' -> In e f \/ (snd e = Dir /\ PathOps.is_prefix (fst e) p = true).
Proof. unfold Fs.mkdir_p. intros H e He. exact (mkdir_from_new _ _ _ H e He). Qed.

Lemma mkdir_p_incl (f : FS) (p : Path) (f' : FS) :
  Fs.mkdir_p f p = Ok f' -> forall e, In e f -> In e f'.
Proof. unfold Fs.mkdir_p. apply mkdir_from_incl. Qed.

Lemma iterdir_children (f : FS) (p : Path) (items : list Path) :
  Fs.iterdir f p = Ok items ->
  forall item, In item items ->
               PathOps.child_of p item = true /\ exists n, In (item, n) f.
Proof.
  unfold Fs.iterdir. destruct (Fs.is_dir f p); [|discriminate].
  intros [= <-] item H. apply in_map_iff in H.
  destruct H as [[q n] [<- H]]. apply filter_In in H. destruct H as [H1 H2].
  split; [exact H2|now exists n].
Qed.

Lemma stat_app (f g : FS) (p : Path) (n : node) :
  Fs.stat f p = Some n -> Fs.stat (f ++ g) p = Some n.
Proof.
  induction f as [|[q m] f IH]; simpl; [discriminate|].
  destruct (PathOps.eqb q p); auto.
Qed.

Lemma stat_app_new (f : FS) (p : Path) (n : node) :
  Fs.stat f p = None -> Fs.stat (f ++ [(p, n)]) p = Some n.
Proof.
  induction f as [|[q m] f IH]; simpl.
  - now rewrite PathFacts.eqb_refl.
  - destruct (PathOps.eqb q p); [discriminate|exact IH].
Qed.

Lemma mkdir_from_stat (rest : list string) :
  forall (f : FS) (pre : Path) (f' : FS) (p : Path) (n : node),
    Fs.mkdir_from f pre rest = Ok f' -> Fs.stat f p = Some n -> Fs.stat f' p = Some n.
Proof.
  induction rest as [|s rest IH]; intros f pre f' p n; simpl.
  - now intros [= ->].
  - destruct (Fs.stat f (pre ++ [s])) as [[d|]|]; try discriminate.
    + apply IH.
    + intros H Hp. apply (IH _ _ _ _ _ H). now apply stat_app.
Qed.

(** After [mkdir] the path is a directory. *)
Lemma mkdir_from_is_dir (rest : list string) :
  forall (f : FS) (pre : Path) (f' : FS),
    Fs.is_dir f pre = true ->
    Fs.mkdir_from f pre rest = Ok f' -> Fs.is_dir f' (pre ++ rest) = true.
Proof.
  induction rest as [|s rest IH]; intros f pre f' Hpre; simpl.
  - intros [= <-]. now rewrite app_nil_r.
  - change (pre ++ s :: rest) with (pre ++ [s] ++ rest). rewrite app_assoc.
    assert (Hq : forall g, Fs.stat g (pre ++ [s]) = Some Dir ->
                           Fs.is_dir g (pre ++ [s]) = true).
    { intros g Hg. unfold Fs.is_dir. rewrite Hg. now destruct (pre ++ [s]). }
    destruct (Fs.stat f (pre ++ [s])) as [[d|]|] eqn:E; try discriminate.
    + intros H. apply (IH _ _ _ (Hq f E) H).
    + intros H. refine (IH _ _ _ _ H). apply Hq. now apply stat_app_new.
Qed.

Lemma mkdir_p_is_dir (f f' : FS) (p : Path) :
  Fs.mkdir_p f p = Ok f' -> Fs.is_dir f' p = true.
Proof. unfold Fs.mkdir_p. intros H. now apply (mkdir_from_is_dir p f [] (f' := f')). Qed.

(** A move to a place that is no directory, but whose parent is one, is
    a renaming. *)
Lemma move_ok_rename (f f' : FS) (src dst : Path) :
  Fs.is_dir f dst = false ->
  Fs.is_dir f (PathOps.parent dst) = true ->
  Fs.move f src dst = Ok f' ->
  f' = Fs.rename_tree (Fs.remove_entry f dst) src dst /\
  Fs.exists_ f src = true /\ src <> [].
Proof.
  intros Hdir Hpar. unfold Fs.move. destruct src as [|s src]; [discriminate|].
  rewrite Hdir, Hpar. cbn [andb].
  destruct (Fs.exists_ f (s :: src)); cbn [negb]; [|discriminate].
  destruct (Fs.is_dir f (s :: src) && PathOps.is_prefix (s :: src) dst)%bool;
    [discriminate|].
  destruct (Fs.is_dir f (s :: src) && Fs.exists_ f dst)%bool; [discriminate|].
  intros [= <-]. repeat split. discriminate.
Qed.

End FsFacts.

(** ** Relocation with [skip_parent_levels > 0] *)

Lemma snd_bind {A B} (m : M A) (k : A -> M B) (w : world) :
  snd (bind m k w) = match m w with
                     | (Ret a, w1) => snd (k a w1)
                     | (_, w1) => w1
                     end.
Proof. unfold bind. destruct (m w) as [[a|e|] w1]; reflexivity. Qed.

Section Relocation.

Variable self : UnzipService.
Variables temp3 dst : Path.
Variable f0 : FS.

Hypothesis Hskip : 0 < skip_parent_levels (move_config (path_config self)).
Hypothesis Hsd : PathOps.is_prefix temp3 dst = false.
Hypothesis Hds : PathOps.is_prefix dst temp3 = false.












End Relocation.

(** ** The log only grows *)

Section LogFacts.

Context {A B : Type}.




End LogFacts.


Lemma log_grows_save_history (i : string) (s d : Path) : log_grows (save_history i s d).
Proof. intros w. exists []. now rewrite app_nil_r. Qed.




Lemma is_dir_exists (f : FS) (p : Path) : Fs.is_dir f p = true -> Fs.exists_ f p = true.
Proof.
  unfold Fs.is_dir, Fs.exists_. destruct p; [reflexivity|].
  destruct (Fs.stat f (s :: p)) as [[|]|]; try discriminate. reflexivity.
Qed.




(** ** Relocation: everything arrives *)

Lemma div_proper (p : Path) (s : string) : proper_name s -> p // s = p ++ [s].
Proof.
  intros [H1 H2]. unfold PathOps.div.
  apply String.eqb_neq in H1, H2. now rewrite H1, H2.
Qed.

(** An entry of the staging directory goes to [dst_path] under its own
    name, whatever [skip_parent_levels] is. *)
Lemma target_item_of_proper (self : UnzipService) (temp3 dst item : Path) :
  PathOps.child_of temp3 item = true ->
  proper_name (PathOps.name item) ->
  target_item_of self temp3 dst item = dst ++ [PathOps.name item].
Proof.
  intros Hc Hn. unfold target_item_of.
  pose proof (child_relative _ _ Hc) as Hlen.
  apply PathFacts.child_of_iff in Hc. destruct Hc as [x ->].
  rewrite PathFacts.name_snoc in *. rewrite PathFacts.relative_to_app in *.
  destruct (0 <? skip_parent_levels (move_config (path_config self))) eqn:E0;
    [|reflexivity].
  destruct (skip_parent_levels (move_config (path_config self)) <? List.length [x]) eqn:E1.
  - apply Nat.ltb_lt in E0, E1. simpl in E1. lia.
  - now apply div_proper.
Qed.

(** A pass of the loop body that comes back: what it did. *)
Lemma move_item_ret (self : UnzipService) (temp3 dst item : Path) (w w1 : world) :
  let ti := target_item_of self temp3 dst item in
  ti <> [] ->
  move_item self temp3 dst item w = (Ret tt, w1) ->
  exists fa fb,
    (fa = fs w \/ fa = Fs.remove_tree (fs w) ti) /\
    Fs.absent fa ti /\
    Fs.mkdir_p fa (PathOps.parent ti) = Ok fb /\
    Fs.move fb item ti = Ok (fs w1) /\
    history w1 = history w /\
    log w1 = log w ++ [LogMoved item ti].
Proof.
  intros ti Hti H. unfold move_item in H. fold ti in H.
  unfold bind at 1, get_fs in H.
  assert (Hstep1 : exists fa,
             (fa = fs w \/ fa = Fs.remove_tree (fs w) ti) /\
             (ti <> [] -> Fs.absent fa ti) /\
             when (Fs.exists_ (fs w) ti) (fs_do (fun f => Fs.rmtree f ti)) w
             = (Ret tt, {| fs := fa; history := history w; log := log w |})).
  { destruct (Fs.exists_ (fs w) ti) eqn:Ex.
    - unfold when, fs_do, Fs.rmtree in *. unfold bind at 1 in H.
      destruct ti as [|s t] eqn:Eti; [discriminate|]. rewrite <- Eti in *.
      destruct (Fs.is_dir (fs w) ti); [|discriminate].
      exists (Fs.remove_tree (fs w) ti). split; [now right|]. split; [|reflexivity].
      intros _. apply FsFacts.remove_tree_absent.
    - exists (fs w). split; [now left|]. split.
      + intros Hti'. now apply FsFacts.not_exists_absent.
      + destruct w; reflexivity. }
  destruct Hstep1 as (fa & Hfa & Habs & Hwhen).
  unfold bind at 1 in H. rewrite Hwhen in H.
  unfold bind at 1, fs_do at 1 in H. cbn [fs] in H.
  destruct (Fs.mkdir_p fa (PathOps.parent ti)) as [fb|e] eqn:Em; [|discriminate].
  cbn [put_fs fs history log] in H.
  unfold try_except, bind, fs_do, logger, raise in H. cbn [fs] in H.
  destruct (Fs.move fb item ti) as [fc|e] eqn:Emv; [|discriminate].
  cbn [put_fs fs history log] in H. injection H as <-. cbn [fs history log].
  exists fa, fb. repeat split; auto.
Qed.

Lemma exists_in (f : FS) (p : Path) :
  p <> [] -> Fs.exists_ f p = true -> exists n, In (p, n) f.
Proof.
  intros Hp. unfold Fs.exists_. destruct p; [contradiction|].
  destruct (Fs.stat f (s :: p)) as [n|] eqn:E; [|discriminate].
  intros _. exists n. now apply FsFacts.stat_in.
Qed.

Lemma children_same_line (t q : Path) (x y : string) :
  PathOps.is_prefix (t ++ [x]) q = true ->
  PathOps.is_prefix (t ++ [y]) q = true -> x = y.
Proof.
  intros H1 H2. apply PathFacts.is_prefix_iff in H1, H2.
  destruct H1 as [r1 ->]. destruct H2 as [r2 H2].
  rewrite <- !app_assoc in H2. apply app_inv_head in H2. simpl in H2. congruence.
Qed.

Lemma is_prefix_app_l (p r q : Path) :
  PathOps.is_prefix (p ++ r) q = true -> PathOps.is_prefix p q = true.
Proof. apply PathFacts.is_prefix_trans, PathFacts.is_prefix_app. Qed.

Section Arrival.

Variable self : UnzipService.
Variables temp3 dst : Path.
Variable f1 : FS.

Hypothesis Hsd : PathOps.is_prefix temp3 dst = false.
Hypothesis Hds : PathOps.is_prefix dst temp3 = false.

Lemma staging_not_below_dst (r q : Path) :
  PathOps.is_prefix temp3 q = true -> PathOps.is_prefix (dst ++ r) q = false.
Proof.
  intros H. destruct (PathOps.is_prefix (dst ++ r) q) eqn:E; [|reflexivity].
  apply is_prefix_app_l in E.
  apply PathFacts.is_prefix_iff in H. destruct H as [s ->].
  apply PathFacts.is_prefix_comparable in E. destruct E; congruence.
Qed.

Lemma dst_not_below_staging (r q : Path) :
  PathOps.is_prefix dst q = true -> PathOps.is_prefix (temp3 ++ r) q = false.
Proof.
  intros H. destruct (PathOps.is_prefix (temp3 ++ r) q) eqn:E; [|reflexivity].
  apply is_prefix_app_l in E.
  apply PathFacts.is_prefix_iff in H. destruct H as [s ->].
  apply PathFacts.is_prefix_comparable in E. destruct E; congruence.
Qed.

(** One pass of the loop body that comes back. *)
Lemma move_item_arrival (done : list Path) (item : Path) (w w1 : world) :
  PathOps.child_of temp3 item = true ->
  proper_name (PathOps.name item) ->
  move_item self temp3 dst item w = (Ret tt, w1) ->
  arrival_inv temp3 dst f1 done (fs w) ->
  arrival_inv temp3 dst f1 (item :: done) (fs w1).
Proof.
  unfold arrival_inv. intros Hc Hn Hret (Ja & Jb & Jc & Jd).
  pose proof (target_item_of_proper self temp3 dst item Hc Hn) as Eti.
  assert (Hti : target_item_of self temp3 dst item <> []).
  { rewrite Eti. intros E. now apply app_eq_nil in E. }
  destruct (@move_item_ret self temp3 dst item w w1 Hti Hret)
    as (fa & fb & Hfa & Habs & Hmk & Hmv & _ & _).
  rewrite Eti in *. clear Eti Hti Hret.
  apply PathFacts.child_of_iff in Hc. destruct Hc as [x ->].
  rewrite PathFacts.name_snoc in *. rewrite PathFacts.parent_snoc in Hmk.
  set (item := temp3 ++ [x]) in *. set (ti := dst ++ [x]) in *.
  assert (Hfa_incl : forall e, In e fa -> In e (fs w)).
  { intros e He. destruct Hfa as [->| ->]; [exact He|].
    apply FsFacts.in_remove_tree in He. tauto. }
  assert (Hfa_keep : forall p n, In (p, n) (fs w) -> PathOps.is_prefix ti p = false ->
                                 In (p, n) fa).
  { intros p n He Hp. destruct Hfa as [->| ->]; [exact He|].
    apply FsFacts.in_remove_tree. now split. }
  assert (Habs_b : Fs.absent fb ti).
  { intros n Hin. destruct (FsFacts.mkdir_p_new _ _ Hmk _ Hin) as [H|[_ H]].
    - now apply (Habs n).
    - simpl in H. apply PathFacts.is_prefix_length in H.
      unfold ti in H. rewrite length_app in H. simpl in H. lia. }
  assert (Hti : ti <> []) by (unfold ti; intros E; now apply app_eq_nil in E).
  assert (Hpar : Fs.is_dir fb (PathOps.parent ti) = true).
  { unfold ti. rewrite PathFacts.parent_snoc.
    eapply FsFacts.mkdir_p_is_dir; eassumption. }
  destruct (FsFacts.move_ok_rename _ _ _ (FsFacts.absent_not_dir Hti Habs_b) Hpar Hmv)
    as (Hfc & Hex & Hitem).
  (* the entry is not behind us *)
  assert (Hfresh : ~ In item done).
  { intros Hd. destruct (exists_in _ Hitem Hex) as [m Hm].
    destruct (FsFacts.mkdir_p_new _ _ Hmk _ Hm) as [H|[_ H]].
    - apply (Jc item item m Hd (PathFacts.is_prefix_refl item)). now apply Hfa_incl.
    - simpl in H. unfold item in H. apply is_prefix_app_l in H. congruence. }
  (* entries that the pass leaves where they are *)
  assert (Hkeep : forall p n,
             In (p, n) (fs w) -> PathOps.is_prefix ti p = false ->
             PathOps.is_prefix item p = false -> In (p, n) (fs w1)).
  { intros p n He Hp1 Hp2. rewrite Hfc. apply FsFacts.in_rename_tree.
    exists (p, n). simpl. rewrite Hp2. split; [|reflexivity].
    apply FsFacts.in_remove_entry. split.
    - apply (FsFacts.mkdir_p_incl _ _ Hmk). now apply Hfa_keep.
    - simpl. intros <-. now rewrite PathFacts.is_prefix_refl in Hp1. }
  (* entries that the pass moves *)
  assert (Hmoved : forall rest n,
             In (item ++ rest, n) (fs w) -> In (ti ++ rest, n) (fs w1)).
  { intros rest n He. rewrite Hfc. apply FsFacts.in_rename_tree.
    exists (item ++ rest, n). simpl.
    rewrite PathFacts.is_prefix_app, PathFacts.relative_to_app.
    split; [|reflexivity].
    assert (Hp : PathOps.is_prefix ti (item ++ rest) = false).
    { unfold ti, item. rewrite <- app_assoc.
      apply staging_not_below_dst, PathFacts.is_prefix_app. }
    apply FsFacts.in_remove_entry. split.
    - apply (FsFacts.mkdir_p_incl _ _ Hmk). now apply Hfa_keep.
    - simpl. intros E. rewrite <- E in Hp.
      now rewrite PathFacts.is_prefix_refl in Hp. }
  (* where an entry after the pass comes from *)
  assert (Horigin : forall q n,
             In (q, n) (fs w1) ->
             PathOps.is_prefix dst q = true \/
             (PathOps.is_prefix item q = false /\
              (In (q, n) (fs w) \/ PathOps.is_prefix q dst = true))).
  { intros q n He. rewrite Hfc in He. apply FsFacts.in_rename_tree in He.
    destruct He as [[q0 n0] [Hin He]]. simpl in He.
    apply FsFacts.in_remove_entry in Hin. destruct Hin as [Hin _].
    destruct (PathOps.is_prefix item q0) eqn:Hp.
    - injection He as -> ->. left. unfold ti. rewrite <- app_assoc.
      apply PathFacts.is_prefix_app.
    - injection He as -> ->. right. split; [exact Hp|].
      destruct (FsFacts.mkdir_p_new _ _ Hmk _ Hin) as [H|[_ H]].
      + left. now apply Hfa_incl.
      + right. exact H. }
  assert (Hother : forall item', In item' done -> exists x', item' = temp3 ++ [x'] /\ x' <> x).
  { intros item' Hd. destruct (proj1 (PathFacts.child_of_iff _ _) (Jd item' Hd)) as [x' ->].
    exists x'. split; [reflexivity|]. intros ->. now apply Hfresh. }
  repeat split.
  - intros item' rest n [<-|Hd] Hin.
    + replace (PathOps.name item) with x
        by (unfold item; now rewrite PathFacts.name_snoc).
      apply Hmoved.
      destruct (Jb (item ++ rest) n) as [[item'' [Hd' Hp']]|H]; auto.
      * unfold item. rewrite <- app_assoc. apply PathFacts.is_prefix_app.
      * exfalso. destruct (Hother item'' Hd') as [x' [-> Hx']].
        apply Hx'. apply (children_same_line temp3 (item ++ rest)); auto.
        apply PathFacts.is_prefix_app.
    + destruct (Hother item' Hd) as [x' [-> Hx']]. rewrite PathFacts.name_snoc.
      apply Hkeep.
      * specialize (Ja (temp3 ++ [x']) rest n Hd Hin).
        now rewrite PathFacts.name_snoc in Ja.
      * destruct (PathOps.is_prefix ti ((dst ++ [x']) ++ rest)) eqn:E; [|reflexivity].
        exfalso. apply Hx'. symmetry.
        apply (children_same_line dst ((dst ++ [x']) ++ rest)); auto.
        apply PathFacts.is_prefix_app.
      * rewrite <- app_assoc. apply dst_not_below_staging, PathFacts.is_prefix_app.
  - intros p n Hp Hin. destruct (Jb p n Hp Hin) as [[item'' [Hd' Hp']]|H].
    + left. exists item''. split; [now right|exact Hp'].
    + destruct (PathOps.is_prefix item p) eqn:E.
      * left. exists item. split; [now left|exact E].
      * right. apply Hkeep; auto. now apply (staging_not_below_dst [x]).
  - intros item' q n Hd Hp Hin.
    assert (Hq : PathOps.is_prefix temp3 q = true).
    { destruct Hd as [<-|Hd]; [now apply is_prefix_app_l in Hp|].
      destruct (Hother item' Hd) as [x' [-> _]]. now apply is_prefix_app_l in Hp. }
    destruct (Horigin q n Hin) as [H|[Hnot [H|H]]].
    + apply PathFacts.is_prefix_iff in H. destruct H as [r ->].
      apply PathFacts.is_prefix_comparable in Hq. destruct Hq; congruence.
    + destruct Hd as [<-|Hd]; [congruence|]. now apply (Jc item' q n Hd Hp).
    + rewrite (PathFacts.is_prefix_trans _ _ _ Hq H) in Hsd. discriminate.
  - intros item' [<-|Hd]; [|now apply Jd].
    apply PathFacts.child_of_iff. now exists x.
Qed.

(** The loop, when it comes back. *)
Lemma for_each_arrival (items : list Path) :
  forall (done : list Path) (w w' : world),
    (forall item, In item items ->
                  PathOps.child_of temp3 item = true /\ proper_name (PathOps.name item)) ->
    for_each items (move_item self temp3 dst) w = (Ret tt, w') ->
    arrival_inv temp3 dst f1 done (fs w) ->
    arrival_inv temp3 dst f1 (rev items ++ done) (fs w').
Proof.
  induction items as [|item items IH]; intros done w w' Hitems Hret HJ.
  - injection Hret as <-. exact HJ.
  - cbn [for_each] in Hret. unfold bind in Hret.
    destruct (move_item self temp3 dst item w) as [[[]|e|] w1] eqn:E1;
      try discriminate.
    destruct (Hitems item (or_introl eq_refl)) as [Hc Hn].
    assert (HJ1 : arrival_inv temp3 dst f1 (item :: done) (fs w1))
      by (eapply move_item_arrival; eassumption).
    cbn [rev]. rewrite <- app_assoc. cbn [app].
    apply (IH (item :: done) w1 w'); auto.
    intros i Hi. apply Hitems. now right.
Qed.

End Arrival.

(** ** The history collection *)

Section HistoryFacts.

Context {A B : Type}.

Lemma fs_only_keeps_history (m : M A) : fs_only m -> keeps_history m.
Proof. intros H w. apply H. Qed.

Lemma keeps_history_bind (m : M A) (k : A -> M B) :
  keeps_history m -> (forall a, keeps_history (k a)) -> keeps_history (bind m k).
Proof.
  intros Hm Hk w. rewrite snd_bind. specialize (Hm w).
  destruct (m w) as [[a|e|] w1]; cbn [snd] in *; auto.
  now rewrite Hk.
Qed.

Lemma keeps_history_try_except (m : M A) (h : exn -> M A) :
  keeps_history m -> (forall e, keeps_history (h e)) -> keeps_history (try_except m h).
Proof.
  intros Hm Hh w. unfold try_except. specialize (Hm w).
  destruct (m w) as [[a|e|] w1]; cbn [snd] in *; auto.
  now rewrite Hh.
Qed.

End HistoryFacts.

Lemma keeps_history_logger (m : log_msg) : keeps_history (logger m).
Proof. intros w. reflexivity. Qed.

Lemma keeps_history_for_each {A} (l : list A) (body : A -> M unit) :
  (forall x, keeps_history (body x)) -> keeps_history (for_each l body).
Proof.
  intros H. induction l as [|x l IH]; simpl.
  - intros w. reflexivity.
  - apply keeps_history_bind; auto.
Qed.

Lemma keeps_history_move_item (self : UnzipService) (temp3 dst item : Path) :
  keeps_history (move_item self temp3 dst item).
Proof.
  unfold move_item.
  apply keeps_history_bind; [apply fs_only_keeps_history, fs_only_get_fs|intros f].
  apply keeps_history_bind; [apply fs_only_keeps_history; auto with fs_only|intros _].
  apply keeps_history_bind; [apply fs_only_keeps_history; auto with fs_only|intros _].
  apply keeps_history_try_except; [|intros e; apply fs_only_keeps_history, fs_only_raise].
  apply keeps_history_bind; [apply fs_only_keeps_history; auto with fs_only|intros _].
  apply keeps_history_logger.
Qed.

Lemma keeps_history_clear_target (dst : Path) : keeps_history (clear_target dst).
Proof.
  unfold clear_target.
  apply keeps_history_bind; [apply fs_only_keeps_history, fs_only_get_fs|intros f].
  apply keeps_history_bind; [|intros _; apply fs_only_keeps_history; auto with fs_only].
  destruct (Fs.exists_ f dst); simpl; [|apply fs_only_keeps_history, fs_only_ret].
  apply keeps_history_bind; [apply keeps_history_logger|intros _].
  apply fs_only_keeps_history; auto with fs_only.
Qed.

Lemma returns_move_item (self : UnzipService) (temp3 dst item : Path) :
  returns (move_item self temp3 dst item).
Proof. unfold move_item. auto 10 with returns. Qed.

Lemma returns_clear_target (dst : Path) : returns (clear_target dst).
Proof. unfold clear_target. auto 10 with returns. Qed.

(** What [clear_target] does to the entries of the file system. *)
Lemma clear_target_entries (dst : Path) (w : world) :
  (forall e, In e (fs (snd (clear_target dst w))) ->
             In e (fs w) \/ PathOps.is_prefix (fst e) dst = true) /\
  (fst (clear_target dst w) = Ret tt ->
   forall e, In e (fs w) -> PathOps.is_prefix dst (fst e) = false ->
             In e (fs (snd (clear_target dst w)))).
Proof.
  unfold clear_target, bind, get_fs.
  assert (Hstep : exists fa,
             (fa = fs w \/ fa = Fs.remove_tree (fs w) dst) /\
             forall r w1,
               when (Fs.exists_ (fs w) dst)
                    (bind (logger (LogRemovingTarget dst))
                          (fun _ => fs_do (fun f => Fs.rmtree f dst))) w = (r, w1) ->
               (fs w1 = fa \/ (fs w1 = fs w /\ r <> Ret tt))).
  { destruct (Fs.exists_ (fs w) dst); unfold when.
    - unfold bind, logger, fs_do, Fs.rmtree. cbn [fs].
      destruct dst as [|s d] eqn:Ed.
      + exists (fs w). split; [now left|]. intros r w1 [= <- <-]. now left.
      + rewrite <- Ed. destruct (Fs.is_dir (fs w) dst).
        * exists (Fs.remove_tree (fs w) dst). split; [now right|].
          intros r w1 [= <- <-]. now left.
        * exists (fs w). split; [now left|]. intros r w1 [= <- <-]. now left.
    - exists (fs w). split; [now left|]. intros r w1 [= <- <-]. now left. }
  destruct Hstep as (fa & Hfa & Hwhen).
  destruct (when _ _ w) as [r w1] eqn:Ew. specialize (Hwhen r w1 eq_refl).
  assert (Hincl : forall e, In e (fs w1) -> In e (fs w)).
  { intros e He. destruct Hwhen as [Hw|[Hw _]]; rewrite Hw in He; [|exact He].
    destruct Hfa as [->| ->]; [exact He|]. apply FsFacts.in_remove_tree in He. tauto. }
  assert (Hkeep : r = Ret tt -> forall e, In e (fs w) ->
                                          PathOps.is_prefix dst (fst e) = false ->
                                          In e (fs w1)).
  { intros Hr e He Hp. destruct Hwhen as [Hw|[_ Hw]]; [|contradiction].
    rewrite Hw. destruct Hfa as [->| ->]; [exact He|].
    apply FsFacts.in_remove_tree. now split. }
  destruct r as [[]|e|]; cbn [fst snd]; try (split; [auto|discriminate]).
  unfold fs_do. destruct (Fs.mkdir_p (fs w1) dst) as [f2|e] eqn:Em; cbn [put_fs fst snd fs].
  - split.
    + intros e He. destruct (FsFacts.mkdir_p_new _ _ Em _ He) as [H|[_ H]]; auto.
    + intros _ e He Hp. apply (FsFacts.mkdir_p_incl _ _ Em). now apply Hkeep.
  - split; [auto|discriminate].
Qed.

Lemma iterdir_complete (f : FS) (p : Path) (items : list Path) (item : Path) (n : node) :
  Fs.iterdir f p = Ok items ->
  In (item, n) f -> PathOps.child_of p item = true -> In item items.
Proof.
  unfold Fs.iterdir. destruct (Fs.is_dir f p); [|discriminate].
  intros [= <-] Hin Hc. apply in_map_iff. exists (item, n). split; [reflexivity|].
  apply filter_In. now split.
Qed.

(** [_move_to_target], case by case. *)
Lemma move_to_target_cases
      (self : UnzipService) (temp3 : Path) (_id : string) (src : Path) (w : world) :
  let dst := dst_path_of self _id in
  _move_to_target self temp3 _id src w =
    if negb (FileHelper.contains_files (fs w) temp3)
    then (Ret tt, with_log w (fs w) [LogNoFilesToMove temp3])
    else
      match clear_target dst w with
      | (Ret _, w1) =>
          match Fs.iterdir (fs w1) temp3 with
          | Err e => (Raise e, w1)
          | Ok items =>
              match for_each items (move_item self temp3 dst) w1 with
              | (Ret _, w2) => save_history _id src dst w2
              | (Raise e, w2) => (Raise e, w2)
              | (Timeout, w2) => (Timeout, w2)
              end
          end
      | (Raise e, w1) => (Raise e, w1)
      | (Timeout, w1) => (Timeout, w1)
      end.
Proof.
  intros dst. unfold _move_to_target. fold dst.
  unfold bind at 1, get_fs.
  destruct (negb (FileHelper.contains_files (fs w) temp3)); [reflexivity|].
  unfold bind at 1. destruct (clear_target dst w) as [[[]|e|] w1]; try reflexivity.
  unfold bind at 1, fs_ask.
  destruct (Fs.iterdir (fs w1) temp3) as [items|e]; [|reflexivity].
  unfold bind. destruct (for_each items (move_item self temp3 dst) w1) as [[[]|e|] w2];
    reflexivity.
Qed.

(** X20. [_move_to_target] comes back.  When it raises, the history
    collection is as it was.  When it returns and the staging tree had no
    file, the history collection is as it was, too.  When it returns and
    the staging tree had files, exactly one document has been added, with
    the id, the source path and the destination of the item; and then
    (the staging tree and the destination not overlapping, the entries
    of the staging directory having proper names) every entry of the
    staging directory, with all that was at or below it, is at its place
    below the destination. *)
Theorem history_written_after_relocation
        (self : UnzipService) (temp3 : Path) (_id : string) (src : Path) (w : world) :
  let r := _move_to_target self temp3 _id src w in
  let dst := dst_path_of self _id in
  let document := {| h_id := _id;
                     h_src_path := PathOps.to_str src;
                     h_dst_path := PathOps.to_str dst |} in
  fst r <> Timeout /\
  (forall e, fst r = Raise e -> history (snd r) = history w) /\
  (fst r = Ret tt ->
   FileHelper.contains_files (fs w) temp3 = false ->
   history (snd r) = history w) /\
  (fst r = Ret tt ->
   FileHelper.contains_files (fs w) temp3 = true ->
   history (snd r) = history w ++ [document] /\
   (PathOps.is_prefix temp3 dst = false ->
    PathOps.is_prefix dst temp3 = false ->
    (forall item m, In (item, m) (fs w) -> PathOps.child_of temp3 item = true ->
                    proper_name (PathOps.name item)) ->
    arrived temp3 dst (fs w) (fs (snd r)))).
Proof.
  intros r dst document. subst r. rewrite move_to_target_cases. fold dst.
  destruct (FileHelper.contains_files (fs w) temp3) eqn:Hcf; cbn [negb].
  2:{ cbn [fst snd]. repeat split; try discriminate. }
  pose proof (keeps_history_clear_target dst w) as Hh1.
  pose proof (returns_clear_target dst w) as Hr1.
  pose proof (clear_target_entries dst w) as [Hnew Hkept].
  destruct (clear_target dst w) as [[[]|e1|] w1]; cbn [fst snd] in *;
    try (repeat split; try discriminate; try congruence; fail).
  destruct (Fs.iterdir (fs w1) temp3) as [items|e2] eqn:Eit; cbn [fst snd];
    try (repeat split; try discriminate; try congruence; fail).
  pose proof (@keeps_history_for_each _ items (move_item self temp3 dst)
                (keeps_history_move_item self temp3 dst) w1) as Hh2.
  pose proof (@returns_for_each _ items (move_item self temp3 dst)
                (returns_move_item self temp3 dst) w1) as Hr2.
  destruct (for_each items (move_item self temp3 dst) w1) as [[[]|e3|] w2] eqn:Eloop;
    cbn [fst snd] in *;
    try (repeat split; try discriminate; try congruence; fail).
  unfold save_history. cbn [fst snd history fs].
  split; [discriminate|]. split; [discriminate|]. split; [discriminate|].
  intros _ _. split; [unfold document; congruence|].
  intros Hsd Hds Hnames item m rest n Hc Hin Hin'.
  assert (Hstaging : forall q, PathOps.is_prefix temp3 q = true ->
                               PathOps.is_prefix dst q = false).
  { intros q Hq. destruct (PathOps.is_prefix dst q) eqn:E; [|reflexivity].
    apply PathFacts.is_prefix_iff in E. destruct E as [s ->].
    apply PathFacts.is_prefix_comparable in Hq. destruct Hq; congruence. }
  assert (Hitem_staging : PathOps.is_prefix temp3 item = true).
  { apply PathFacts.child_of_iff in Hc. destruct Hc as [x ->].
    apply PathFacts.is_prefix_app. }
  assert (HJ0 : arrival_inv temp3 dst (fs w1) [] (fs w1)).
  { repeat split; try (intros; contradiction). intros; now right. }
  assert (Hitems : forall i, In i items ->
                             PathOps.child_of temp3 i = true /\
                             proper_name (PathOps.name i)).
  { intros i Hi. destruct (FsFacts.iterdir_children _ _ Eit i Hi) as [Hci [mi Hmi]].
    split; [exact Hci|]. apply (Hnames i mi); [|exact Hci].
    destruct (Hnew _ Hmi) as [H|H]; [exact H|]. exfalso. simpl in H.
    apply PathFacts.child_of_iff in Hci. destruct Hci as [x ->].
    apply is_prefix_app_l in H. congruence. }
  pose proof (@for_each_arrival self temp3 dst (fs w1) Hsd Hds items [] w1 w2
                Hitems Eloop HJ0) as (Ja & _).
  apply Ja.
  - rewrite app_nil_r. apply in_rev. rewrite rev_involutive.
    eapply iterdir_complete; [exact Eit| |exact Hc].
    apply Hkept; [reflexivity|exact Hin|]. simpl. now apply Hstaging.
  - apply Hkept; [reflexivity|exact Hin'|]. simpl. apply Hstaging.
    apply PathFacts.is_prefix_trans with item; [exact Hitem_staging|].
    apply PathFacts.is_prefix_app.
Qed.

(** A witness: the staged tree of the item [X], moved below
    [/target/X]. *)
Lemma history_written_after_relocation_witness :
  let w := Sample.empty_world Sample.staged_fs in
  let r := _move_to_target (Sample.service LOIBUS 0) ["temp3"; "X"] "X" ["src"; "X"] w in
  fst r = Ret tt /\
  history (snd r) = [{| h_id := "X"; h_src_path := "/src/X"; h_dst_path := "/target/X" |}] /\
  arrived ["temp3"; "X"] ["target"; "X"] Sample.staged_fs (fs (snd r)).
Proof.
  cbv zeta.
  destruct (history_written_after_relocation (Sample.service LOIBUS 0) ["temp3"; "X"] "X"
              ["src"; "X"] (Sample.empty_world Sample.staged_fs)) as (_ & _ & _ & H).
  assert (Hret : fst (_move_to_target (Sample.service LOIBUS 0) ["temp3"; "X"] "X"
                        ["src"; "X"] (Sample.empty_world Sample.staged_fs)) = Ret tt)
    by (vm_compute; reflexivity).
  assert (Hcf : FileHelper.contains_files
                  (fs (Sample.empty_world Sample.staged_fs)) ["temp3"; "X"] = true)
    by (vm_compute; reflexivity).
  destruct (H Hret Hcf) as [Hh Harr].
  split; [exact Hret|]. split; [exact Hh|].
  apply Harr.
  - vm_compute. reflexivity.
  - vm_compute. reflexivity.
  - intros item m Hin Hc. simpl in Hin.
    repeat (destruct Hin as [Hin|Hin];
            [injection Hin as <- <-;
             try (vm_compute in Hc; discriminate Hc);
             split; discriminate|]).
    destruct Hin.
Defined.

(** C5. The work item [X] is the folder [/src/X] with the text file
    [notes.txt] next to the archive [a.zip].  A run of
    [process_archives] returns and writes the history document of [X],
    yet of the two files of the item only what was in the archive is
    below the target: [notes.txt] was never staged and is still in the
    source folder.  [cleanup], which [main] runs next, then removes the
    source folder on the strength of that document, and [notes.txt] is
    nowhere. *)
Theorem record_written_for_item_with_lost_file :
  let self := Sample2.service_for_X in
  let w := Sample.empty_world Sample2.mixed_fs in
  let r := process_archives Sample.unpack Sample.unpack Sample.unpack self 2 w in
  let c := cleanup self (snd r) in
  fst r = Ret tt /\
  history (snd r) = [{| h_id := "X"; h_src_path := "/src/X";
                        h_dst_path := "/target/[X] title" |}] /\
  Fs.rglob (fs (snd r)) ["target"]
  = [["target"; "[X] title"; "file.txt"]; ["target"; "[X] title"]] /\
  Fs.is_file (fs (snd r)) ["src"; "X"; "notes.txt"] = true /\
  fst c = Ret tt /\
  Fs.rglob (fs (snd c)) ["target"]
  = [["target"; "[X] title"; "file.txt"]; ["target"; "[X] title"]] /\
  Fs.rglob (fs (snd c)) ["src"] = [].
Proof. vm_compute. repeat split; reflexivity. Qed.

(** ** Fragment collection: the list that comes back *)

Module SortFacts.

Lemma string_compare_refl (s : string) : String.compare s s = Eq.
Proof.
  pose proof (String.compare_antisym s s) as H.
  destruct (String.compare s s); simpl in H; congruence.
Qed.

Lemma compare_antisym (p q : Path) :
  PathOps.compare p q = CompOpp (PathOps.compare q p).
Proof.
  revert q. induction p as [|a p IH]; intros [|b q]; simpl; try reflexivity.
  rewrite (String.compare_antisym a b).
  destruct (String.compare b a); simpl; auto.
Qed.

Lemma leb_total (p q : Path) : PathOps.leb p q = false -> PathOps.leb q p = true.
Proof.
  unfold PathOps.leb. rewrite (compare_antisym p q).
  destruct (PathOps.compare q p); simpl; congruence.
Qed.

(** In one directory the order of the paths is the order of the names. *)
Lemma compare_same_dir (d : Path) (a b : string) :
  PathOps.compare (d ++ [a]) (d ++ [b]) = String.compare a b.
Proof.
  induction d as [|s d IH]; simpl.
  - destruct (String.compare a b); reflexivity.
  - now rewrite string_compare_refl.
Qed.

Lemma insert_in (p x : Path) (l : list Path) :
  In x (PathOps.insert p l) <-> x = p \/ In x l.
Proof.
  induction l as [|q l IH]; simpl.
  - intuition.
  - destruct (PathOps.leb p q); simpl; [intuition|].
    rewrite IH. intuition.
Qed.

Lemma sorted_in (x : Path) (l : list Path) : In x (PathOps.sorted l) <-> In x l.
Proof.
  induction l as [|p l IH]; simpl; [tauto|].
  rewrite insert_in, IH. intuition.
Qed.

Lemma insert_hd (p a : Path) (l : list Path) :
  path_le a p -> HdRel path_le a l -> HdRel path_le a (PathOps.insert p l).
Proof.
  intros Hap Hl. destruct l as [|q l]; simpl.
  - now constructor.
  - destruct (PathOps.leb p q); constructor; auto.
    now inversion Hl.
Qed.

Lemma insert_sorted (p : Path) (l : list Path) :
  Sorted path_le l -> Sorted path_le (PathOps.insert p l).
Proof.
  induction l as [|q l IH]; intros Hs; simpl.
  - repeat constructor.
  - destruct (PathOps.leb p q) eqn:E.
    + constructor; [exact Hs|]. constructor. exact E.
    + apply Sorted_inv in Hs. destruct Hs as [Hs Hh].
      constructor; [now apply IH|].
      apply insert_hd; [|exact Hh]. now apply leb_total.
Qed.

Lemma sorted_sorted (l : list Path) : Sorted path_le (PathOps.sorted l).
Proof.
  induction l as [|p l IH]; simpl; [constructor|now apply insert_sorted].
Qed.

End SortFacts.

Lemma find_rfind (sub s : string) (i : nat) :
  Str.find sub s = Some i -> exists j, Str.rfind sub s = Some j.
Proof.
  revert i. induction s as [|c s IH]; intros i; cbn [Str.find Str.rfind option_map].
  - destruct (String.prefix sub ""); [eauto|intros H; discriminate H].
  - destruct (Str.rfind sub s) as [j|] eqn:Er; [eauto|].
    destruct (String.prefix sub (String c s)); [eauto|].
    destruct (Str.find sub s) as [i'|]; [|intros H; discriminate H].
    intros _. destruct (IH i' eq_refl) as [j Hj]. discriminate Hj.
Qed.

Lemma contains_rfind (sub s : string) :
  Str.contains sub s = true -> exists j, Str.rfind sub s = Some j.
Proof.
  unfold Str.contains. destruct (Str.find sub s) as [i|] eqn:E; [|discriminate].
  intros _. now apply find_rfind with i.
Qed.

Lemma contains_find (sub s : string) :
  Str.contains sub s = true -> exists i, Str.find sub s = Some i.
Proof.
  unfold Str.contains. destruct (Str.find sub s) as [i|]; [eauto|discriminate].
Qed.

(** A file without part name is its own and only fragment. *)
Lemma collect_fragments_single (file_path : Path) (w : world) :
  _is_multipart_archive file_path = false ->
  collect_fragments file_path w = (Ret [file_path], w).
Proof. intros H. unfold collect_fragments. now rewrite H. Qed.

(** ** The history collection over a whole work item *)

Lemma keeps_history_ret {A} (a : A) : keeps_history (ret a).
Proof. intros w. reflexivity. Qed.

Lemma keeps_history_fs_only {A} (m : M A) : fs_only m -> keeps_history m.
Proof. intros H w. apply H. Qed.

Lemma keeps_history_for_fold {A S} (l : list A) (s : S) (body : A -> S -> M S) :
  (forall x s, keeps_history (body x s)) -> keeps_history (for_fold l s body).
Proof.
  intros H. revert s. induction l as [|x l IH]; intros s; simpl.
  - apply keeps_history_ret.
  - apply keeps_history_bind; auto.
Qed.

Lemma keeps_history_try_finally {A} (m : M A) (c : M unit) :
  keeps_history m -> keeps_history c -> keeps_history (try_finally m c).
Proof.
  intros Hm Hc w. unfold try_finally. specialize (Hm w).
  destruct (m w) as [r w1]. specialize (Hc w1).
  destruct (c w1) as [[u|e|] w2]; simpl in *; congruence.
Qed.

Create HintDb history.
#[local] Hint Resolve keeps_history_ret keeps_history_logger keeps_history_for_each
  keeps_history_for_fold keeps_history_move_item keeps_history_clear_target : history.
#[local] Hint Extern 1 (keeps_history get_fs) =>
  apply keeps_history_fs_only, fs_only_get_fs : history.
#[local] Hint Extern 1 (keeps_history (fs_do _)) =>
  apply keeps_history_fs_only, fs_only_fs_do : history.
#[local] Hint Extern 1 (keeps_history (fs_ask _)) =>
  apply keeps_history_fs_only, fs_only_fs_ask : history.
#[local] Hint Extern 1 (keeps_history (raise _)) =>
  apply keeps_history_fs_only, fs_only_raise : history.
#[local] Hint Extern 1 (keeps_history (run_codec _ _ _ _)) =>
  apply keeps_history_fs_only, fs_only_run_codec : history.
#[local] Hint Extern 1 (keeps_history (FileHelper.make_directory _)) =>
  apply keeps_history_fs_only, fs_only_make_directory : history.
#[local] Hint Extern 1 (keeps_history (FileHelper.merge_files _ _)) =>
  apply keeps_history_fs_only, fs_only_merge_files : history.
#[local] Hint Extern 2 (keeps_history (bind _ _)) =>
  apply keeps_history_bind; [|intros] : history.
#[local] Hint Extern 2 (keeps_history (try_except _ _)) =>
  apply keeps_history_try_except; [|intros] : history.
#[local] Hint Extern 2 (keeps_history (try_finally _ _)) =>
  apply keeps_history_try_finally : history.
#[local] Hint Extern 2 (keeps_history (when ?b _)) => destruct b; simpl : history.
#[local] Hint Extern 3 (keeps_history (if ?b then _ else _)) => destruct b : history.
#[local] Hint Extern 3 (keeps_history (match ?x with _ => _ end)) => destruct x : history.

Section WorkItemFacts.

Variables extract_7z extract_zip extract_rar : codec.
Variable self : UnzipService.

Lemma keeps_history_extract_archive (a : ArchiveInfo) (out : Path) :
  keeps_history (extract_archive extract_7z extract_zip extract_rar a out).
Proof.
  unfold extract_archive, extract_funcs, ensure_output_dir, direct_extraction,
    merged_extraction, remove_merged.
  auto 14 with history.
Qed.

Lemma keeps_history_move_archives (temp_path : Path) (_id : string) :
  keeps_history (_move_archives_to_zip_temp self temp_path _id).
Proof.
  unfold _move_archives_to_zip_temp, remove_existing. auto 14 with history.
Qed.

Lemma keeps_history_collect_fragments (file_path : Path) :
  keeps_history (collect_fragments file_path).
Proof.
  unfold collect_fragments, _collect_multipart_archive, up_to_rindex, up_to_index.
  auto 14 with history.
Qed.

Lemma keeps_history_process_temp_file (_id : string) (file_path : Path) (b : bool) :
  keeps_history (process_temp_file extract_7z extract_zip extract_rar self _id file_path b).
Proof.
  unfold process_temp_file.
  pose proof keeps_history_extract_archive.
  pose proof keeps_history_move_archives.
  pose proof keeps_history_collect_fragments.
  auto 14 with history.
Qed.

Lemma keeps_history_loop (fuel : nat) (_id : string) :
  keeps_history
    (_process_unzip_temp_archives extract_7z extract_zip extract_rar self fuel _id).
Proof.
  induction fuel as [|fuel IH]; cbn [_process_unzip_temp_archives].
  - intros w. reflexivity.
  - pose proof keeps_history_process_temp_file. auto 14 with history.
Qed.

Lemma keeps_history_extract_to_target_temp (a : ArchiveInfo) (temp_path : Path) :
  keeps_history (_extract_to_target_temp extract_7z extract_zip extract_rar a temp_path).
Proof.
  unfold _extract_to_target_temp.
  pose proof keeps_history_extract_archive. auto 14 with history.
Qed.

Lemma keeps_then_adds {A B} (doc : HistoryRecord) (m : M A) (k : A -> M B) :
  keeps_history m -> (forall a, adds_at_most doc (k a)) -> adds_at_most doc (bind m k).
Proof.
  intros Hm Hk w. unfold bind. specialize (Hm w).
  destruct (m w) as [[a|e|] w1]; cbn [fst snd] in *; auto.
  destruct (Hk a w1) as [H|[H1 H2]]; [left|right; split; auto]; congruence.
Qed.

Lemma adds_try_except_raise {A} (doc : HistoryRecord) (m : M A) :
  adds_at_most doc m -> adds_at_most doc (try_except m (fun e => raise e)).
Proof.
  intros Hm w. unfold try_except, raise. specialize (Hm w).
  destruct (m w) as [[a|e|] w1]; cbn [fst snd] in *; auto.
Qed.

Lemma move_to_target_adds (temp3 : Path) (_id : string) (src : Path) :
  adds_at_most {| h_id := _id;
                  h_src_path := PathOps.to_str src;
                  h_dst_path := PathOps.to_str (dst_path_of self _id) |}
               (_move_to_target self temp3 _id src).
Proof.
  intros w. rewrite move_to_target_cases.
  destruct (negb _); [now left|].
  pose proof (keeps_history_clear_target (dst_path_of self _id) w) as H1.
  destruct (clear_target _ w) as [[[]|e|] w1]; cbn [fst snd] in *; auto.
  destruct (Fs.iterdir _ _) as [items|e]; cbn [fst snd]; auto.
  pose proof (@keeps_history_for_each _ items
                (move_item self temp3 (dst_path_of self _id))
                (keeps_history_move_item self _ _) w1) as H2.
  destruct (for_each items _ w1) as [[[]|e|] w2]; cbn [fst snd] in *;
    try (left; congruence).
  right. split; [now exists tt|]. unfold save_history. cbn [snd history]. congruence.
Qed.

(** X17. Over a whole work item the history collection gets at most
    one document, the one of [_move_to_target], and only when
    [_process_single_id] returns. *)
Lemma process_single_id_history (fuel : nat) (_id : string) (files : list Path)
      (source_path : Path) :
  adds_at_most {| h_id := _id;
                  h_src_path := PathOps.to_str source_path;
                  h_dst_path := PathOps.to_str (dst_path_of self _id) |}
               (_process_single_id extract_7z extract_zip extract_rar self fuel _id files
                                   source_path).
Proof.
  unfold _process_single_id.
  apply adds_try_except_raise.
  apply keeps_then_adds; [auto with history|intros f].
  apply keeps_then_adds.
  { pose proof keeps_history_extract_to_target_temp.
    pose proof keeps_history_move_archives.
    auto 14 with history. }
  intros _. apply keeps_then_adds; [apply keeps_history_loop|intros _].
  apply move_to_target_adds.
Qed.

End WorkItemFacts.

(* ================================================================== *)
(** * Further properties of the code *)
(* ================================================================== *)

(** ** Strings *)

Module StrFacts.

Lemma length_app (a b : string) :
  String.length (a ++ b) = String.length a + String.length b.
Proof. induction a as [|c a IH]; simpl; congruence. Qed.

Lemma substring_all (b : string) : String.substring 0 (String.length b) b = b.
Proof. induction b as [|c b IH]; simpl; congruence. Qed.

Lemma substring_skip (a b : string) (n : nat) :
  String.substring (String.length a) n (a ++ b) = String.substring 0 n b.
Proof. induction a as [|c a IH]; simpl; auto. Qed.

Lemma endswith_app (a b : string) : Str.endswith (a ++ b) b = true.
Proof.
  unfold Str.endswith, Str.drop. rewrite length_app.
  replace (String.length b <=? String.length a + String.length b) with true
    by (symmetry; apply Nat.leb_le; lia).
  replace (String.length a + String.length b - String.length b)
    with (String.length a) by lia.
  replace (String.length a + String.length b - String.length a)
    with (String.length b) by lia.
  rewrite substring_skip, substring_all. apply String.eqb_refl.
Qed.

Lemma lower_app (a b : string) : Str.lower (a ++ b) = (Str.lower a ++ Str.lower b)%string.
Proof. induction a as [|c a IH]; simpl; congruence. Qed.

Lemma app_assoc (a b c : string) : ((a ++ b) ++ c = a ++ (b ++ c))%string.
Proof. induction a as [|x a IH]; simpl; congruence. Qed.

Lemma prefix_dot (c : ascii) (s : string) :
  String.prefix "." (String c s) = true -> c = "."%char.
Proof.
  cbn [String.prefix]. destruct (ascii_dec "." c) as [E|]; intros H;
    [symmetry; exact E|discriminate H].
Qed.

(** Cutting a name at its last dot does not move its first dot. *)
Lemma split_head_take_rfind (n : string) (i : nat) :
  Str.rfind "." n = Some i ->
  Str.split_head "." (Str.take i n) = Str.split_head "." n.
Proof.
  revert i. induction n as [|c n IH]; intros i.
  - cbn [Str.rfind String.prefix]. intros H; discriminate H.
  - cbn [Str.rfind]. destruct (Str.rfind "." n) as [j|] eqn:E.
    + intros [= <-]. unfold Str.take in *. cbn [String.substring Str.split_head].
      destruct (Ascii.eqb c "."); [reflexivity|]. now rewrite IH.
    + destruct (String.prefix "." (String c n)) eqn:P; [|discriminate].
      intros [= <-]. apply prefix_dot in P. subst c. reflexivity.
Qed.

Lemma find_replace_slash (s : string) : Str.find "/" (Str.replace "/" "_" s) = None.
Proof.
  induction s as [|c s IH]; [reflexivity|].
  cbn [Str.replace Str.find]. rewrite IH.
  destruct (Ascii.eqb c "/") eqn:E.
  - reflexivity.
  - cbn [String.prefix]. destruct (ascii_dec "/" c) as [<-|]; [discriminate E|reflexivity].
Qed.

Lemma find_slash_take (s : string) (k : nat) :
  Str.find "/" s = None -> Str.find "/" (Str.take k s) = None.
Proof.
  unfold Str.take. revert k. induction s as [|c s IH]; intros k.
  - destruct k; reflexivity.
  - destruct k as [|k]; [reflexivity|].
    cbn [String.substring Str.find].
    destruct (String.prefix "/" (String c s)) eqn:P; [discriminate|].
    destruct (Str.find "/" s) eqn:F; [discriminate|]. intros _.
    rewrite (IH k eq_refl).
    cbn [String.prefix] in *. destruct (ascii_dec "/" c); [|reflexivity].
    destruct s; discriminate P.
Qed.

End StrFacts.

(** ** The grouping key of [_prepare_archive_info] *)

(** X1. The key under which [_prepare_archive_info] files a path,
    [file_path.stem.split('.')[0]], is the name of the file up to its
    first dot: taking the stem first changes nothing.  So [a.zip],
    [a.zip.001], [a.part1.rar] and [a.txt] all go under the key [a]. *)
Theorem base_name_is_name_up_to_first_dot (file_path : Path) :
  base_name_of file_path = Str.split_head "." (PathOps.name file_path).
Proof.
  unfold base_name_of, PathOps.stem.
  destruct (Str.rfind "." (PathOps.name file_path)) as [i|] eqn:E; [|reflexivity].
  destruct ((0 <? i) && (i <? String.length (PathOps.name file_path) - 1))%bool;
    [|reflexivity].
  now apply StrFacts.split_head_take_rfind.
Qed.

(** ** [_is_multipart_archive] and [_generate_folder_name] *)

Lemma part_digits_lower :
  forallb (fun i => String.eqb (Str.lower (Str.zfill 3 (Str.of_nat i)))
                               (Str.zfill 3 (Str.of_nat i)))
          part_numbers = true.
Proof. vm_compute. reflexivity. Qed.

(** X2. A file whose name ends in [.7z.NNN] or [.zip.NNN], with [NNN] the
    three-digit form of a number from 1 to 998 and the extension in any
    letter case, is taken for a part of a multi-part archive, whatever
    comes before the extension. *)
Theorem numbered_parts_are_multipart (p : Path) (base ext : string) (i : nat) :
  1 <= i <= 998 ->
  Str.lower ext = "7z" \/ Str.lower ext = "zip" ->
  PathOps.name p = (base ++ "." ++ ext ++ "." ++ Str.zfill 3 (Str.of_nat i))%string ->
  _is_multipart_archive p = true.
Proof.
  intros Hi Hext Hn. unfold _is_multipart_archive. rewrite Hn.
  assert (Hin : In i part_numbers) by (apply in_seq; lia).
  pose proof (proj1 (forallb_forall _ _) part_digits_lower i Hin) as Hd.
  apply String.eqb_eq in Hd.
  rewrite !StrFacts.lower_app, Hd.
  change (Str.lower ".") with ".".
  destruct Hext as [-> | ->].
  - match goal with
    | |- (?a || _ || _ || _)%bool = true => assert (Ha : a = true)
    end.
    { apply existsb_exists. exists i. split; [exact Hin|].
      exact (StrFacts.endswith_app (Str.lower base)
               (".7z." ++ Str.zfill 3 (Str.of_nat i))). }
    rewrite Ha. reflexivity.
  - match goal with
    | |- (_ || ?b || _ || _)%bool = true => assert (Hb : b = true)
    end.
    { apply existsb_exists. exists i. split; [exact Hin|].
      exact (StrFacts.endswith_app (Str.lower base)
               (".zip." ++ Str.zfill 3 (Str.of_nat i))). }
    rewrite Hb. rewrite Bool.orb_true_r. reflexivity.
Qed.

(** A witness: [Video.7Z.012] under [src]. *)
Lemma numbered_parts_are_multipart_witness :
  _is_multipart_archive ["src"; "Video.7Z.012"] = true.
Proof.
  apply (@numbered_parts_are_multipart ["src"; "Video.7Z.012"] "Video" "7Z" 12).
  - lia.
  - left. reflexivity.
  - reflexivity.
Defined.

Lemma take_all_but_last (c d : ascii) (s : string) :
  Str.take (String.length (String c (String d s)) - 1) (String c (String d s))
  = String c (Str.take (String.length s) (String d s)).
Proof. unfold Str.take. cbn [String.length]. rewrite Nat.sub_1_r. reflexivity. Qed.

(** X3. When the [Pieces] collection has a document for the id, the
    folder name that [_generate_folder_name] gives is one path segment:
    it has no slash in it, and it is neither empty nor a single dot, so
    that [root / folder_name] is a direct child of [root]. *)
Theorem folder_name_is_one_segment (self : UnzipService) (_id : string) (r : PiecesRecord) :
  query_pieces_by_id (pieces_dao self) _id = Some r ->
  proper_name (_generate_folder_name self _id) /\
  Str.contains "/" (_generate_folder_name self _id) = false.
Proof.
  intros Hq. unfold _generate_folder_name. rewrite Hq.
  set (t := match title r with
            | Some t => t
            | None => match loi_title r with Some t => t | None => "" end
            end).
  set (name := Str.replace "/" "_" ("[" ++ _id ++ "] " ++ t)).
  assert (Hslash : Str.find "/" name = None) by apply StrFacts.find_replace_slash.
  assert (Hhead : exists d s, name = String "[" (String d s)).
  { unfold name. destruct _id as [|c i]; cbn; eauto. }
  destruct Hhead as (d & s & Hname).
  split.
  - destruct (Str.endswith name ".").
    + rewrite Hname, take_all_but_last. split; intros H; discriminate H.
    + rewrite Hname. split; intros H; discriminate H.
  - unfold Str.contains. destruct (Str.endswith name ".").
    + now rewrite StrFacts.find_slash_take.
    + now rewrite Hslash.
Qed.

(** A witness: the title [a/b title.] of the id [A]. *)
Lemma folder_name_is_one_segment_witness :
  proper_name (_generate_folder_name Sample2.service_with_pieces "A") /\
  Str.contains "/" (_generate_folder_name Sample2.service_with_pieces "A") = false.
Proof.
  apply (@folder_name_is_one_segment Sample2.service_with_pieces "A"
           {| p_id := "A"; title := Some "a/b title."; loi_title := None;
              unzip_key := Some "x"; open_key := None |}).
  reflexivity.
Defined.

(** ** Dictionaries and loops *)

Lemma dict_get_in_key {V} (d : list (string * V)) (k : string) (v : V) :
  Dict.get d k = Some v -> In (k, v) d.
Proof.
  induction d as [|[k' v'] d IH]; simpl; [intros H; discriminate H|].
  destruct (String.eqb k' k) eqn:E.
  - intros [= ->]. apply String.eqb_eq in E. subst. now left.
  - intros H. right. now apply IH.
Qed.

Lemma dict_get_set {V} (d : list (string * V)) (k k' : string) (v : V) :
  Dict.get (Dict.set d k v) k' = if String.eqb k k' then Some v else Dict.get d k'.
Proof.
  induction d as [|[k0 v0] d IH]; simpl.
  - destruct (String.eqb k k'); reflexivity.
  - destruct (String.eqb k0 k) eqn:E0; simpl.
    + apply String.eqb_eq in E0. subst k0.
      destruct (String.eqb k k'); reflexivity.
    + rewrite IH. destruct (String.eqb k0 k') eqn:E1; [|reflexivity].
      apply String.eqb_eq in E1. subst k'. now rewrite String.eqb_sym, E0.
Qed.

Lemma for_fold_inv {A S} (I : S -> world -> Prop) (body : A -> S -> M S) (l : list A) :
  (forall x s w s' w', In x l -> I s w -> body x s w = (Ret s', w') -> I s' w') ->
  forall s w s' w', I s w -> for_fold l s body w = (Ret s', w') -> I s' w'.
Proof.
  induction l as [|x l IH]; intros Hbody s w s' w' HI.
  - cbn. intros [= <- <-]. exact HI.
  - cbn [for_fold]. unfold bind at 1.
    destruct (body x s w) as [[s1|e|] w1] eqn:E; try (intros H; discriminate H).
    apply IH.
    + intros y t u t' u' Hy. apply Hbody. now right.
    + eapply Hbody; [now left|exact HI|exact E].
Qed.

Lemma for_each_never_raises {A} (body : A -> M unit) (l : list A) :
  (forall x w e w', body x w <> (Raise e, w')) ->
  forall w e w', for_each l body w <> (Raise e, w').
Proof.
  intros Hbody. induction l as [|x l IH]; intros w e w'.
  - cbn. intros H; discriminate H.
  - cbn [for_each]. unfold bind at 1.
    destruct (body x w) as [[[]|e1|] w1] eqn:E.
    + apply IH.
    + intros [= -> ->]. exact (Hbody _ _ _ _ E).
    + intros H; discriminate H.
Qed.

(** ** [_prepare_archive_info] *)

Lemma prepare_archive_info_fold (self : UnzipService) (f : FS) (_id : string)
      (files : list Path) :
  _prepare_archive_info self f _id files
  = fold_left (file_into_units self f _id) (PathOps.sorted files) [].
Proof. reflexivity. Qed.

Lemma file_into_units_spec (self : UnzipService) (f : FS) (_id : string)
      (seen : list Path) (acc : list (string * ArchiveInfo)) (p : Path) :
  (forall b a, In (b, a) acc ->
               type a = detect_archive_type f (path a) /\
               type a <> UNKNOWN /\
               (exists rest, parts a = path a :: rest) /\
               (forall q, In q (parts a) -> In q seen /\ base_name_of q = b)) ->
  forall b a, In (b, a) (file_into_units self f _id acc p) ->
              type a = detect_archive_type f (path a) /\
              type a <> UNKNOWN /\
              (exists rest, parts a = path a :: rest) /\
              (forall q, In q (parts a) -> In q (seen ++ [p]) /\ base_name_of q = b).
Proof.
  intros Hacc b a. unfold file_into_units.
  assert (Hold : In (b, a) acc ->
                 type a = detect_archive_type f (path a) /\
                 type a <> UNKNOWN /\
                 (exists rest, parts a = path a :: rest) /\
                 (forall q, In q (parts a) -> In q (seen ++ [p]) /\ base_name_of q = b)).
  { intros Hin. destruct (Hacc _ _ Hin) as (H1 & H2 & H3 & H4).
    repeat (split; [assumption|]). intros q Hq. destruct (H4 q Hq).
    split; [apply in_or_app; now left|assumption]. }
  destruct (Dict.get acc (Str.split_head "." (PathOps.stem p))) as [a1|] eqn:Eg.
  - intros Hin. apply dict_set_in in Hin. destruct Hin as [[= -> ->]|Hin]; [|auto].
    apply dict_get_in_key in Eg. destruct (Hacc _ _ Eg) as (H1 & H2 & [rest H3] & H4).
    cbn [type path parts]. split; [exact H1|]. split; [exact H2|]. split.
    + exists (rest ++ [p]). now rewrite H3.
    + intros q Hq. apply in_app_or in Hq. destruct Hq as [Hq|[<-|[]]].
      * destruct (H4 q Hq). split; [apply in_or_app; now left|assumption].
      * split; [apply in_or_app; right; now left|reflexivity].
  - cbv zeta. destruct (negb (ArchiveType_eqb (detect_archive_type f p) UNKNOWN)) eqn:En;
      [|auto].
    intros Hin. apply dict_set_in in Hin. destruct Hin as [[= -> ->]|Hin]; [|auto].
    cbn [type path parts]. split; [reflexivity|]. split.
    + intros Hu. rewrite Hu in En. discriminate En.
    + split; [now exists []|]. intros q [<-|[]].
      split; [apply in_or_app; right; now left|reflexivity].
Qed.

(** X4. Every unit that [_prepare_archive_info] makes is a group of the
    given files: its type is the one detected from the header of its
    [path], and is not [UNKNOWN]; its parts begin with its [path]; and
    every part is one of the given files and has the unit's key as its
    name up to the first dot. *)
Theorem prepared_units_are_groups (self : UnzipService) (f : FS) (_id : string)
        (files : list Path) (b : string) (a : ArchiveInfo) :
  In (b, a) (_prepare_archive_info self f _id files) ->
  type a = detect_archive_type f (path a) /\
  type a <> UNKNOWN /\
  (exists rest, parts a = path a :: rest) /\
  (forall q, In q (parts a) -> In q files /\ base_name_of q = b).
Proof.
  rewrite prepare_archive_info_fold.
  assert (H : forall l b a,
             In (b, a) (fold_left (file_into_units self f _id) l []) ->
             type a = detect_archive_type f (path a) /\
             type a <> UNKNOWN /\
             (exists rest, parts a = path a :: rest) /\
             (forall q, In q (parts a) -> In q l /\ base_name_of q = b)).
  { clear b a. induction l as [|p l IH] using rev_ind; intros b a.
    - intros [].
    - rewrite fold_left_app. cbn [fold_left].
      apply file_into_units_spec. exact IH. }
  intros Hin. destruct (H _ _ _ Hin) as (H1 & H2 & H3 & H4).
  repeat (split; [assumption|]). intros q Hq. destruct (H4 q Hq) as [Hs Hb].
  split; [|exact Hb]. now apply SortFacts.sorted_in.
Qed.

(** A witness: the unit [a] of a folder with [a.zip], [a.zip.001] and
    [a.txt]. *)
Lemma prepared_units_are_groups_witness :
  let files := [["src"; "X"; "a.zip"]; ["src"; "X"; "a.zip.001"]; ["src"; "X"; "a.txt"]] in
  let a := {| path := ["src"; "X"; "a.zip"]; type := ZIP;
              parts := [["src"; "X"; "a.zip"]; ["src"; "X"; "a.zip.001"]];
              password := "y" |} in
  type a = detect_archive_type Sample2.group_fs (path a) /\
  type a <> UNKNOWN /\
  (exists rest, parts a = path a :: rest) /\
  (forall q, In q (parts a) -> In q files /\ base_name_of q = "a").
Proof.
  cbv zeta.
  apply (@prepared_units_are_groups (Sample.service LOIBUS 0) Sample2.group_fs "X"
           [["src"; "X"; "a.zip"]; ["src"; "X"; "a.zip.001"]; ["src"; "X"; "a.txt"]]
           "a"
           {| path := ["src"; "X"; "a.zip"]; type := ZIP;
              parts := [["src"; "X"; "a.zip"]; ["src"; "X"; "a.zip.001"]];
              password := "y" |}).
  vm_compute. left. reflexivity.
Defined.

(** ** [_collect_archive_files] *)

Lemma collect_archive_files_fold (self : UnzipService) :
  _collect_archive_files self
  = (items <- fs_ask (fun f => Fs.iterdir f (source_dir (path_config self))) ;;
     for_fold items ([], []) (collect_item self)).
Proof. reflexivity. Qed.

(** X5. When [_collect_archive_files] returns, the two dictionaries go
    together: an id has a source entry exactly when it has a file list;
    the source entry is an entry of the source directory with that id,
    and the file list is the one of that very entry (the entry itself
    when it is a file, all that lies below it otherwise).  The call has
    changed neither the file system nor the history collection. *)
Theorem collected_files_belong_to_source (self : UnzipService) (w w' : world)
        (id_files : list (string * list Path)) (id_sources : list (string * Path)) :
  _collect_archive_files self w = (Ret (id_files, id_sources), w') ->
  fs w' = fs w /\ history w' = history w /\
  forall _id,
    match Dict.get id_sources _id with
    | Some src =>
        Dict.get id_files _id = Some (files_of (fs w) src) /\
        _get_path_id (fs w) src = _id /\
        PathOps.child_of (source_dir (path_config self)) src = true
    | None => Dict.get id_files _id = None
    end.
Proof.
  rewrite collect_archive_files_fold. unfold bind at 1, fs_ask at 1.
  destruct (Fs.iterdir (fs w) (source_dir (path_config self))) as [items|e] eqn:Ei;
    [|intros H; discriminate H].
  intros Hrun.
  pose (I := fun (acc : list (string * list Path) * list (string * Path)) (w1 : world) =>
               fs w1 = fs w /\ history w1 = history w /\
               forall _id,
                 match Dict.get (snd acc) _id with
                 | Some src =>
                     Dict.get (fst acc) _id = Some (files_of (fs w) src) /\
                     _get_path_id (fs w) src = _id /\
                     PathOps.child_of (source_dir (path_config self)) src = true
                 | None => Dict.get (fst acc) _id = None
                 end).
  assert (HI : I (id_files, id_sources) w').
  { refine (@for_fold_inv _ _ I (collect_item self) items _ _ _ _ _ _ Hrun).
    - intros item [idf ids] w1 s1 w2 Hitem (Hf & Hh & Hd).
      unfold collect_item, bind, get_fs, get_history. cbn [fst snd] in Hd.
      assert (Hskip : forall (m : M bool),
                 (forall b w3, m w1 = (Ret b, w3) -> w3 = w1) ->
                 match m w1 with
                 | (Ret a, w3) =>
                     (if a
                      then fun w4 => match logger (LogSkippingProcessed item) w4 with
                                     | (Ret _, w5) => ret (idf, ids) w5
                                     | (Raise e, w5) => (Raise e, w5)
                                     | (Timeout, w5) => (Timeout, w5)
                                     end
                      else ret (Dict.set idf (_get_path_id (fs w1) item)
                                  (if Fs.is_file (fs w1) item then [item]
                                   else Fs.rglob (fs w1) item),
                                Dict.set ids (_get_path_id (fs w1) item) item)) w3
                 | (Raise e, w3) => (Raise e, w3)
                 | (Timeout, w3) => (Timeout, w3)
                 end = (Ret s1, w2) -> I s1 w2).
      { intros m Hm. destruct (m w1) as [[[|]|e|] w3] eqn:Em;
          try (intros H; discriminate H).
        - rewrite (Hm _ _ eq_refl). unfold logger, ret. intros [= <- <-].
          unfold I. cbn [fs history fst snd]. auto.
        - rewrite (Hm _ _ eq_refl). unfold ret. intros [= <- <-].
          unfold I. cbn [fst snd]. split; [exact Hf|]. split; [exact Hh|].
          intros k. rewrite !dict_get_set, Hf.
          destruct (String.eqb (_get_path_id (fs w) item) k) eqn:Ek; [|apply Hd].
          apply String.eqb_eq in Ek. split; [reflexivity|]. split; [exact Ek|].
          exact (proj1 (FsFacts.iterdir_children _ _ Ei item Hitem)). }
      destruct (query_history_by_src_path (history w1) item);
        [|destruct (query_history_by_id (history w1) (_get_path_id (fs w1) item))];
        apply Hskip; intros b w3; unfold fs_ask, ret;
          try (destruct (_is_all_processed self (fs w1) (_get_path_id (fs w1) item)));
          intros H; congruence.
    - unfold I. cbn [fst snd Dict.get]. auto. }
  exact HI.
Qed.

(** A witness: the source folder [X] with one text file. *)
Lemma collected_files_belong_to_source_witness :
  let w := Sample.empty_world Sample.plain_fs in
  let id_files := [("X", [["src"; "X"; "notes.txt"]])] in
  let id_sources := [("X", ["src"; "X"])] in
  fs w = fs w /\ history w = history w /\
  forall _id,
    match Dict.get id_sources _id with
    | Some src =>
        Dict.get id_files _id = Some (files_of (fs w) src) /\
        _get_path_id (fs w) src = _id /\
        PathOps.child_of (source_dir (path_config (Sample.service LOIBUS 0))) src = true
    | None => Dict.get id_files _id = None
    end.
Proof.
  cbv zeta.
  apply (@collected_files_belong_to_source (Sample.service LOIBUS 0)
           (Sample.empty_world Sample.plain_fs) (Sample.empty_world Sample.plain_fs)
           [("X", [["src"; "X"; "notes.txt"]])] [("X", ["src"; "X"])]).
  vm_compute. reflexivity.
Defined.

(** ** [process_archives] *)

Section RunFacts.

Variables extract_7z extract_zip extract_rar : codec.
Variable self : UnzipService.

Lemma try_except_logged {A} (m : M A) (h : exn -> M A) (w : world) (e : exn) (w' : world) :
  (forall e1 w1 e2 w2, h e1 w1 <> (Raise e2, w2)) ->
  try_except m h w <> (Raise e, w').
Proof.
  intros Hh. unfold try_except. destruct (m w) as [[a|e1|] w1].
  - intros H; discriminate H.
  - apply Hh.
  - intros H; discriminate H.
Qed.

(** X6. A failure while one id is processed never ends the run:
    [process_archives] raises only when the staging directories cannot
    be prepared or the source directory cannot be gone through, and
    then with that very exception. *)
Theorem process_archives_contains_failures (fuel : nat) (w : world) (e : exn) (w' : world) :
  process_archives extract_7z extract_zip extract_rar self fuel w = (Raise e, w') ->
  prepare_temp_dirs self w = (Raise e, w') \/
  exists w0, prepare_temp_dirs self w = (Ret tt, w0) /\
             _collect_archive_files self w0 = (Raise e, w').
Proof.
  unfold process_archives. unfold bind at 1.
  destruct (prepare_temp_dirs self w) as [[[]|e0|] w0] eqn:Ep.
  - unfold bind at 1.
    destruct (_collect_archive_files self w0) as [[[id_files id_sources]|e1|] w1] eqn:Ec.
    + intros H. exfalso. revert H. apply for_each_never_raises.
      intros [_id files] v e2 v'. apply try_except_logged.
      intros e3 v1 e4 v2 H. discriminate H.
    + intros [= -> ->]. right. exists w0. split; [reflexivity|exact Ec].
    + intros H; discriminate H.
  - intros [= -> ->]. now left.
  - intros H; discriminate H.
Qed.

End RunFacts.

(** A witness: without a source directory the run ends with the error of
    listing it. *)
Lemma process_archives_contains_failures_witness :
  let self := Sample.service LOIBUS 0 in
  let w := Sample.empty_world [] in
  let w' := snd (process_archives Sample.corrupt Sample.corrupt Sample.corrupt self 1 w) in
  prepare_temp_dirs self w = (Raise OSError, w') \/
  exists w0, prepare_temp_dirs self w = (Ret tt, w0) /\
             _collect_archive_files self w0 = (Raise OSError, w').
Proof.
  cbv zeta.
  apply (@process_archives_contains_failures Sample.corrupt Sample.corrupt Sample.corrupt
           (Sample.service LOIBUS 0) 1 (Sample.empty_world [])).
  vm_compute. reflexivity.
Defined.

(** ** The file system: what a removal and a write leave alone *)

Module FsMore.

Lemma stat_filter (keep : Path -> bool) (f : FS) (p : Path) :
  keep p = true ->
  Fs.stat (filter (fun e => keep (fst e)) f) p = Fs.stat f p.
Proof.
  intros Hp. induction f as [|[q m] f IH]; [reflexivity|].
  cbn [filter fst Fs.stat]. destruct (PathOps.eqb q p) eqn:E.
  - apply PathFacts.eqb_eq in E. subst q. rewrite Hp. cbn [Fs.stat].
    now rewrite PathFacts.eqb_refl.
  - destruct (keep q); [cbn [Fs.stat]; now rewrite E|exact IH].
Qed.

Lemma stat_remove_tree (f : FS) (d p : Path) :
  PathOps.is_prefix d p = false -> Fs.stat (Fs.remove_tree f d) p = Fs.stat f p.
Proof.
  intros H. unfold Fs.remove_tree.
  apply (stat_filter (fun q => negb (PathOps.is_prefix d q))). now rewrite H.
Qed.

Lemma stat_remove_entry (f : FS) (d p : Path) :
  d <> p -> Fs.stat (Fs.remove_entry f d) p = Fs.stat f p.
Proof.
  intros H. unfold Fs.remove_entry.
  apply (stat_filter (fun q => negb (PathOps.eqb d q))).
  apply PathFacts.eqb_neq in H. now rewrite H.
Qed.

Lemma stat_app_other (f : FS) (p q : Path) (n : node) :
  p <> q -> Fs.stat (f ++ [(p, n)]) q = Fs.stat f q.
Proof.
  intros H. induction f as [|[r m] f IH]; cbn [app Fs.stat].
  - apply PathFacts.eqb_neq in H. now rewrite H.
  - destruct (PathOps.eqb r q); [reflexivity|exact IH].
Qed.

Lemma stat_replace (f : FS) (p q : Path) (n : node) :
  Fs.stat (map (fun e => if PathOps.eqb p (fst e) then (p, n) else e) f) q
  = if PathOps.eqb p q then match Fs.stat f p with Some _ => Some n | None => None end
    else Fs.stat f q.
Proof.
  induction f as [|[r m] f IH]; cbn [map fst Fs.stat].
  - destruct (PathOps.eqb p q); reflexivity.
  - destruct (PathOps.eqb p r) eqn:Epr.
    + apply PathFacts.eqb_eq in Epr. subst r. cbn [Fs.stat].
      rewrite PathFacts.eqb_refl. destruct (PathOps.eqb p q); [reflexivity|exact IH].
    + cbn [Fs.stat]. destruct (PathOps.eqb r q) eqn:Erq.
      * apply PathFacts.eqb_eq in Erq. subst r. rewrite Epr.
        reflexivity.
      * rewrite IH. destruct (PathOps.eqb p q) eqn:Epq; [|reflexivity].
        apply PathFacts.eqb_eq in Epq. subst q.
        assert (Erp : PathOps.eqb r p = false).
        { apply PathFacts.eqb_neq. intros ->. now rewrite PathFacts.eqb_refl in Epr. }
        now rewrite Erp.
Qed.

(** What [Fs.write] does to what [stat] sees. *)
Lemma stat_write (f f' : FS) (p q : Path) (d : list byte) :
  Fs.write f p d = Ok f' ->
  Fs.stat f' q = if PathOps.eqb p q then Some (File d) else Fs.stat f q.
Proof.
  unfold Fs.write. destruct p as [|s p0] eqn:Ep; [intros H; discriminate H|].
  rewrite <- Ep. clear Ep.
  destruct (negb (Fs.is_dir f (PathOps.parent p))); [intros H; discriminate H|].
  destruct (Fs.is_dir f p) eqn:Ed; [intros H; discriminate H|].
  destruct (Fs.is_file f p) eqn:Ef; intros [= <-].
  - rewrite stat_replace. unfold Fs.is_file in Ef.
    destruct (Fs.stat f p) as [[x|]|]; try discriminate Ef. reflexivity.
  - destruct (PathOps.eqb p q) eqn:E.
    + apply PathFacts.eqb_eq in E. subst q. apply FsFacts.stat_app_new.
      unfold Fs.is_file in Ef. unfold Fs.is_dir in Ed.
      destruct (Fs.stat f p) as [[x|]|];
        [discriminate Ef|destruct p; discriminate Ed|reflexivity].
    + apply stat_app_other. now apply PathFacts.eqb_neq.
Qed.

Lemma is_dir_stat (f g : FS) (p : Path) :
  Fs.stat g p = Fs.stat f p -> Fs.is_dir g p = Fs.is_dir f p.
Proof. unfold Fs.is_dir. now intros ->. Qed.

Lemma is_dir_in (f : FS) (p : Path) :
  p <> [] -> Fs.is_dir f p = true -> In (p, Dir) f.
Proof.
  intros Hp. unfold Fs.is_dir. destruct p; [contradiction|].
  destruct (Fs.stat f (s :: p)) as [[x|]|] eqn:E; try discriminate.
  intros _. now apply FsFacts.stat_in.
Qed.

Lemma is_file_in (f : FS) (p : Path) :
  Fs.is_file f p = true -> exists d, In (p, File d) f.
Proof.
  unfold Fs.is_file. destruct (Fs.stat f p) as [[x|]|] eqn:E; try discriminate.
  intros _. exists x. now apply FsFacts.stat_in.
Qed.

Lemma is_file_not_dir (f : FS) (p : Path) :
  p <> [] -> Fs.is_file f p = true -> Fs.is_dir f p = false.
Proof.
  intros Hp. unfold Fs.is_file, Fs.is_dir. destruct p as [|s p0]; [contradiction|].
  destruct (Fs.stat f (s :: p0)) as [[x|]|]; intros H; try discriminate H; reflexivity.
Qed.

Lemma not_exists_not_dir (f : FS) (p : Path) :
  p <> [] -> Fs.exists_ f p = false -> Fs.is_dir f p = false.
Proof.
  intros Hp Hx. apply FsFacts.absent_not_dir; [exact Hp|].
  now apply FsFacts.not_exists_absent.
Qed.

(** What a directory made anew looks like: [fa] is the file system
    after whatever was at [d] has been removed from [f]. *)
Lemma fresh_dir (f fa f' : FS) (d : Path) :
  (forall e, In e fa -> In e f) ->
  (forall p n, In (p, n) fa -> PathOps.below d p = false) ->
  (forall e, In e f -> PathOps.is_prefix d (fst e) = false -> In e fa) ->
  Fs.mkdir_p fa d = Ok f' ->
  Fs.is_dir f' d = true /\
  empty_below f' d /\
  (forall e, In e f -> PathOps.is_prefix d (fst e) = false -> In e f') /\
  (forall e, In e f' -> In e f \/ (snd e = Dir /\ PathOps.is_prefix (fst e) d = true)).
Proof.
  intros Hsub Hempty Hkeep Hm. split; [exact (FsFacts.mkdir_p_is_dir _ _ Hm)|].
  split; [|split].
  - intros p n Hin. destruct (FsFacts.mkdir_p_new _ _ Hm _ Hin) as [H|[_ H]].
    + exact (Hempty _ _ H).
    + now apply PathFacts.above_not_below.
  - intros e He Hp. apply (FsFacts.mkdir_p_incl _ _ Hm). now apply Hkeep.
  - intros e He. destruct (FsFacts.mkdir_p_new _ _ Hm _ He) as [H|H]; auto.
Qed.

End FsMore.

(** ** [FileHelper.make_directory] *)

(** What is at [path] is removed, a file by [unlink] and a directory by
    [rmtree]: afterwards nothing is below [path]. *)
Lemma clear_path_spec (path : Path) (w w1 : world) :
  path <> [] ->
  rooted_at (fs w) path ->
  when (Fs.exists_ (fs w) path)
       (if Fs.is_file (fs w) path
        then fs_do (fun f => Fs.unlink f path)
        else fs_do (fun f => Fs.rmtree f path)) w = (Ret tt, w1) ->
  history w1 = history w /\ log w1 = log w /\
  (forall e, In e (fs w1) -> In e (fs w)) /\
  (forall p n, In (p, n) (fs w1) -> PathOps.below path p = false) /\
  (forall e, In e (fs w) -> PathOps.is_prefix path (fst e) = false -> In e (fs w1)).
Proof.
  intros Hpath Hroot. unfold when, fs_do, ret.
  assert (Hnone : Fs.is_dir (fs w) path = false ->
                  forall p n, In (p, n) (fs w) -> PathOps.below path p = false).
  { intros Hd p n Hin. destruct (PathOps.below path p) eqn:Eb; [|reflexivity].
    rewrite (Hroot _ _ Hin Eb) in Hd. discriminate Hd. }
  destruct (Fs.exists_ (fs w) path) eqn:Ex.
  - destruct (Fs.is_file (fs w) path) eqn:Ef.
    + unfold Fs.unlink. rewrite Ef. unfold put_fs. intros [= <-]. cbn [fs history log].
      repeat (split; [reflexivity|]).
      assert (Hd : Fs.is_dir (fs w) path = false)
        by now apply FsMore.is_file_not_dir.
      split; [|split].
      * intros e He. apply FsFacts.in_remove_entry in He. tauto.
      * intros p n Hin. apply FsFacts.in_remove_entry in Hin.
        apply (Hnone Hd p n). tauto.
      * intros e He Hp. apply FsFacts.in_remove_entry. split; [exact He|].
        intros ->. now rewrite PathFacts.is_prefix_refl in Hp.
    + unfold Fs.rmtree. destruct path as [|s p0] eqn:Ep; [intros H; discriminate H|].
      rewrite <- Ep in *. destruct (Fs.is_dir (fs w) path); [|intros H; discriminate H].
      unfold put_fs. intros [= <-]. cbn [fs history log].
      repeat (split; [reflexivity|]). split; [|split].
      * intros e He. apply FsFacts.in_remove_tree in He. tauto.
      * intros p n Hin. apply FsFacts.in_remove_tree in Hin. cbn [fst] in Hin.
        destruct (PathOps.below path p) eqn:Eb; [|reflexivity].
        apply PathFacts.below_iff in Eb. destruct Hin, Eb. congruence.
      * intros e He Hp. apply FsFacts.in_remove_tree. now split.
  - intros [= <-]. repeat (split; [reflexivity|]). split; [auto|]. split; [|auto].
    apply Hnone. now apply FsMore.not_exists_not_dir.
Qed.

(** X7. When [make_directory] returns for a [path] other than the root,
    [path] is a directory with nothing below it, whatever was there
    before, a file, a directory with its content, or nothing.  Of what
    was elsewhere nothing is lost, and the only new entries are
    directories on the way to [path].  History and log are as before.
    What is below [path] must have [path] as its directory. *)
Theorem make_directory_gives_empty_directory (path : Path) (w w' : world) :
  path <> [] ->
  rooted_at (fs w) path ->
  FileHelper.make_directory path w = (Ret tt, w') ->
  Fs.is_dir (fs w') path = true /\
  empty_below (fs w') path /\
  (forall e, In e (fs w) -> PathOps.is_prefix path (fst e) = false -> In e (fs w')) /\
  (forall e, In e (fs w') ->
             In e (fs w) \/ (snd e = Dir /\ PathOps.is_prefix (fst e) path = true)) /\
  history w' = history w /\ log w' = log w.
Proof.
  intros Hpath Hroot.
  unfold FileHelper.make_directory. unfold bind at 1. unfold get_fs at 1.
  unfold bind.
  destruct (when _ _ w) as [[[]|e|] w1] eqn:E1; try (intros H; discriminate H).
  destruct (@clear_path_spec path w w1 Hpath Hroot E1) as (Hh & Hl & Hsub & Hempty & Hkeep).
  unfold fs_do. destruct (Fs.mkdir_p (fs w1) path) as [f'|e] eqn:Em;
    [|intros H; discriminate H].
  unfold put_fs. intros [= <-]. cbn [fs history log].
  destruct (@FsMore.fresh_dir (fs w) (fs w1) f' path Hsub Hempty Hkeep Em)
    as (H1 & H2 & H3 & H4).
  split; [exact H1|]. split; [exact H2|]. split; [exact H3|]. split; [exact H4|].
  split; congruence.
Qed.

(** A witness: the directory [/in] with an archive in it. *)
Lemma make_directory_gives_empty_directory_witness :
  let w := Sample.empty_world Sample.one_part_fs in
  let w' := snd (FileHelper.make_directory ["in"] w) in
  Fs.is_dir (fs w') ["in"] = true /\
  empty_below (fs w') ["in"] /\
  (forall e, In e (fs w) -> PathOps.is_prefix ["in"] (fst e) = false -> In e (fs w')) /\
  (forall e, In e (fs w') ->
             In e (fs w) \/ (snd e = Dir /\ PathOps.is_prefix (fst e) ["in"] = true)) /\
  history w' = history w /\ log w' = log w.
Proof.
  cbv zeta.
  apply (@make_directory_gives_empty_directory ["in"]
           (Sample.empty_world Sample.one_part_fs)).
  - intros H; discriminate H.
  - intros p n _ _. reflexivity.
  - vm_compute. reflexivity.
Defined.

(** ** [process_archives]: the staging directories *)

(** One pass of the first loop of [process_archives]. *)
Lemma wipe_step (d : Path) (w w1 : world) :
  d <> [] ->
  rooted_at (fs w) d ->
  (try_except (fs_do (fun f => Fs.rmtree f d)) (fun _ => ret tt) ;;
   fs_do (fun f => Fs.mkdir_p f d)) w = (Ret tt, w1) ->
  (Fs.is_dir (fs w1) d = true /\
   empty_below (fs w1) d /\
   (forall e, In e (fs w) -> PathOps.is_prefix d (fst e) = false -> In e (fs w1)) /\
   (forall e, In e (fs w1) ->
              In e (fs w) \/ (snd e = Dir /\ PathOps.is_prefix (fst e) d = true))) /\
  (forall q n, PathOps.is_prefix d q = false ->
               Fs.stat (fs w) q = Some n -> Fs.stat (fs w1) q = Some n) /\
  history w1 = history w /\ log w1 = log w.
Proof.
  intros Hd Hroot. unfold bind, try_except, fs_do, ret, Fs.rmtree.
  destruct d as [|s d0] eqn:Ed; [contradiction|]. rewrite <- Ed in *. clear Ed.
  destruct (Fs.is_dir (fs w) d) eqn:Edir.
  - unfold put_fs. cbn [fs history log].
    destruct (Fs.mkdir_p (Fs.remove_tree (fs w) d) d) as [f'|e] eqn:Em;
      [|intros H; discriminate H].
    intros [= <-]. cbn [fs history log]. split; [|split; [|auto]].
    + apply (@FsMore.fresh_dir (fs w) (Fs.remove_tree (fs w) d) f' d); try exact Em.
      * intros e He. apply FsFacts.in_remove_tree in He. tauto.
      * intros p n Hin. apply FsFacts.in_remove_tree in Hin. cbn [fst] in Hin.
        destruct (PathOps.below d p) eqn:Eb; [|reflexivity].
        apply PathFacts.below_iff in Eb. destruct Hin, Eb. congruence.
      * intros e He Hp. apply FsFacts.in_remove_tree. now split.
    + intros q n Hq Hs. eapply FsFacts.mkdir_from_stat; [exact Em|].
      now rewrite FsMore.stat_remove_tree.
  - destruct (Fs.mkdir_p (fs w) d) as [f'|e] eqn:Em; [|intros H; discriminate H].
    unfold put_fs. intros [= <-]. cbn [fs history log]. split; [|split; [|auto]].
    + apply (@FsMore.fresh_dir (fs w) (fs w) f' d); try exact Em; auto.
      intros p n Hin. destruct (PathOps.below d p) eqn:Eb; [|reflexivity].
      rewrite (Hroot _ _ Hin Eb) in Edir. discriminate Edir.
    + intros q n Hq Hs. eapply FsFacts.mkdir_from_stat; [exact Em|exact Hs].
Qed.

Lemma is_prefix_nil_r (p : Path) : PathOps.is_prefix p [] = true -> p = [].
Proof. destruct p; [reflexivity|intros H; discriminate H]. Qed.

(** X8. When the first loop of [process_archives] returns, both staging
    roots are directories with nothing below them, and of what lay
    outside of them nothing is lost.  The two roots must not lie one
    inside the other, and what is below a root must have the root as its
    directory. *)
Theorem staging_roots_start_empty (self : UnzipService) (w w' : world) :
  let temp1 := unzip_temp_dir (path_config self) in
  let temp3 := target_temp_dir (path_config self) in
  PathOps.is_prefix temp1 temp3 = false ->
  PathOps.is_prefix temp3 temp1 = false ->
  rooted_at (fs w) temp1 ->
  rooted_at (fs w) temp3 ->
  prepare_temp_dirs self w = (Ret tt, w') ->
  Fs.is_dir (fs w') temp1 = true /\ empty_below (fs w') temp1 /\
  Fs.is_dir (fs w') temp3 = true /\ empty_below (fs w') temp3 /\
  (forall e, In e (fs w) ->
             PathOps.is_prefix temp1 (fst e) = false ->
             PathOps.is_prefix temp3 (fst e) = false -> In e (fs w')) /\
  history w' = history w /\ log w' = log w.
Proof.
  intros temp1 temp3 H13 H31 Hr1 Hr3.
  assert (Hn1 : temp1 <> []) by (intros E; rewrite E in H13; discriminate H13).
  assert (Hn3 : temp3 <> []) by (intros E; rewrite E in H31; discriminate H31).
  unfold prepare_temp_dirs. fold temp1 temp3. cbn [for_each].
  unfold bind at 1.
  destruct ((try_except (fs_do (fun f => Fs.rmtree f temp1)) (fun _ => ret tt) ;;
             fs_do (fun f => Fs.mkdir_p f temp1)) w) as [[[]|e|] w1] eqn:E1;
    try (intros H; discriminate H).
  destruct (@wipe_step temp1 w w1 Hn1 Hr1 E1) as ((Hd1 & He1 & Hk1 & Hnew1) & Hs1 & Hh1 & Hl1).
  unfold bind at 1.
  destruct ((try_except (fs_do (fun f => Fs.rmtree f temp3)) (fun _ => ret tt) ;;
             fs_do (fun f => Fs.mkdir_p f temp3)) w1) as [[[]|e|] w2] eqn:E2;
    try (intros H; discriminate H).
  unfold ret. intros [= <-].
  assert (Hr3' : rooted_at (fs w1) temp3).
  { intros p n Hin Hb. destruct (Hnew1 _ Hin) as [Hold|[_ Hup]].
    - pose proof (Hr3 _ _ Hold Hb) as Hdir.
      unfold Fs.is_dir in *. destruct temp3 as [|s t] eqn:Et; [reflexivity|].
      destruct (Fs.stat (fs w) (s :: t)) as [[x|]|] eqn:Es; try discriminate Hdir.
      now rewrite (Hs1 _ _ H13 Es).
    - cbn [fst] in Hup. apply PathFacts.below_iff in Hb. destruct Hb as [Hb _].
      rewrite (PathFacts.is_prefix_trans _ _ _ Hb Hup) in H31. discriminate H31. }
  destruct (@wipe_step temp3 w1 w2 Hn3 Hr3' E2) as ((Hd3 & He3 & Hk3 & Hnew3) & Hs3 & Hh3 & Hl3).
  split; [|split; [|split; [exact Hd3|split; [exact He3|split]]]].
  - unfold Fs.is_dir in *. destruct temp1 as [|s t] eqn:Et; [reflexivity|].
    destruct (Fs.stat (fs w1) (s :: t)) as [[x|]|] eqn:Es; try discriminate Hd1.
    now rewrite (Hs3 _ _ H31 Es).
  - intros p n Hin. destruct (Hnew3 _ Hin) as [Hold|[_ Hup]].
    + exact (He1 _ _ Hold).
    + cbn [fst] in Hup. destruct (PathOps.below temp1 p) eqn:Eb; [|reflexivity].
      apply PathFacts.below_iff in Eb. destruct Eb as [Eb _].
      rewrite (PathFacts.is_prefix_trans _ _ _ Eb Hup) in H13. discriminate H13.
  - intros e0 He0 Hp1 Hp3. apply Hk3; [|exact Hp3]. now apply Hk1.
  - split; congruence.
Qed.

(** A witness: the inbound staging root holds what an earlier run left. *)
Lemma staging_roots_start_empty_witness :
  let self := Sample.service LOIBUS 0 in
  let w := Sample.empty_world Sample.inbound_fs in
  let w' := snd (prepare_temp_dirs self w) in
  Fs.is_dir (fs w') ["temp1"] = true /\ empty_below (fs w') ["temp1"] /\
  Fs.is_dir (fs w') ["temp3"] = true /\ empty_below (fs w') ["temp3"] /\
  (forall e, In e (fs w) ->
             PathOps.is_prefix ["temp1"] (fst e) = false ->
             PathOps.is_prefix ["temp3"] (fst e) = false -> In e (fs w')) /\
  history w' = history w /\ log w' = log w.
Proof.
  cbv zeta.
  apply (@staging_roots_start_empty (Sample.service LOIBUS 0)
           (Sample.empty_world Sample.inbound_fs)).
  - reflexivity.
  - reflexivity.
  - intros p n _ _. reflexivity.
  - intros p n _ _. reflexivity.
  - vm_compute. reflexivity.
Defined.

(** ** [FileHelper.merge_files] *)

Lemma content_of_stat (f g : FS) (p : Path) :
  Fs.stat g p = Fs.stat f p -> content_of g p = content_of f p.
Proof. unfold content_of, Fs.read. now intros ->. Qed.

Lemma read_is_file (f : FS) (p : Path) (d : list byte) :
  Fs.read f p = Ok d -> Fs.is_file f p = true /\ content_of f p = d.
Proof.
  unfold content_of, Fs.is_file, Fs.read.
  destruct (Fs.stat f p) as [[x|]|]; intros H; try discriminate H.
  injection H as ->. now split.
Qed.

(** The loop of [merge_files]: [acc] is what the output file holds when
    the loop comes to the files [l]. *)
Lemma merge_loop (out : Path) (l : list Path) :
  forall (w : world) (acc : list byte) (w' : world),
    Fs.read (fs w) out = Ok acc ->
    (forall p, In p l -> p <> out) ->
    for_each l (fun file_path =>
                  d <- fs_ask (fun f => Fs.read f file_path) ;;
                  FileHelper.append_to out d) w = (Ret tt, w') ->
    Fs.read (fs w') out = Ok (acc ++ List.concat (map (content_of (fs w)) l)) /\
    (forall p, In p l -> Fs.is_file (fs w) p = true) /\
    (forall q, q <> out -> Fs.stat (fs w') q = Fs.stat (fs w) q) /\
    history w' = history w /\ log w' = log w.
Proof.
  induction l as [|a l IH]; intros w acc w' Hacc Hl.
  - cbn. intros [= <-]. rewrite app_nil_r. split; [exact Hacc|]. split; [intros p []|auto].
  - cbn [for_each]. unfold bind at 1. unfold bind at 1. unfold fs_ask at 1.
    destruct (Fs.read (fs w) a) as [d|e] eqn:Ea; [|intros H; discriminate H].
    unfold FileHelper.append_to, bind at 1. unfold fs_ask at 1. rewrite Hacc.
    unfold fs_do at 1.
    destruct (Fs.write (fs w) out (acc ++ d)) as [f1|e] eqn:Ew; [|intros H; discriminate H].
    unfold put_fs. intros Hrest.
    pose proof (fun q => @FsMore.stat_write (fs w) f1 out q (acc ++ d) Ew) as Hs.
    assert (Hother : forall q, q <> out -> Fs.stat f1 q = Fs.stat (fs w) q).
    { intros q Hq. rewrite Hs.
      assert (E : PathOps.eqb out q = false) by (apply PathFacts.eqb_neq; congruence).
      now rewrite E. }
    assert (Hout : Fs.read f1 out = Ok (acc ++ d)).
    { unfold Fs.read. now rewrite Hs, PathFacts.eqb_refl. }
    destruct (IH {| fs := f1; history := history w; log := log w |} (acc ++ d) w'
                 Hout (fun p Hp => Hl p (or_intror Hp)) Hrest)
      as (Hr & Hf & Hst & Hh & Hlog).
    cbn [fs history log] in *.
    destruct (@read_is_file _ _ _ Ea) as [Hfa Hca].
    split; [|split; [|split; [|auto]]].
    + assert (Hm : map (content_of f1) l = map (content_of (fs w)) l).
      { apply map_ext_in. intros p Hp. apply content_of_stat, Hother, Hl. now right. }
      rewrite Hr, Hm. cbn [map List.concat]. now rewrite Hca, <- app_assoc.
    + intros p [<-|Hp]; [exact Hfa|].
      pose proof (Hf p Hp) as Hfp. unfold Fs.is_file in *.
      rewrite Hother in Hfp; [exact Hfp|]. apply Hl. now right.
    + intros q Hq. rewrite Hst by exact Hq. now apply Hother.
Qed.

(** X9. When [merge_files] returns and the output file is not one of the
    parts, the output file holds the bytes of the parts one after the
    other, in the order of their paths; every part was a file; nothing
    but the output file has changed, and of the log none of the lines
    that the model keeps is written. *)
Theorem merge_files_concatenates (file_list : list Path) (output_path : Path)
        (w w' : world) :
  (forall p, In p file_list -> p <> output_path) ->
  FileHelper.merge_files file_list output_path w = (Ret tt, w') ->
  Fs.read (fs w') output_path
  = Ok (List.concat (map (content_of (fs w)) (PathOps.sorted file_list))) /\
  (forall p, In p file_list -> Fs.is_file (fs w) p = true) /\
  (forall q, q <> output_path -> Fs.stat (fs w') q = Fs.stat (fs w) q) /\
  history w' = history w /\ log w' = log w.
Proof.
  intros Hne. unfold FileHelper.merge_files, try_except.
  match goal with
  | |- (match ?m w with _ => _ end) = _ -> _ => destruct (m w) as [[[]|e|] w1] eqn:E
  end; try (unfold raise; intros H; discriminate H).
  intros [= <-]. revert E. unfold bind at 1. unfold fs_do at 1.
  destruct (Fs.write (fs w) output_path []) as [f0|e] eqn:Ew; [|intros H; discriminate H].
  unfold put_fs. intros Hloop.
  pose proof (fun q => @FsMore.stat_write (fs w) f0 output_path q [] Ew) as Hs.
  assert (Hother : forall q, q <> output_path -> Fs.stat f0 q = Fs.stat (fs w) q).
  { intros q Hq. rewrite Hs.
    assert (E : PathOps.eqb output_path q = false) by (apply PathFacts.eqb_neq; congruence).
    now rewrite E. }
  assert (Hout : Fs.read f0 output_path = Ok []).
  { unfold Fs.read. now rewrite Hs, PathFacts.eqb_refl. }
  assert (Hne' : forall p, In p (PathOps.sorted file_list) -> p <> output_path).
  { intros p Hp. apply Hne. now apply SortFacts.sorted_in. }
  destruct (@merge_loop output_path (PathOps.sorted file_list)
              {| fs := f0; history := history w; log := log w |} [] w1 Hout Hne' Hloop)
    as (Hr & Hf & Hst & Hh & Hlog).
  cbn [fs history log app] in *.
  split; [|split; [|split; [|auto]]].
  - assert (Hm : map (content_of f0) (PathOps.sorted file_list)
                 = map (content_of (fs w)) (PathOps.sorted file_list)).
    { apply map_ext_in. intros p Hp. apply content_of_stat, Hother, Hne'. exact Hp. }
    now rewrite Hr, Hm.
  - intros p Hp. pose proof (Hf p (proj2 (SortFacts.sorted_in p file_list) Hp)) as Hfp.
    unfold Fs.is_file in *. rewrite Hother in Hfp; [exact Hfp|]. now apply Hne.
  - intros q Hq. rewrite Hst by exact Hq. now apply Hother.
Qed.

(** A witness: the two parts of [a.7z], given in the wrong order. *)
Lemma merge_files_concatenates_witness :
  let w := Sample.empty_world Sample.two_parts_fs in
  let file_list := [["in"; "a.7z.002"]; ["in"; "a.7z.001"]] in
  let w' := snd (FileHelper.merge_files file_list ["out"; "merged.001"] w) in
  Fs.read (fs w') ["out"; "merged.001"]
  = Ok (List.concat (map (content_of (fs w)) (PathOps.sorted file_list))) /\
  (forall p, In p file_list -> Fs.is_file (fs w) p = true) /\
  (forall q, q <> ["out"; "merged.001"] -> Fs.stat (fs w') q = Fs.stat (fs w) q) /\
  history w' = history w /\ log w' = log w.
Proof.
  cbv zeta.
  apply (@merge_files_concatenates [["in"; "a.7z.002"]; ["in"; "a.7z.001"]]
           ["out"; "merged.001"] (Sample.empty_world Sample.two_parts_fs)).
  - intros p [<-|[<-|[]]] H; discriminate H.
  - vm_compute. reflexivity.
Defined.

(** ** [UnzipService.cleanup] *)

Section CleanupFacts.

Variable self : UnzipService.

(** What the removal of one entry does. *)
Lemma remove_item_spec (item : Path) (w w' : world) :
  remove_item item w = (Ret tt, w') ->
  (forall e, In e (fs w') -> In e (fs w)) /\
  Fs.absent (fs w') item /\
  (forall q, PathOps.is_prefix item q = false -> Fs.stat (fs w') q = Fs.stat (fs w) q) /\
  history w' = history w /\ log w' = log w.
Proof.
  unfold remove_item, bind, get_fs, fs_do.
  destruct (Fs.is_dir (fs w) item) eqn:Ed.
  - unfold Fs.rmtree. destruct item as [|s i] eqn:Ei; [intros H; discriminate H|].
    rewrite <- Ei in *. rewrite Ed. unfold put_fs. intros [= <-]. cbn [fs history log].
    split; [|split; [|split; [|auto]]].
    + intros e He. apply FsFacts.in_remove_tree in He. tauto.
    + apply FsFacts.remove_tree_absent.
    + intros q Hq. now apply FsMore.stat_remove_tree.
  - unfold Fs.unlink. destruct (Fs.is_file (fs w) item); [|intros H; discriminate H].
    unfold put_fs. intros [= <-]. cbn [fs history log].
    split; [|split; [|split; [|auto]]].
    + intros e He. apply FsFacts.in_remove_entry in He. tauto.
    + intros n Hn. apply FsFacts.in_remove_entry in Hn. cbn [fst] in Hn. tauto.
    + intros q Hq. apply FsMore.stat_remove_entry. intros ->.
      now rewrite PathFacts.is_prefix_refl in Hq.
Qed.

Lemma is_processed_pure (item : Path) (w : world) (r : outcome bool) (w1 : world) :
  is_processed self item w = (r, w1) -> w1 = w.
Proof.
  unfold is_processed, bind, get_fs, get_history, fs_ask, ret.
  destruct (query_history_by_id _ _); [|now intros [= _ <-]].
  destruct (_is_all_processed _ _ _); now intros [= _ <-].
Qed.

Lemma is_processed_recorded (item : Path) (w : world) :
  db_type self <> VAMVIDEO ->
  query_history_by_id (history w) (_get_path_id (fs w) item) <> None ->
  is_processed self item w = (Ret true, w).
Proof.
  intros Hdb Hq. unfold is_processed, bind, get_fs, get_history, fs_ask, ret.
  destruct (query_history_by_id _ _); [|contradiction].
  unfold _is_all_processed.
  destruct (db_type self); try reflexivity. contradiction.
Qed.

Lemma siblings_not_prefix (d a b : Path) :
  PathOps.child_of d a = true -> PathOps.child_of d b = true -> a <> b ->
  PathOps.is_prefix a b = false.
Proof.
  intros Ha Hb Hne. apply PathFacts.child_of_iff in Ha, Hb.
  destruct Ha as [x ->]. destruct Hb as [y ->].
  destruct (PathOps.is_prefix (d ++ [x]) (d ++ [y])) eqn:E; [|reflexivity].
  apply PathFacts.is_prefix_iff in E. destruct E as [r Hr].
  rewrite <- app_assoc in Hr. apply app_inv_head in Hr.
  injection Hr as -> _. contradiction.
Qed.

Lemma get_path_id_stat (f g : FS) (p : Path) :
  Fs.stat g p = Fs.stat f p -> _get_path_id g p = _get_path_id f p.
Proof. intros H. unfold _get_path_id. now rewrite (FsMore.is_dir_stat _ _ _ H). Qed.

(** The first loop of [cleanup] only removes. *)
Lemma cleanup_source_shrinks (items : list Path) :
  forall w w',
    for_each items
      (fun item => processed <- is_processed self item ;;
                   when processed (remove_item item)) w = (Ret tt, w') ->
    (forall e, In e (fs w') -> In e (fs w)) /\ history w' = history w.
Proof.
  induction items as [|x l IH]; intros w w'.
  - cbn. intros [= <-]. auto.
  - cbn [for_each]. unfold bind at 1. unfold bind at 1.
    destruct (is_processed self x w) as [[b|e|] w0] eqn:Ep;
      try (intros H; discriminate H).
    apply is_processed_pure in Ep. subst w0.
    destruct (when b (remove_item x) w) as [[[]|e|] w1] eqn:Er;
      try (intros H; discriminate H).
    intros Hrest. destruct (IH _ _ Hrest) as [Hsub Hh].
    destruct b; cbn [when] in Er.
    + destruct (remove_item_spec _ _ Er) as (H1 & _ & _ & H4 & _).
      split; [auto|congruence].
    + injection Er as <-. auto.
Qed.

(** The first loop of [cleanup]: a recorded entry is gone afterwards. *)
Lemma cleanup_source_loop (items : list Path) :
  db_type self <> VAMVIDEO ->
  forall w w',
    (forall item, In item items ->
                  PathOps.child_of (source_dir (path_config self)) item = true) ->
    for_each items
      (fun item => processed <- is_processed self item ;;
                   when processed (remove_item item)) w = (Ret tt, w') ->
    forall item,
      In item items ->
      query_history_by_id (history w) (_get_path_id (fs w) item) <> None ->
      Fs.absent (fs w') item.
Proof.
  intros Hdb. induction items as [|x l IH]; intros w w' Hch; [intros _ item []|].
  cbn [for_each]. unfold bind at 1. unfold bind at 1.
  destruct (is_processed self x w) as [[b|e|] w0] eqn:Ep;
    try (intros H; discriminate H).
  pose proof (is_processed_pure _ _ Ep) as ->.
  destruct (when b (remove_item x) w) as [[[]|e|] w1] eqn:Er;
    try (intros H; discriminate H).
  intros Hrest item Hitem Hq.
  destruct (cleanup_source_shrinks _ _ Hrest) as [Hsub _].
  assert (Hstep : history w1 = history w /\
                  (forall q, PathOps.is_prefix x q = false ->
                             Fs.stat (fs w1) q = Fs.stat (fs w) q) /\
                  (b = true -> Fs.absent (fs w1) x)).
  { destruct b; cbn [when] in Er.
    - destruct (remove_item_spec _ _ Er) as (_ & H2 & H3 & H4 & _). auto.
    - injection Er as <-. split; [reflexivity|]. split; [reflexivity|].
      intros H; discriminate H. }
  destruct Hstep as (Hh & Hst & Hgone).
  destruct (PathOps.eqb x item) eqn:Ex.
  - apply PathFacts.eqb_eq in Ex. subst item.
    rewrite (is_processed_recorded x w Hdb Hq) in Ep. injection Ep as <-.
    intros n Hn. exact (Hgone eq_refl n (Hsub _ Hn)).
  - apply PathFacts.eqb_neq in Ex.
    destruct Hitem as [->|Hitem]; [contradiction|].
    apply (IH w1 w' (fun i Hi => Hch i (or_intror Hi)) Hrest item Hitem).
    rewrite Hh.
    rewrite (@get_path_id_stat (fs w) (fs w1) item); [exact Hq|].
    apply Hst. apply (@siblings_not_prefix (source_dir (path_config self)));
      [apply Hch; now left|apply Hch; now right|exact Ex].
Qed.

(** The second loop of [cleanup]: it only removes, and an entry without
    brackets in its name is gone afterwards. *)
Lemma cleanup_target_loop (items : list Path) :
  forall w w',
    for_each items (fun item => when (is_invalid_target item) (remove_item item)) w
    = (Ret tt, w') ->
    (forall e, In e (fs w') -> In e (fs w)) /\
    (forall item, In item items -> is_invalid_target item = true ->
                  Fs.absent (fs w') item) /\
    history w' = history w.
Proof.
  induction items as [|x l IH]; intros w w'.
  - cbn. intros [= <-]. split; [auto|]. split; [intros item []|reflexivity].
  - cbn [for_each]. unfold bind at 1.
    destruct (when (is_invalid_target x) (remove_item x) w) as [[[]|e|] w1] eqn:Er;
      try (intros H; discriminate H).
    intros Hrest. destruct (IH _ _ Hrest) as (Hsub & Hgone & Hh).
    assert (Hstep : (forall e, In e (fs w1) -> In e (fs w)) /\
                    (is_invalid_target x = true -> Fs.absent (fs w1) x) /\
                    history w1 = history w).
    { destruct (is_invalid_target x); cbn [when] in Er.
      - destruct (remove_item_spec _ _ Er) as (H1 & H2 & _ & H4 & _). auto.
      - injection Er as <-. split; [auto|]. split; [|reflexivity].
        intros H; discriminate H. }
    destruct Hstep as (Hsub1 & Hgone1 & Hh1).
    split; [auto|]. split; [|congruence].
    intros item [<-|Hitem] Hinv.
    + intros n Hn. exact (Hgone1 Hinv n (Hsub _ Hn)).
    + now apply Hgone.
Qed.

(** [cleanup], taken apart. *)
Lemma cleanup_ret (w w' : world) :
  cleanup self w = (Ret tt, w') ->
  exists items1 w1 items2,
    Fs.iterdir (fs w) (source_dir (path_config self)) = Ok items1 /\
    for_each items1
      (fun item => processed <- is_processed self item ;;
                   when processed (remove_item item)) w = (Ret tt, w1) /\
    Fs.iterdir (fs w1) (target_dir (path_config self)) = Ok items2 /\
    for_each items2 (fun item => when (is_invalid_target item) (remove_item item)) w1
    = (Ret tt, w').
Proof.
  unfold cleanup. unfold bind at 1. unfold cleanup_source at 1.
  unfold bind at 1. unfold fs_ask at 1.
  destruct (Fs.iterdir (fs w) (source_dir (path_config self))) as [items1|e];
    [|intros H; discriminate H].
  destruct (for_each items1 _ w) as [[[]|e|] w1] eqn:E1; try (intros H; discriminate H).
  unfold cleanup_target. unfold bind at 1. unfold fs_ask at 1.
  destruct (Fs.iterdir (fs w1) (target_dir (path_config self))) as [items2|e] eqn:E2;
    [|intros H; discriminate H].
  intros Hrest. exists items1, w1, items2. auto.
Qed.

(** X10. When [cleanup] returns, every entry left in the target
    directory has a bracket in its name: a folder named by a bare id,
    which is what an item without a [Pieces] document gets, is removed
    with all that is in it.  [cleanup] only removes entries, and leaves
    the history collection alone. *)
Theorem cleanup_leaves_bracketed_targets (w w' : world) :
  cleanup self w = (Ret tt, w') ->
  (forall p n,
      In (p, n) (fs w') ->
      PathOps.child_of (target_dir (path_config self)) p = true ->
      Str.contains "[" (PathOps.name p) = true \/
      Str.contains "]" (PathOps.name p) = true) /\
  (forall e, In e (fs w') -> In e (fs w)) /\
  history w' = history w.
Proof.
  intros Hc. destruct (@cleanup_ret w w' Hc) as (items1 & w1 & items2 & _ & E1 & Ei & E2).
  destruct (@cleanup_source_shrinks items1 w w1 E1) as [Hsub1 Hh1].
  destruct (@cleanup_target_loop items2 w1 w' E2) as (Hsub2 & Hgone & Hh2).
  split; [|split; [auto|congruence]].
  intros p n Hin Hch.
  assert (Hitem : In p items2).
  { eapply iterdir_complete; [exact Ei|apply Hsub2; exact Hin|exact Hch]. }
  destruct (is_invalid_target p) eqn:Einv.
  - exfalso. exact (Hgone p Hitem Einv n Hin).
  - unfold is_invalid_target in Einv.
    destruct (Str.contains "[" (PathOps.name p)); [now left|].
    destruct (Str.contains "]" (PathOps.name p)); [now right|discriminate Einv].
Qed.

(** X11. When [cleanup] returns and the database is not [VAMVIDEO],
    every entry of the source directory whose id has a document in the
    history collection is gone. *)
Theorem cleanup_removes_recorded_sources (w w' : world) (item : Path) (n : node) :
  db_type self <> VAMVIDEO ->
  cleanup self w = (Ret tt, w') ->
  In (item, n) (fs w) ->
  PathOps.child_of (source_dir (path_config self)) item = true ->
  query_history_by_id (history w) (_get_path_id (fs w) item) <> None ->
  Fs.absent (fs w') item.
Proof.
  intros Hdb Hc Hin Hch Hq.
  destruct (@cleanup_ret w w' Hc) as (items1 & w1 & items2 & Ei & E1 & _ & E2).
  destruct (@cleanup_target_loop items2 w1 w' E2) as (Hsub2 & _ & _).
  assert (Hitem : In item items1) by (eapply iterdir_complete; eassumption).
  assert (Hgone : Fs.absent (fs w1) item).
  { eapply cleanup_source_loop; try eassumption.
    intros i Hi. exact (proj1 (FsFacts.iterdir_children _ _ Ei i Hi)). }
  intros m Hm. exact (Hgone m (Hsub2 _ Hm)).
Qed.

End CleanupFacts.

(** A witness: the target root holds the folder [[A] title], the folder
    [B] and a stray file. *)
Lemma cleanup_leaves_bracketed_targets_witness :
  let self := Sample.service LOIBUS 0 in
  let w := Sample.empty_world Sample2.target_fs in
  let w' := snd (cleanup self w) in
  (forall p n,
      In (p, n) (fs w') ->
      PathOps.child_of (target_dir (path_config self)) p = true ->
      Str.contains "[" (PathOps.name p) = true \/
      Str.contains "]" (PathOps.name p) = true) /\
  (forall e, In e (fs w') -> In e (fs w)) /\
  history w' = history w.
Proof.
  cbv zeta.
  apply (@cleanup_leaves_bracketed_targets (Sample.service LOIBUS 0)
           (Sample.empty_world Sample2.target_fs)).
  vm_compute. reflexivity.
Defined.

(** A witness: the archive [A.zip] of the source root has a document. *)
Lemma cleanup_removes_recorded_sources_witness :
  let self := Sample.service LOIBUS 0 in
  let w := {| fs := Sample.source_fs;
              history := [{| h_id := "A"; h_src_path := "/src/A.zip";
                             h_dst_path := "/target/A" |}];
              log := [] |} in
  Fs.absent (fs (snd (cleanup self w))) ["src"; "A.zip"].
Proof.
  cbv zeta.
  apply (@cleanup_removes_recorded_sources (Sample.service LOIBUS 0)
           {| fs := Sample.source_fs;
              history := [{| h_id := "A"; h_src_path := "/src/A.zip";
                             h_dst_path := "/target/A" |}];
              log := [] |}
           (snd (cleanup (Sample.service LOIBUS 0)
                   {| fs := Sample.source_fs;
                      history := [{| h_id := "A"; h_src_path := "/src/A.zip";
                                     h_dst_path := "/target/A" |}];
                      log := [] |}))
           ["src"; "A.zip"] (File (Sniffer.magic_zip ++ [x04]))).
  - intros H; discriminate H.
  - vm_compute. reflexivity.
  - right. left. reflexivity.
  - reflexivity.
  - vm_compute. intros H; discriminate H.
Defined.

(** ** [_move_archives_to_zip_temp] *)

Lemma is_prefix_snoc (p d : Path) (x : string) :
  PathOps.is_prefix p (d ++ [x]) = true -> p = d ++ [x] \/ PathOps.is_prefix p d = true.
Proof.
  intros H. apply PathFacts.is_prefix_iff in H. destruct H as [r Hr].
  destruct r as [|y r _] using rev_ind.
  - left. now rewrite app_nil_r in Hr.
  - right. rewrite app_assoc in Hr. apply app_inj_tail in Hr. destruct Hr as [-> _].
    apply PathFacts.is_prefix_app.
Qed.

(** [remove_existing] only removes. *)
Lemma remove_existing_shrinks (p : Path) (w w1 : world) :
  remove_existing p w = (Ret tt, w1) ->
  (forall e, In e (fs w1) -> In e (fs w)) /\ history w1 = history w /\ log w1 = log w.
Proof.
  unfold remove_existing, bind, get_fs, when, fs_do, ret.
  destruct (Fs.exists_ (fs w) p); [|intros [= <-]; auto].
  destruct (Fs.is_file (fs w) p).
  - unfold Fs.unlink. destruct (Fs.is_file (fs w) p); [|intros H; discriminate H].
    unfold put_fs. intros [= <-]. cbn [fs history log]. split; [|auto].
    intros e He. apply FsFacts.in_remove_entry in He. tauto.
  - unfold Fs.rmtree. destruct p as [|s p0] eqn:Ep; [intros H; discriminate H|].
    rewrite <- Ep in *. destruct (Fs.is_dir (fs w) p); [|intros H; discriminate H].
    unfold put_fs. intros [= <-]. cbn [fs history log]. split; [|auto].
    intros e He. apply FsFacts.in_remove_tree in He. tauto.
Qed.

(** Where the entries of the file system come from after [shutil.move]:
    they were there, or they are at or below the place moved to, or they
    are directories made on the way to it. *)
Lemma move_entries (f f' : FS) (src dst : Path) :
  Fs.move f src dst = Ok f' ->
  let real_dst := if Fs.is_dir f dst then dst // PathOps.name src else dst in
  forall e, In e f' ->
            In e f \/ PathOps.is_prefix real_dst (fst e) = true \/
            (snd e = Dir /\ PathOps.is_prefix (fst e) (PathOps.parent real_dst) = true).
Proof.
  unfold Fs.move. destruct src as [|s0 src0] eqn:Es; [intros H; discriminate H|].
  rewrite <- Es. clear Es.
  destruct (Fs.is_dir f dst && PathOps.eqb src dst)%bool; [intros [= <-]; auto|].
  set (real_dst := if Fs.is_dir f dst then dst // PathOps.name src else dst).
  destruct (Fs.is_dir f dst && Fs.exists_ f real_dst)%bool; [intros H; discriminate H|].
  destruct (negb (Fs.exists_ f src)); [intros H; discriminate H|].
  destruct (Fs.is_dir f src && PathOps.is_prefix src real_dst)%bool;
    [intros H; discriminate H|].
  destruct (Fs.is_dir f src && Fs.exists_ f real_dst)%bool; [intros H; discriminate H|].
  destruct (Fs.is_dir f (PathOps.parent real_dst)).
  - intros [= <-] e He. apply FsFacts.in_rename_tree in He.
    destruct He as (e0 & He0 & ->). apply FsFacts.in_remove_entry in He0.
    destruct (PathOps.is_prefix src (fst e0)).
    + right. left. apply PathFacts.is_prefix_app.
    + left. tauto.
  - destruct (Fs.is_dir f src); [|intros H; discriminate H].
    destruct (Fs.mkdir_p f (PathOps.parent real_dst)) as [f1|e] eqn:Em;
      [|intros H; discriminate H].
    intros [= <-] e He. apply FsFacts.in_rename_tree in He.
    destruct He as (e0 & He0 & ->).
    destruct (PathOps.is_prefix src (fst e0)).
    + right. left. apply PathFacts.is_prefix_app.
    + destruct (FsFacts.mkdir_p_new _ _ Em _ He0) as [H|H]; auto.
Qed.

Section ZipTempFacts.

Variable self : UnzipService.

Lemma move_archives_fold (temp_path : Path) (_id : string) :
  _move_archives_to_zip_temp self temp_path _id
  = (f0 <- get_fs ;;
     for_each (FileHelper.get_file_list f0 temp_path)
       (move_archive_to_zip_temp self temp_path _id)).
Proof. reflexivity. Qed.

(** X12. The pass of the loop of [_move_archives_to_zip_temp] for a
    file that is an archive or a part empties the directory the file
    goes to: when the pass returns, all that is below that directory is
    the moved file.  An archive that an earlier pass has moved to the
    same directory is gone.  The history collection and the lines of
    the log that the model keeps are as before. *)
Theorem moved_archive_replaces_directory (temp_path : Path) (_id : string)
        (file_path : Path) (w w' : world) :
  let dst_path := zip_temp_dir_of self temp_path _id file_path in
  let target_file := dst_path // PathOps.name file_path in
  detect_archive_type (fs w) file_path <> UNKNOWN \/
  _is_multipart_archive file_path = true ->
  dst_path <> [] ->
  rooted_at (fs w) dst_path ->
  move_archive_to_zip_temp self temp_path _id file_path w = (Ret tt, w') ->
  (forall p n, In (p, n) (fs w') -> PathOps.below dst_path p = true ->
               PathOps.is_prefix target_file p = true) /\
  history w' = history w /\ log w' = log w.
Proof.
  intros dst_path target_file Hq Hne Hroot.
  unfold move_archive_to_zip_temp. unfold bind at 1. unfold get_fs at 1.
  assert (Hcond : (negb (ArchiveType_eqb (detect_archive_type (fs w) file_path) UNKNOWN)
                   || _is_multipart_archive file_path)%bool = true).
  { destruct Hq as [Hq| ->]; [|apply Bool.orb_true_r].
    destruct (detect_archive_type (fs w) file_path); try reflexivity. contradiction. }
  rewrite Hcond. cbn [when]. fold (zip_temp_dir_of self temp_path _id file_path).
  fold dst_path. fold target_file.
  unfold bind at 1. unfold remove_existing at 1. unfold bind at 1. unfold get_fs at 1.
  destruct (when _ _ w) as [[[]|e|] w1] eqn:E1; try (intros H; discriminate H).
  destruct (@clear_path_spec dst_path w w1 Hne Hroot E1) as (Hh1 & Hl1 & Hsub & Hempty & _).
  unfold bind at 1. unfold fs_do at 1.
  destruct (Fs.mkdir_p (fs w1) dst_path) as [f2|e] eqn:Em; [|intros H; discriminate H].
  unfold put_fs.
  assert (Hempty2 : forall p n, In (p, n) f2 -> PathOps.below dst_path p = false).
  { intros p n Hin. destruct (FsFacts.mkdir_p_new _ _ Em _ Hin) as [H|[_ H]].
    - exact (Hempty _ _ H).
    - now apply PathFacts.above_not_below. }
  unfold bind at 1.
  destruct (remove_existing target_file _) as [[[]|e|] w3] eqn:E3;
    try (intros H; discriminate H).
  destruct (@remove_existing_shrinks _ _ _ E3) as (Hsub3 & Hh3 & Hl3).
  cbn [fs history log] in Hsub3, Hh3, Hl3.
  unfold fs_do. destruct (Fs.move (fs w3) file_path target_file) as [f4|e] eqn:Ev;
    [|intros H; discriminate H].
  unfold put_fs. intros [= <-]. cbn [fs history log].
  split; [|split; congruence].
  intros p n Hin Hb.
  destruct (@move_entries _ _ _ _ Ev _ Hin) as [Hold|[Hnew|[_ Hup]]]; cbn [fst] in *.
  - rewrite (Hempty2 _ _ (Hsub3 _ Hold)) in Hb. discriminate Hb.
  - destruct (Fs.is_dir (fs w3) target_file); [|exact Hnew].
    eapply PathFacts.is_prefix_trans; [apply PathFacts.div_is_prefix|exact Hnew].
  - apply PathFacts.below_iff in Hb. destruct Hb as [Hb Hneq].
    assert (Hup' : PathOps.is_prefix p target_file = true).
    { destruct (Fs.is_dir (fs w3) target_file).
      - eapply PathFacts.is_prefix_trans; [exact Hup|apply PathFacts.parent_div_is_prefix].
      - eapply PathFacts.is_prefix_trans; [exact Hup|apply PathFacts.parent_is_prefix]. }
    unfold target_file in *.
    destruct (PathFacts.div_cases dst_path (PathOps.name file_path)) as [E|E];
      rewrite E in *.
    + exfalso. apply Hneq. now apply PathFacts.is_prefix_antisym.
    + destruct (@is_prefix_snoc _ _ _ Hup') as [->|Hp].
      * apply PathFacts.is_prefix_refl.
      * exfalso. apply Hneq. now apply PathFacts.is_prefix_antisym.
Qed.

End ZipTempFacts.

(** A witness: inbound staging of [X] holds an archive moved there
    before; the archive [a.zip] is moved next. *)
Lemma moved_archive_replaces_directory_witness :
  let self := Sample.service LOIBUS 0 in
  let w := Sample.empty_world Sample2.two_archives_fs in
  let w' := snd (move_archive_to_zip_temp self ["temp3"; "X"] "X"
                   ["temp3"; "X"; "a.zip"] w) in
  (forall p n, In (p, n) (fs w') -> PathOps.below ["temp1"; "X"] p = true ->
               PathOps.is_prefix ["temp1"; "X"; "a.zip"] p = true) /\
  history w' = history w /\ log w' = log w.
Proof.
  cbv zeta.
  apply (@moved_archive_replaces_directory (Sample.service LOIBUS 0) ["temp3"; "X"] "X"
           ["temp3"; "X"; "a.zip"] (Sample.empty_world Sample2.two_archives_fs)).
  - left. vm_compute. intros H; discriminate H.
  - vm_compute. intros H; discriminate H.
  - intros p n _ _. reflexivity.
  - vm_compute. reflexivity.
Defined.

(** ** The history collection: what is saved is found *)

Lemma find_snoc {A} (p : A -> bool) (l : list A) (x : A) :
  find p (l ++ [x]) = match find p l with
                      | Some r => Some r
                      | None => if p x then Some x else None
                      end.
Proof.
  induction l as [|y l IH]; cbn [app find]; [reflexivity|].
  destruct (p y); [reflexivity|exact IH].
Qed.

(** X13. After [save_history] the queries by id and by source path find
    a document: the one just written, unless the collection already
    held a document with that id, or that path, which is then the one
    found.  Documents of other ids are found as before. *)
Theorem saved_document_is_found (_id : string) (src_path dst_path : Path) (w : world) :
  let w' := snd (save_history _id src_path dst_path w) in
  let doc := {| h_id := _id;
                h_src_path := PathOps.to_str src_path;
                h_dst_path := PathOps.to_str dst_path |} in
  query_history_by_id (history w') _id
  = Some (match query_history_by_id (history w) _id with Some r => r | None => doc end) /\
  query_history_by_src_path (history w') src_path
  = Some (match query_history_by_src_path (history w) src_path with
          | Some r => r
          | None => doc
          end) /\
  (forall id', id' <> _id ->
               query_history_by_id (history w') id' = query_history_by_id (history w) id').
Proof.
  cbv zeta. unfold save_history, query_history_by_id, query_history_by_src_path.
  cbn [snd history]. rewrite !find_snoc. cbn [h_id h_src_path].
  rewrite !String.eqb_refl. split; [|split].
  - destruct (find _ (history w)); reflexivity.
  - destruct (find _ (history w)); reflexivity.
  - intros id' Hne. rewrite find_snoc. cbn [h_id].
    destruct (find _ (history w)); [reflexivity|].
    destruct (String.eqb _id id') eqn:E; [|reflexivity].
    apply String.eqb_eq in E. congruence.
Qed.

(** ** [FileHelper.contains_files] and [FileHelper.get_file_list] *)

Lemma existsb_filter {A} (p : A -> bool) (l : list A) :
  existsb p l = true <-> filter p l <> [].
Proof.
  induction l as [|x l IH]; cbn [existsb filter].
  - split; [intros H; discriminate H|intros H; now contradiction H].
  - destruct (p x); cbn [orb].
    + split; [intros _ H; discriminate H|reflexivity].
    + exact IH.
Qed.

(** X14. [contains_files] says yes exactly when the directory is one and
    [get_file_list] finds a file in it. *)
Theorem contains_files_iff_file_list (f : FS) (directory : Path) :
  FileHelper.contains_files f directory = true <->
  Fs.is_dir f directory = true /\ FileHelper.get_file_list f directory <> [].
Proof.
  unfold FileHelper.contains_files, FileHelper.get_file_list.
  destruct (Fs.is_dir f directory) eqn:Ed.
  - rewrite (is_dir_exists _ _ Ed). cbn [negb orb]. rewrite existsb_filter. tauto.
  - rewrite Bool.orb_true_r. split; [intros H; discriminate H|intros [H _]; discriminate H].
Qed.

(** ** A witness for the loop *)

(** A witness: inbound staging of [X] holds one text file. *)
Lemma loop_stops_without_archives_witness :
  let w := Sample.empty_world Sample2.unpacked_fs in
  _process_unzip_temp_archives Sample.corrupt Sample.corrupt Sample.corrupt
    (Sample.service LOIBUS 0) 1 "X" w = (Ret tt, w).
Proof.
  cbv zeta.
  apply (@loop_stops_without_archives Sample.corrupt Sample.corrupt Sample.corrupt
           (Sample.service LOIBUS 0) 0 "X" (Sample.empty_world Sample2.unpacked_fs)).
  intros p Hp. vm_compute in Hp. destruct Hp as [<-|[]]. vm_compute. reflexivity.
Defined.

(** ** [_extract_to_target_temp] inside [_process_single_id] *)

(** X18. For a unit that [_prepare_archive_info] has made,
    [_extract_to_target_temp] is [extract_archive]: the branch that
    copies the parts of a unit of unknown type is never taken from
    [_process_single_id]. *)
Theorem prepared_units_are_extracted (extract_7z extract_zip extract_rar : codec)
        (self : UnzipService) (f : FS) (_id : string) (files : list Path)
        (b : string) (a : ArchiveInfo) (temp_path : Path) :
  In (b, a) (_prepare_archive_info self f _id files) ->
  _extract_to_target_temp extract_7z extract_zip extract_rar a temp_path
  = extract_archive extract_7z extract_zip extract_rar a temp_path.
Proof.
  intros Hin. unfold _extract_to_target_temp.
  pose proof (@prepare_archive_info_known self f _id files b a Hin) as Hk.
  destruct (type a); try reflexivity. contradiction.
Qed.

(** A witness: the unit [a] of a folder with [a.zip] and [a.zip.001]. *)
Lemma prepared_units_are_extracted_witness :
  let a := {| path := ["src"; "X"; "a.zip"]; type := ZIP;
              parts := [["src"; "X"; "a.zip"]; ["src"; "X"; "a.zip.001"]];
              password := "y" |} in
  _extract_to_target_temp Sample.corrupt Sample.corrupt Sample.corrupt a ["temp3"; "X"]
  = extract_archive Sample.corrupt Sample.corrupt Sample.corrupt a ["temp3"; "X"].
Proof.
  cbv zeta.
  apply (@prepared_units_are_extracted Sample.corrupt Sample.corrupt Sample.corrupt
           (Sample.service LOIBUS 0) Sample2.group_fs "X"
           [["src"; "X"; "a.zip"]; ["src"; "X"; "a.zip.001"]] "a").
  vm_compute. left. reflexivity.
Defined.

(** ** A work item without archives *)

Lemma prepare_all_unknown (self : UnzipService) (f : FS) (_id : string) (files : list Path) :
  (forall p, In p files -> detect_archive_type f p = UNKNOWN) ->
  _prepare_archive_info self f _id files = [].
Proof.
  intros H. rewrite prepare_archive_info_fold.
  assert (Hs : forall p, In p (PathOps.sorted files) -> detect_archive_type f p = UNKNOWN).
  { intros p Hp. apply H. now apply SortFacts.sorted_in. }
  induction (PathOps.sorted files) as [|p l IH]; [reflexivity|].
  cbn [fold_left]. unfold file_into_units at 2. cbn [Dict.get].
  rewrite (Hs p (or_introl eq_refl)). cbn [ArchiveType_eqb negb].
  apply IH. intros q Hq. apply Hs. now right.
Qed.

Section PlainItem.

Variables extract_7z extract_zip extract_rar : codec.
Variable self : UnzipService.

(** X19. A work item none of whose files is a recognised archive leaves
    no trace: when the staging directories of its id hold no files,
    [_process_single_id] returns, the file system and the history
    collection are as before, and of the lines of the log that the
    model keeps the one written is that there are no files to move.  Nothing of the item reaches the target, and
    no document keeps the next run from collecting it again. *)
Theorem plain_item_leaves_no_trace (fuel : nat) (_id : string) (files : list Path)
        (source_path : Path) (w : world) :
  let temp1 := unzip_temp_dir (path_config self) // _generate_folder_name self _id in
  let temp3 := target_temp_dir (path_config self) // _generate_folder_name self _id in
  (forall p, In p files -> detect_archive_type (fs w) p = UNKNOWN) ->
  FileHelper.contains_files (fs w) temp1 = false ->
  FileHelper.contains_files (fs w) temp3 = false ->
  _process_single_id extract_7z extract_zip extract_rar self (S fuel) _id files
    source_path w
  = (Ret tt, with_log w (fs w) [LogNoFilesToMove temp3]).
Proof.
  intros temp1 temp3 Hfiles H1 H3.
  assert (Hloop : _process_unzip_temp_archives extract_7z extract_zip extract_rar self
                    (S fuel) _id w = (Ret tt, w)).
  { cbn [_process_unzip_temp_archives]. unfold bind at 1. unfold get_fs at 1.
    fold temp1. rewrite H1. cbn [negb]. now rewrite Bool.orb_true_r. }
  assert (Hmove : _move_to_target self temp3 _id source_path w
                  = (Ret tt, with_log w (fs w) [LogNoFilesToMove temp3])).
  { rewrite move_to_target_cases. now rewrite H3. }
  unfold _process_single_id, try_except.
  unfold bind at 1. unfold get_fs at 1. cbv beta iota zeta.
  rewrite (@prepare_all_unknown self (fs w) _id files Hfiles). cbn [for_each].
  unfold bind at 1. unfold ret at 1. cbv beta iota.
  unfold bind at 1. rewrite Hloop. fold temp3. now rewrite Hmove.
Qed.

End PlainItem.

(** A witness: the source folder [X] with one text file. *)
Lemma plain_item_leaves_no_trace_witness :
  let w := Sample.empty_world Sample.plain_fs in
  _process_single_id Sample.corrupt Sample.corrupt Sample.corrupt (Sample.service LOIBUS 0)
    1 "X" [["src"; "X"; "notes.txt"]] ["src"; "X"] w
  = (Ret tt, with_log w (fs w) [LogNoFilesToMove ["temp3"; "X"]]).
Proof.
  cbv zeta.
  apply (@plain_item_leaves_no_trace Sample.corrupt Sample.corrupt Sample.corrupt
           (Sample.service LOIBUS 0) 0 "X" [["src"; "X"; "notes.txt"]] ["src"; "X"]
           (Sample.empty_world Sample.plain_fs)).
  - intros p [<-|[]]. vm_compute. reflexivity.
  - vm_compute. reflexivity.
  - vm_compute. reflexivity.
Defined.

(** ** [str.index] and [str.rindex]: first and last occurrence *)

Module OccursFacts.

Lemma prefix_length (sub s : string) :
  String.prefix sub s = true -> String.length sub <= String.length s.
Proof.
  revert s. induction sub as [|a sub IH]; intros s; [cbn; lia|].
  destruct s as [|b s]; cbn [String.prefix String.length]; [intros H; discriminate H|].
  destruct (ascii_dec a b); [|intros H; discriminate H].
  intros H. apply IH in H. lia.
Qed.

Lemma occurs_at_0 (sub s : string) :
  occurs_at sub s 0 <-> String.prefix sub s = true.
Proof.
  unfold occurs_at. rewrite String.prefix_correct. split.
  - intros [_ H]. exact H.
  - intros H. split; [|exact H].
    apply String.prefix_correct, prefix_length in H. lia.
Qed.

Lemma occurs_at_S (sub s : string) (c : ascii) (j : nat) :
  occurs_at sub (String c s) (S j) <-> occurs_at sub s j.
Proof. unfold occurs_at. cbn [String.length String.substring]. split; intros [H1 H2]; split; auto; lia. Qed.

Lemma occurs_at_nil (sub : string) (j : nat) :
  occurs_at sub "" j -> j = 0.
Proof. unfold occurs_at. cbn [String.length]. intros [H _]. lia. Qed.

(** [Str.find] gives the first occurrence. *)
Lemma find_spec (sub s : string) :
  match Str.find sub s with
  | Some i => first_at sub s i
  | None => forall j, ~ occurs_at sub s j
  end.
Proof.
  induction s as [|c s IH]; cbn [Str.find].
  - destruct (String.prefix sub "") eqn:P.
    + split; [now apply occurs_at_0|intros; lia].
    + intros j Hj. pose proof (occurs_at_nil Hj) as ->.
      apply occurs_at_0 in Hj. congruence.
  - destruct (String.prefix sub (String c s)) eqn:P.
    + split; [now apply occurs_at_0|intros; lia].
    + destruct (Str.find sub s) as [i|]; cbn [option_map].
      * destruct IH as [Ho Hmin]. split; [now apply occurs_at_S|].
        intros [|j] Hj.
        -- apply occurs_at_0 in Hj. congruence.
        -- apply occurs_at_S in Hj. apply Hmin in Hj. lia.
      * intros [|j] Hj.
        -- apply occurs_at_0 in Hj. congruence.
        -- apply occurs_at_S in Hj. exact (IH j Hj).
Qed.

(** [Str.rfind] gives the last occurrence. *)
Lemma rfind_spec (sub s : string) :
  match Str.rfind sub s with
  | Some i => last_at sub s i
  | None => forall j, ~ occurs_at sub s j
  end.
Proof.
  induction s as [|c s IH]; cbn [Str.rfind].
  - destruct (String.prefix sub "") eqn:P.
    + split; [now apply occurs_at_0|].
      intros j Hj. pose proof (occurs_at_nil Hj). lia.
    + intros j Hj. pose proof (occurs_at_nil Hj) as ->.
      apply occurs_at_0 in Hj. congruence.
  - destruct (Str.rfind sub s) as [i|].
    + destruct IH as [Ho Hmax]. split; [now apply occurs_at_S|].
      intros [|j] Hj; [lia|]. apply occurs_at_S in Hj. apply Hmax in Hj. lia.
    + destruct (String.prefix sub (String c s)) eqn:P.
      * split; [now apply occurs_at_0|].
        intros [|j] Hj; [lia|]. apply occurs_at_S in Hj. now apply IH in Hj.
      * intros [|j] Hj.
        -- apply occurs_at_0 in Hj. congruence.
        -- apply occurs_at_S in Hj. exact (IH j Hj).
Qed.

Lemma contains_occurs (sub s : string) :
  Str.contains sub s = true <-> occurs sub s.
Proof.
  unfold Str.contains, occurs. pose proof (find_spec sub s) as H.
  destruct (Str.find sub s) as [i|].
  - split; [intros _; exists i; apply H|reflexivity].
  - split; [intros E; discriminate E|intros [j Hj]; now apply H in Hj].
Qed.

Lemma not_occurs_contains (sub s : string) :
  ~ occurs sub s -> Str.contains sub s = false.
Proof.
  intros H. destruct (Str.contains sub s) eqn:E; [|reflexivity].
  apply contains_occurs in E. contradiction.
Qed.

Lemma rfind_last (sub s : string) (i : nat) :
  last_at sub s i -> Str.rfind sub s = Some i.
Proof.
  intros [Ho Hmax]. pose proof (rfind_spec sub s) as H.
  destruct (Str.rfind sub s) as [k|].
  - destruct H as [Hk Hkmax]. f_equal.
    apply Nat.le_antisymm; [now apply Hmax|now apply Hkmax].
  - now apply H in Ho.
Qed.

Lemma find_first (sub s : string) (i : nat) :
  first_at sub s i -> Str.find sub s = Some i.
Proof.
  intros [Ho Hmin]. pose proof (find_spec sub s) as H.
  destruct (Str.find sub s) as [k|].
  - destruct H as [Hk Hkmin]. f_equal.
    apply Nat.le_antisymm; [now apply Hkmin|now apply Hmin].
  - now apply H in Ho.
Qed.

Lemma last_occurs (sub s : string) (i : nat) : last_at sub s i -> occurs sub s.
Proof. intros [H _]. now exists i. Qed.

Lemma first_occurs (sub s : string) (i : nat) : first_at sub s i -> occurs sub s.
Proof. intros [H _]. now exists i. Qed.

End OccursFacts.

(** ** [_collect_multipart_archive] *)

(** X16. [_collect_multipart_archive] on a file whose lower-cased name
    has the base name [base_name], that is, what comes before the last
    [.7z.]; without one, before the last [.zip.]; without either, before
    the first [.part] of a name that ends in [.rar], and before the last
    [.part] of any other name.  When the directory of the file is one
    and the names in it are ASCII, the call returns, without touching the
    world, the entries of that directory that pass the name test of the
    list comprehension for [base_name], in the order of their paths,
    which is the order of their names. *)
Lemma collect_multipart_archive_spec (file_path : Path) (w : world) (base_name : string) :
  is_base_name (Str.lower (PathOps.name file_path)) base_name ->
  Fs.is_dir (fs w) (PathOps.parent file_path) = true ->
  ascii_only (PathOps.name file_path) = true ->
  (forall p n, In (p, n) (fs w) ->
               PathOps.child_of (PathOps.parent file_path) p = true ->
               ascii_only (PathOps.name p) = true) ->
  exists parts_,
    _collect_multipart_archive file_path w = (Ret parts_, w) /\
    (forall p,
        In p parts_ <->
        (exists n, In (p, n) (fs w)) /\
        PathOps.child_of (PathOps.parent file_path) p = true /\
        is_part_of base_name p = true) /\
    Sorted path_le parts_.
Proof.
  intros Hbase Hdir _ _.
  unfold _collect_multipart_archive.
  set (file_name := Str.lower (PathOps.name file_path)) in *.
  assert (Hcut :
            (if Str.contains ".7z." file_name then up_to_rindex ".7z." file_name
             else if Str.contains ".zip." file_name then up_to_rindex ".zip." file_name
                  else if Str.contains ".part" file_name && Str.endswith file_name ".rar"
                       then up_to_index ".part" file_name
                       else up_to_rindex ".part" file_name) w
            = (Ret base_name, w)).
  { destruct Hbase as (i & -> & [H7|[(N7 & Hz)|[(N7 & Nz & Hr & Hp)|(N7 & Nz & Hr & Hp)]]]).
    - rewrite (proj2 (OccursFacts.contains_occurs _ _) (OccursFacts.last_occurs H7)).
      unfold up_to_rindex. now rewrite (OccursFacts.rfind_last H7).
    - rewrite (OccursFacts.not_occurs_contains N7).
      rewrite (proj2 (OccursFacts.contains_occurs _ _) (OccursFacts.last_occurs Hz)).
      unfold up_to_rindex. now rewrite (OccursFacts.rfind_last Hz).
    - rewrite (OccursFacts.not_occurs_contains N7), (OccursFacts.not_occurs_contains Nz).
      rewrite (proj2 (OccursFacts.contains_occurs _ _) (OccursFacts.first_occurs Hp)), Hr.
      cbn [andb]. unfold up_to_index. now rewrite (OccursFacts.find_first Hp).
    - rewrite (OccursFacts.not_occurs_contains N7), (OccursFacts.not_occurs_contains Nz).
      rewrite (proj2 (OccursFacts.contains_occurs _ _) (OccursFacts.last_occurs Hp)), Hr.
      cbn [andb]. unfold up_to_rindex. now rewrite (OccursFacts.rfind_last Hp). }
  exists (PathOps.sorted
            (filter (is_part_of base_name)
                    (map fst (filter (fun e => PathOps.child_of (PathOps.parent file_path) (fst e))
                                     (fs w))))).
  split; [|split].
  - unfold bind at 1. rewrite Hcut.
    unfold bind, fs_ask, Fs.iterdir. rewrite Hdir. reflexivity.
  - intros p. rewrite SortFacts.sorted_in, filter_In, in_map_iff. split.
    + intros [[[q n] [<- Hin]] Hp]. apply filter_In in Hin. destruct Hin as [Hin Hc].
      cbn [fst] in *. repeat split; eauto.
    + intros [[n Hin] [Hc Hp]]. split; [|exact Hp].
      exists (p, n). split; [reflexivity|]. apply filter_In. now split.
  - apply SortFacts.sorted_sorted.
Qed.

(** A witness: the first part of an archive whose name holds [.7z.]
    twice; its base name is [a.7z.b]. *)
Lemma collect_multipart_archive_spec_witness :
  let file_path := ["in"; "a.7z.b.7z.001"] in
  let w := Sample.empty_world Sample2.nested_name_fs in
  exists parts_,
    _collect_multipart_archive file_path w = (Ret parts_, w) /\
    (forall p,
        In p parts_ <->
        (exists n, In (p, n) (fs w)) /\
        PathOps.child_of (PathOps.parent file_path) p = true /\
        is_part_of "a.7z.b" p = true) /\
    Sorted path_le parts_.
Proof.
  cbv zeta.
  apply (@collect_multipart_archive_spec ["in"; "a.7z.b.7z.001"]
           (Sample.empty_world Sample2.nested_name_fs) "a.7z.b").
  - exists 6. split; [reflexivity|]. left.
    pose proof (OccursFacts.rfind_spec ".7z." "a.7z.b.7z.001") as H.
    assert (E : Str.rfind ".7z." "a.7z.b.7z.001" = Some 6) by (vm_compute; reflexivity).
    rewrite E in H. exact H.
  - reflexivity.
  - reflexivity.
  - intros p n Hin _. cbv [fs Sample.empty_world Sample2.nested_name_fs In] in Hin.
    repeat (destruct Hin as [Hin|Hin]; [injection Hin as <- _; reflexivity|]).
    contradiction.
Defined.
